(** * BugBeheer: risk matrix, bug lifecycle and session gate

    A shallow embedding of the repository's two programs:

    - the Express backend ([server.js]): the login route, the bearer-token
      middleware and the handlers of [/api/bugs], over the [bugs] table;
    - the React client ([App]) with its store client module
      ([supabaseClient.ts]): risk scoring, the local five-minute session and
      the derived views ([displayedBugs], [sortedBugs]).

    Modelling choices:

    - JavaScript numbers are integers ([Z]) plus [NaN]; strings are sequences
      of ASCII characters; request bodies hold the primitive JSON values.
    - [Date.now()], [crypto.randomUUID()] and the answer to a confirmation
      dialog are explicit arguments of the functions that use them.
    - What lies outside the repository is a parameter: the runtime's
      string-to-number conversion, the jsonwebtoken functions, the
      [createClient] of the store client library (which may throw), and the
      constraints of the hosted table (a write the table refuses is the
      error branch of the store functions).  A store call on a configured
      client otherwise succeeds.
    - Handlers are functions from the store to a response and the new store;
      the table is the list of its rows. *)

From Stdlib Require Import ZArith List String Ascii Bool Lia.
From Stdlib Require Import Permutation Sorted DecimalString DecimalZ DecimalPos.
Import ListNotations.
Local Open Scope Z_scope.

(** ** JavaScript values *)

Module Js.

(** The result of a numeric coercion. *)
Inductive JsNum : Type :=
| NaN
| Num (z : Z).

(** A field of a parsed JSON request body; [JUndefined] is a missing key.
    JSON carries no NaN, so a number of the body is an integer here. *)
Inductive JsValue : Type :=
| JUndefined
| JNull
| JBool (b : bool)
| JNumber (z : Z)
| JString (s : string).

(** ToBoolean. *)
Definition truthy (v : JsValue) : bool :=
  match v with
  | JUndefined | JNull => false
  | JBool b => b
  | JNumber z => negb (z =? 0)
  | JString s => negb (s =? "")%string
  end.

(** ToBoolean of a number: [NaN] and [0] are falsy. *)
Definition truthyNum (n : JsNum) : bool :=
  match n with
  | NaN => false
  | Num z => negb (z =? 0)
  end.

(** [typeof v === 'string'] and [typeof v === 'number']. *)
Definition isString (v : JsValue) : bool :=
  match v with JString _ => true | _ => false end.

Definition isNumber (v : JsValue) : bool :=
  match v with JNumber _ => true | _ => false end.

(** [a === b] on the values of a request body. *)
Definition strictEq (a b : JsValue) : bool :=
  match a, b with
  | JUndefined, JUndefined => true
  | JNull, JNull => true
  | JBool x, JBool y => Bool.eqb x y
  | JNumber x, JNumber y => x =? y
  | JString x, JString y => (x =? y)%string
  | _, _ => false
  end.

(** [arr.includes(v)] for an array of strings. *)
Definition includes (arr : list string) (v : JsValue) : bool :=
  match v with
  | JString s => existsb (String.eqb s) arr
  | _ => false
  end.

(** White space removed by [String.prototype.trim], within ASCII: tab, line
    feed, vertical tab, form feed, carriage return and space. *)
Definition isWhiteSpace (c : ascii) : bool :=
  existsb (Ascii.eqb c)
    ["009"%char; "010"%char; "011"%char; "012"%char; "013"%char; " "%char].

Fixpoint trimStart (s : string) : string :=
  match s with
  | EmptyString => EmptyString
  | String c r => if isWhiteSpace c then trimStart r else s
  end.

Fixpoint trimEnd (s : string) : string :=
  match s with
  | EmptyString => EmptyString
  | String c r =>
      match trimEnd r with
      | EmptyString => if isWhiteSpace c then EmptyString else String c EmptyString
      | r' => String c r'
      end
  end.

Definition trim (s : string) : string := trimEnd (trimStart s).

(** [n || 1] on a number. *)
Definition orOne (n : JsNum) : JsNum := if truthyNum n then n else Num 1.

(** [s || null] on a string: the empty string becomes absent. *)
Definition orNull (s : string) : option string :=
  if (s =? "")%string then None else Some s.

Section ToNumber.

(** The runtime's StringToNumber (the numeric value of a string literal,
    [NaN] when the string is not one). *)
Variable StringToNumber : string -> JsNum.

(** [Number(v)]. *)
Definition ToNumber (v : JsValue) : JsNum :=
  match v with
  | JUndefined => NaN
  | JNull => Num 0
  | JBool b => Num (if b then 1 else 0)
  | JNumber z => Num z
  | JString s => StringToNumber s
  end.

End ToNumber.

(** [n.toString()] for a non-negative integer. *)
Definition natToString (n : nat) : string :=
  NilZero.string_of_uint (Nat.to_uint n).

End Js.

(** ** Risk scoring (client) *)

Module Risk.

(** [const riskScore = impact * likelihood]. *)
Definition riskScore (impact likelihood : Z) : Z := impact * likelihood.

Definition riskCategory (score : Z) : string :=
  if score <=? 4 then "Laag"
  else if score <=? 8 then "Gemiddeld"
  else if score <=? 12 then "Hoog"
  else "Kritiek".

Definition cellColor (score : Z) : string :=
  if score <=? 4 then "#d1fae5"
  else if score <=? 8 then "#fef9c3"
  else if score <=? 12 then "#ffedd5"
  else "#fee2e2".

(** The four levels in the order of the legend, most severe first. *)
Definition RISK_LEVELS : list string := ["Kritiek"; "Hoog"; "Gemiddeld"; "Laag"]%string.

(** Rank of a level: 0 for Laag (low) up to 3 for Kritiek (critical). *)
Definition severity (category : string) : Z :=
  if (category =? "Laag")%string then 0
  else if (category =? "Gemiddeld")%string then 1
  else if (category =? "Hoog")%string then 2
  else 3.

End Risk.

(** ** The backend ([server.js]) *)

Module Server.
Import Js.

(** *** Configuration read from the environment *)

Record Config : Type := mkConfig {
  APP_JWT_SECRET : option string;
  APP_USERNAME : option string;
  APP_PASSWORD : option string
}.

(** [process.env.X]: [undefined] when the variable is not set. *)
Definition envValue (v : option string) : JsValue :=
  match v with
  | Some s => JString s
  | None => JUndefined
  end.

(** [process.env.APP_JWT_SECRET || 'dev-insecure-secret']. *)
Definition JWT_SECRET (cfg : Config) : string :=
  match APP_JWT_SECRET cfg with
  | Some s => if (s =? "")%string then "dev-insecure-secret"%string else s
  | None => "dev-insecure-secret"%string
  end.

Definition EXPECT_USER (cfg : Config) : JsValue := envValue (APP_USERNAME cfg).
Definition EXPECT_PASS (cfg : Config) : JsValue := envValue (APP_PASSWORD cfg).

Definition ALLOWED_LABELS : list string :=
  [ "Betaalopdrachten";
    "Betaalverzoeken Parro";
    "Betaalverzoeken Email";
    "TSO";
    "Accounts / login";
    "Beheer & Instellingen" ]%string.

(** *** Requests and responses *)

(** The fields the routes read from [req.body] ([req.body || {}]: a field
    that is not sent is [JUndefined]). *)
Module Body.
Record t : Type := mk {
  ticket : JsValue;
  description : JsValue;
  jiraLink : JsValue;
  impact : JsValue;
  likelihood : JsValue;
  label : JsValue;
  reference : JsValue;
  completedAt : JsValue;
  username : JsValue;
  password : JsValue
}.

Definition empty : t :=
  mk JUndefined JUndefined JUndefined JUndefined JUndefined
     JUndefined JUndefined JUndefined JUndefined JUndefined.
End Body.

Inductive Method : Type := GET | POST | PUT | DELETE | OPTIONS.

(** A request below the [/api] mount point: [path] lists the segments of
    [req.path] as the mounted middleware sees it (the mount point removed). *)
Record Request : Type := mkRequest {
  method : Method;
  path : list string;
  authorization : option string;
  body : Body.t
}.

(** A row of the [bugs] table, with the column names the backend uses. *)
Record BugRow : Type := mkBugRow {
  id : string;
  ticket : option string;
  description : string;
  jiraLink : JsValue;
  impact : JsNum;
  likelihood : JsNum;
  label : option string;
  completedAt : option Z;
  createdAt : Z;
  reference : bool
}.

Inductive Payload : Type :=
| ErrorJson (error : string)
| BugJson (bug : BugRow)
| BugsJson (bugs : list BugRow)
| TokenJson (token : string) (expiresIn : Z)
| StatusJson (status : string)
| NoBody.

(** What a handler does with a request: it writes a response, a status with
    headers and a body, or its promise rejects before it has written one (an
    error thrown in the handler body).  What the client receives after a
    rejection is decided outside the handler, by the version of Express in
    use: Express 5 passes the error on to the error handler at the end of
    [server.js], Express 4 leaves the rejection to the runtime. *)
Inductive Response : Type :=
| Reply (status : Z) (headers : list (string * string)) (payload : Payload)
| Rejected.

Definition json (status : Z) (p : Payload) : Response := Reply status [] p.

Definition errorJson (status : Z) (msg : string) : Response :=
  json status (ErrorJson msg).

(** The centralised error handler, for an error that reaches it: it answers
    500 unless the headers have been sent. *)
Definition errorHandler (headersSent : bool) : option Response :=
  if headersSent then None else Some (errorJson 500 "internal error").

(** What the client receives for what the handler did, [None] when no
    response is written; [forwardsRejection] says whether the framework
    hands a rejected handler promise to the error handler. *)
Definition delivered (forwardsRejection : bool) (r : Response) : option Response :=
  match r with
  | Rejected => if forwardsRejection then errorHandler false else None
  | Reply _ _ _ => Some r
  end.

(** *** The record store *)

Definition Table : Type := list BugRow.

(** The Supabase client: [null] when its environment variables are missing,
    otherwise bound to the table. *)
Definition Supabase : Type := option Table.

Definition hasId (i : string) (r : BugRow) : bool := (id r =? i)%string.

(** [.order('createdAt', { ascending: true })]: the rows by ascending
    [createdAt].  The query names no second key, so the database is free in
    the order of rows of equal [createdAt]; the list below is one such
    order, and no property stated of it depends on which. *)
Fixpoint insertByCreatedAt (r : BugRow) (rows : list BugRow) : list BugRow :=
  match rows with
  | [] => [r]
  | x :: rest =>
      if createdAt r <=? createdAt x then r :: rows
      else x :: insertByCreatedAt r rest
  end.

Fixpoint orderByCreatedAt (rows : list BugRow) : list BugRow :=
  match rows with
  | [] => []
  | r :: rest => insertByCreatedAt r (orderByCreatedAt rest)
  end.

Definition listBugs (db : Supabase) : list BugRow :=
  match db with
  | None => []
  | Some t => orderByCreatedAt t
  end.

(** [.eq('id', id).single()]: the row when exactly one matches. *)
Definition getBug (i : string) (db : Supabase) : option BugRow :=
  match db with
  | None => None
  | Some t =>
      match filter (hasId i) t with
      | [r] => Some r
      | _ => None
      end
  end.

(** The partial field set of an update. *)
Record Changes : Type := mkChanges {
  setTicket : option (option string);
  setDescription : option string;
  setJiraLink : option JsValue;
  setImpact : option JsNum;
  setLikelihood : option JsNum;
  setLabel : option (option string);
  setReference : option bool;
  setCompletedAt : option (option Z)
}.

Definition orKeep {A : Type} (c : option A) (old : A) : A :=
  match c with
  | Some v => v
  | None => old
  end.

Definition applyChanges (c : Changes) (r : BugRow) : BugRow :=
  {| id := id r;
     ticket := orKeep (setTicket c) (ticket r);
     description := orKeep (setDescription c) (description r);
     jiraLink := orKeep (setJiraLink c) (jiraLink r);
     impact := orKeep (setImpact c) (impact r);
     likelihood := orKeep (setLikelihood c) (likelihood r);
     label := orKeep (setLabel c) (label r);
     completedAt := orKeep (setCompletedAt c) (completedAt r);
     createdAt := createdAt r;
     reference := orKeep (setReference c) (reference r) |}.

Definition onlyCompletedAt (ts : Z) : Changes :=
  {| setTicket := None; setDescription := None; setJiraLink := None;
     setImpact := None; setLikelihood := None; setLabel := None;
     setReference := None; setCompletedAt := Some (Some ts) |}.

(** The row after [update({ completedAt: now })]. *)
Definition completedAtTime (now : Z) (bug : BugRow) : BugRow :=
  applyChanges (onlyCompletedAt now) bug.

Section Store.

(** The constraints of the hosted table (column types and checks), which are
    not part of the handlers: whether the database accepts a row.  A write
    the database refuses is the [error] branch of the store functions. *)
Variable tableAccepts : BugRow -> bool.

(** [insert([payload]).select().single()]; [None] is the thrown error. *)
Definition createBug (payload : BugRow) (db : Supabase) : option (BugRow * Supabase) :=
  match db with
  | None => None
  | Some t =>
      if tableAccepts payload then Some (payload, Some (t ++ [payload]))
      else None
  end.

(** [update(changes).eq('id', id).select().single()]; [None] is the thrown
    error (also raised when not exactly one row is returned). *)
Definition updateBug (i : string) (changes : Changes) (db : Supabase)
  : option (BugRow * Supabase) :=
  match db with
  | None => None
  | Some t =>
      match filter (hasId i) t with
      | [r] =>
          let r' := applyChanges changes r in
          if tableAccepts r'
          then Some (r', Some (map (fun x => if hasId i x then applyChanges changes x else x) t))
          else None
      | _ => None
      end
  end.

End Store.

(** [delete().eq('id', id)]; [None] is the thrown error. *)
Definition deleteBug (i : string) (db : Supabase) : option Supabase :=
  match db with
  | None => None
  | Some t => Some (Some (filter (fun r => negb (hasId i r)) t))
  end.

(** [delete().eq('reference', false)]. *)
Definition deleteAllNonReference (db : Supabase) : option Supabase :=
  match db with
  | None => None
  | Some t => Some (Some (filter (fun r => negb (Bool.eqb (reference r) false)) t))
  end.

(** *** Route handlers *)

(** [v || null]. *)
Definition orNullV (v : JsValue) : JsValue := if truthy v then v else JNull.

(** The string behind a value that passed [typeof v === 'string']. *)
Definition asString (v : JsValue) : option string :=
  match v with
  | JString s => Some s
  | _ => None
  end.

(** [label ? label : null] ([label || null] in the update) for a label that
    passed the membership test: a truthy label is then one of the strings of
    [ALLOWED_LABELS]. *)
Definition labelOrNull (v : JsValue) : option string :=
  if truthy v then asString v else None.

(** The two checks at the head of [POST /api/bugs]: the description is a
    non-empty string (nothing is trimmed before the check), and the label is
    falsy or one of [ALLOWED_LABELS]. *)
Definition descriptionPasses (v : JsValue) : bool := truthy v && isString v.

Definition labelPasses (v : JsValue) : bool :=
  negb (truthy v) || includes ALLOWED_LABELS v.

Section Handlers.

Variable StringToNumber : string -> JsNum.
Variable tableAccepts : BugRow -> bool.

(** The [newBug] object of [POST /api/bugs], for a description that passed
    the check. *)
Definition newBug (uuid : string) (now : Z) (b : Body.t) (description_ : string)
  : BugRow :=
  let trimmedTicket :=
    match Body.ticket b with
    | JString t => trim t
    | _ => ""%string
    end in
  {| id := uuid;
     ticket := orNull trimmedTicket;
     description := trim description_;
     jiraLink := orNullV (Body.jiraLink b);
     impact := orOne (ToNumber StringToNumber (Body.impact b));
     likelihood := orOne (ToNumber StringToNumber (Body.likelihood b));
     label := labelOrNull (Body.label b);
     completedAt := None;
     createdAt := now;
     reference := truthy (Body.reference b) |}.

(** [POST /api/bugs]. *)
Definition postBugs (uuid : string) (now : Z) (b : Body.t) (db : Supabase)
  : Response * Supabase :=
  match (if truthy (Body.description b) then asString (Body.description b) else None) with
  | None => (errorJson 400 "description required", db)
  | Some description_ =>
      if truthy (Body.label b) && negb (includes ALLOWED_LABELS (Body.label b))
      then (errorJson 400 "invalid label", db)
      else
        match createBug tableAccepts (newBug uuid now b description_) db with
        | Some (inserted, db') => (json 201 (BugJson inserted), db')
        | None => (errorJson 500 "insert failed", db)
        end
  end.

(** [GET /api/bugs] and [GET /api/bugs/:id]. *)
Definition getBugs (db : Supabase) : Response * Supabase :=
  (json 200 (BugsJson (listBugs db)), db).

Definition getBugById (i : string) (db : Supabase) : Response * Supabase :=
  match getBug i db with
  | None => (errorJson 404 "bug not found", db)
  | Some bug => (json 200 (BugJson bug), db)
  end.

(** The [updated] object of [PUT /api/bugs/:id]; [None] when building it
    throws ([trim] called on a description that is not a string). *)
Definition updatedFields (b : Body.t) (existing : BugRow) : option Changes :=
  let incomingTicket :=
    match Body.ticket b with
    | JString t => trim t
    | _ => match ticket existing with Some t => t | None => ""%string end
    end in
  let description_ :=
    if truthy (Body.description b)
    then option_map trim (asString (Body.description b))
    else Some (description existing) in
  match description_ with
  | None => None
  | Some d =>
      Some
        {| setTicket := Some (orNull incomingTicket);
           setDescription := Some d;
           setJiraLink :=
             Some (match Body.jiraLink b with
                   | JUndefined => jiraLink existing
                   | v => orNullV v
                   end);
           setImpact :=
             Some (match Body.impact b with
                   | JUndefined => impact existing
                   | v => ToNumber StringToNumber v
                   end);
           setLikelihood :=
             Some (match Body.likelihood b with
                   | JUndefined => likelihood existing
                   | v => ToNumber StringToNumber v
                   end);
           setLabel :=
             Some (match Body.label b with
                   | JUndefined => label existing
                   | v => labelOrNull v
                   end);
           setReference :=
             Some (match Body.reference b with
                   | JUndefined => reference existing
                   | v => truthy v
                   end);
           setCompletedAt :=
             Some (match Body.completedAt b with
                   | JNumber ts => Some ts
                   | JUndefined => completedAt existing
                   | _ => None
                   end) |}
  end.

(** [PUT /api/bugs/:id]. *)
Definition putBug (i : string) (b : Body.t) (db : Supabase) : Response * Supabase :=
  if truthy (Body.label b) && negb (includes ALLOWED_LABELS (Body.label b))
  then (errorJson 400 "invalid label", db)
  else
    match Body.completedAt b with
    | JUndefined | JNull | JNumber _ =>
        match getBug i db with
        | None => (errorJson 404 "not found", db)
        | Some existing =>
            match updatedFields b existing with
            | None => (Rejected, db)
            | Some updated =>
                match updateBug tableAccepts i updated db with
                | Some (result, db') => (json 200 (BugJson result), db')
                | None => (errorJson 500 "update failed", db)
                end
            end
        end
    | _ => (errorJson 400 "invalid completedAt", db)
    end.

(** [POST /api/bugs/:id/complete]; [if (bug.completedAt)] is a truthiness
    test: it holds for a timestamp other than 0. *)
Definition isCompleted (bug : BugRow) : bool :=
  match completedAt bug with
  | Some ts => negb (ts =? 0)
  | None => false
  end.

Definition completeBug (i : string) (now : Z) (db : Supabase) : Response * Supabase :=
  match getBug i db with
  | None => (errorJson 404 "bug not found", db)
  | Some bug =>
      if reference bug then (errorJson 403 "reference bug cannot be completed", db)
      else if isCompleted bug then (errorJson 409 "already completed", db)
      else
        match updateBug tableAccepts i (onlyCompletedAt now) db with
        | Some (result, db') => (json 200 (BugJson result), db')
        | None => (errorJson 500 "complete failed", db)
        end
  end.

End Handlers.

(** [DELETE /api/bugs/:id]. *)
Definition deleteBugById (i : string) (db : Supabase) : Response * Supabase :=
  match getBug i db with
  | None => (errorJson 404 "not found", db)
  | Some bug =>
      if reference bug then (errorJson 403 "reference bug cannot be deleted", db)
      else
        match deleteBug i db with
        | Some db' => (Reply 204 [] NoBody, db')
        | None => (errorJson 500 "delete failed", db)
        end
  end.

(** [DELETE /api/bugs]: delete all bugs, preserving reference bugs. *)
Definition deleteAllBugs (db : Supabase) : Response * Supabase :=
  let all := listBugs db in
  let preserved := filter reference all in
  if (List.length preserved =? List.length all)%nat
  then (errorJson 403 "all bugs are reference bugs; deletion aborted", db)
  else
    match deleteAllNonReference db with
    | Some db' =>
        (Reply 204 [("X-Reference-Preserved", natToString (List.length preserved))%string] NoBody, db')
    | None => (errorJson 500 "bulk delete failed", db)
    end.

(** *** Sequences of lifecycle operations *)

(** The rows behind the client (none when it is not configured). *)
Definition rows (db : Supabase) : list BugRow :=
  match db with
  | Some t => t
  | None => []
  end.

Inductive Op : Type :=
| OpCreate (uuid : string) (now : Z) (b : Body.t)
| OpUpdate (i : string) (b : Body.t)
| OpComplete (i : string) (now : Z)
| OpDelete (i : string)
| OpDeleteAll.


(** A create whose generated id is [i]. *)
Definition createsId (i : string) (op : Op) : bool :=
  match op with
  | OpCreate uuid _ _ => (uuid =? i)%string
  | _ => false
  end.

(** An integer from 1 to 5. *)
Definition inRange (n : JsNum) : bool :=
  match n with
  | Num z => (1 <=? z) && (z <=? 5)
  | NaN => false
  end.

Definition rowInRange (r : BugRow) : bool :=
  inRange (impact r) && inRange (likelihood r).

(** The inputs for which the handlers keep a rating within 1 to 5: on a
    create, a coerced input that is falsy ([NaN] or 0, replaced by 1) or
    already in range; on an update, an omitted input (the stored value is
    kept) or one that coerces to a number in range. *)
Definition createKeepsRange (n : JsNum) : bool := negb (truthyNum n) || inRange n.

Definition updateKeepsRange (StringToNumber : string -> JsNum) (v : JsValue) : bool :=
  match v with
  | JUndefined => true
  | _ => inRange (ToNumber StringToNumber v)
  end.


Section Lifecycle.

Variable StringToNumber : string -> JsNum.
Variable tableAccepts : BugRow -> bool.

Definition handle (op : Op) (db : Supabase) : Response * Supabase :=
  match op with
  | OpCreate uuid now b => postBugs StringToNumber tableAccepts uuid now b db
  | OpUpdate i b => putBug StringToNumber tableAccepts i b db
  | OpComplete i now => completeBug tableAccepts i now db
  | OpDelete i => deleteBugById i db
  | OpDeleteAll => deleteAllBugs db
  end.

(** The store after a sequence of requests, handled one after the other. *)
Definition run (ops : list Op) (db : Supabase) : Supabase :=
  fold_left (fun d op => snd (handle op d)) ops db.

End Lifecycle.

(** *** Authentication and routing *)

(** The requests the bug routes answer: the gated operations. *)
Definition isBugRoute (req : Request) : bool :=
  match method req, path req with
  | (GET | POST | DELETE), [a] => (a =? "bugs")%string
  | (GET | PUT | DELETE), [a; _] => (a =? "bugs")%string
  | POST, [a; _; c] => (a =? "bugs")%string && (c =? "complete")%string
  | _, _ => false
  end.

Section Auth.

(** [jwt.sign(payload, secret, { expiresIn })] at a given time, and whether
    [jwt.verify(token, secret)] returns at a given time instead of throwing
    (the jsonwebtoken package). *)
Variable jwtSign : JsValue -> string -> string -> Z -> string.
Variable jwtVerify : string -> string -> Z -> bool.

Variable cfg : Config.

(** [POST /api/login]. *)
Definition login (now : Z) (b : Body.t) : Response :=
  if strictEq (Body.username b) (EXPECT_USER cfg)
     && strictEq (Body.password b) (EXPECT_PASS cfg)
  then
    let token := jwtSign (Body.username b) (JWT_SECRET cfg) "8h"%string now in
    json 200 (TokenJson token (8 * 3600))
  else errorJson 401 "invalid credentials".

(** [req.path === q], on the segments of the two paths. *)
Fixpoint pathIs (p q : list string) : bool :=
  match p, q with
  | [], [] => true
  | a :: p', b :: q' => (a =? b)%string && pathIs p' q'
  | _, _ => false
  end.

Definition authAllowedPath (req : Request) : bool :=
  match method req with
  | OPTIONS => true
  | _ => pathIs (path req) ["api"; "login"]%string
         || pathIs (path req) ["api"; "health"]%string
  end.

(** Whether the request carries a bearer token that verifies. *)
Definition bearerValid (now : Z) (req : Request) : bool :=
  match authorization req with
  | None => false
  | Some auth =>
      if negb (auth =? "")%string && String.prefix "Bearer " auth
      then jwtVerify (String.substring 7 (String.length auth - 7) auth) (JWT_SECRET cfg) now
      else false
  end.

(** [authMiddleware]: [true] when it calls [next()], [false] when it answers
    401 itself. *)
Definition authMiddleware (now : Z) (req : Request) : bool :=
  if authAllowedPath req then true else bearerValid now req.

Variable StringToNumber : string -> JsNum.
Variable tableAccepts : BugRow -> bool.

(** The routes registered after [app.use('/api', authMiddleware)], matched
    on the path as it is spelled: the router's tolerance for another
    letter case and for a trailing slash is not modelled. *)
Definition bugRoutes (uuid : string) (now : Z) (req : Request) (db : Supabase)
  : Response * Supabase :=
  match method req, path req with
  | GET, [a] =>
      if (a =? "bugs")%string then getBugs db
      else (errorJson 404 "not found", db)
  | POST, [a] =>
      if (a =? "bugs")%string
      then postBugs StringToNumber tableAccepts uuid now (body req) db
      else (errorJson 404 "not found", db)
  | GET, [a; i] =>
      if (a =? "bugs")%string then getBugById i db
      else (errorJson 404 "not found", db)
  | PUT, [a; i] =>
      if (a =? "bugs")%string then putBug StringToNumber tableAccepts i (body req) db
      else (errorJson 404 "not found", db)
  | POST, [a; i; c] =>
      if (a =? "bugs")%string && (c =? "complete")%string
      then completeBug tableAccepts i now db
      else (errorJson 404 "not found", db)
  | DELETE, [a; i] =>
      if (a =? "bugs")%string then deleteBugById i db
      else (errorJson 404 "not found", db)
  | DELETE, [a] =>
      if (a =? "bugs")%string then deleteAllBugs db
      else (errorJson 404 "not found", db)
  | _, _ => (errorJson 404 "not found", db)
  end.

(** The application below [/api], in registration order: [cors()] (which
    answers a preflight itself), the health check, the login route, then the
    middleware in front of every other route. *)
Definition api (uuid : string) (now : Z) (req : Request) (db : Supabase)
  : Response * Supabase :=
  match method req with
  | OPTIONS => (Reply 204 [] NoBody, db)
  | m =>
      if match m with GET => pathIs (path req) ["health"%string] | _ => false end
      then (json 200 (StatusJson "ok"), db)
      else if match m with POST => pathIs (path req) ["login"%string] | _ => false end
      then (login now (body req), db)
      else if authMiddleware now req then bugRoutes uuid now req db
      else (errorJson 401 "unauthorized", db)
  end.

End Auth.

(** The expiry rule of the jsonwebtoken package for the lifetime ['8h'], which
    the properties of the token take as given: a token carries the second
    it was issued in ([Math.floor(Date.now() / 1000)]) and verifies, under
    the secret it was signed with, while the clock's second is less than
    that second plus 8 hours. *)
Definition jwtEightHours (jwtSign : JsValue -> string -> string -> Z -> string)
  (jwtVerify : string -> string -> Z -> bool) : Prop :=
  forall payload secret issued now,
    0 <= issued ->
    jwtVerify (jwtSign payload secret "8h"%string issued) secret now
    = (now / 1000 <? issued / 1000 + 8 * 3600).

End Server.

(** ** The store client singleton ([supabaseClient.ts]) *)

Module SupabaseClient.

(** The environment at the time of a call. *)
Record Env : Type := mkEnv {
  REACT_APP_SUPABASE_URL : option string;
  REACT_APP_SUPABASE_ANON_KEY : option string
}.

Section Singleton.

(** The client object type of the library and its [createClient], applied
    to the two environment values; [None] when it throws instead of
    returning a client, as the library does for a missing URL or key. *)
Variable ClientObject : Type.
Variable createClient : option string -> option string -> option ClientObject.

(** The module state: the [client] variable, and how many times
    [createClient] has been called. *)
Record Module_ : Type := mkModule {
  client : option ClientObject;
  created : nat
}.

Definition initial : Module_ := {| client := None; created := 0 |}.

(** [initSupabase()]: the client it returns, or [None] when [createClient]
    throws; the assignment to [client] is then not reached and the
    exception leaves [initSupabase]. *)
Definition initSupabase (env : Env) (m : Module_) : option ClientObject * Module_ :=
  match client m with
  | Some c => (Some c, m)
  | None =>
      match createClient (REACT_APP_SUPABASE_URL env) (REACT_APP_SUPABASE_ANON_KEY env) with
      | Some c => (Some c, {| client := Some c; created := S (created m) |})
      | None => (None, {| client := None; created := S (created m) |})
      end
  end.

Definition getSupabase (m : Module_) : option ClientObject := client m.

(** A call of one of the two exported functions, and what it gives: the
    value returned, or the exception. *)
Inductive Call : Type :=
| CallInit (env : Env)
| CallGet.

Inductive Outcome : Type :=
| Returned (value : option ClientObject)
| Thrown.

Definition call (c : Call) (m : Module_) : Outcome * Module_ :=
  match c with
  | CallInit env =>
      match initSupabase env m with
      | (Some o, m') => (Returned (Some o), m')
      | (None, m') => (Thrown, m')
      end
  | CallGet => (Returned (getSupabase m), m)
  end.

(** The outcomes of a sequence of calls, and the module state after it. *)
Fixpoint calls (cs : list Call) (m : Module_) : list Outcome * Module_ :=
  match cs with
  | [] => ([], m)
  | c :: rest =>
      let '(o, m') := call c m in
      let '(os, m'') := calls rest m' in
      (o :: os, m'')
  end.

(** The client of the first [initSupabase] among the calls for which
    [createClient] returns one, and the number of [initSupabase] calls up
    to and including that one. *)
Fixpoint firstCreated (cs : list Call) : option ClientObject :=
  match cs with
  | [] => None
  | CallInit env :: rest =>
      match createClient (REACT_APP_SUPABASE_URL env) (REACT_APP_SUPABASE_ANON_KEY env) with
      | Some c => Some c
      | None => firstCreated rest
      end
  | CallGet :: rest => firstCreated rest
  end.

Fixpoint attempts (cs : list Call) : nat :=
  match cs with
  | [] => 0
  | CallInit env :: rest =>
      match createClient (REACT_APP_SUPABASE_URL env) (REACT_APP_SUPABASE_ANON_KEY env) with
      | Some _ => 1
      | None => S (attempts rest)
      end
  | CallGet :: rest => attempts rest
  end.

End Singleton.

Arguments client {ClientObject} _.
Arguments created {ClientObject} _.
Arguments mkModule {ClientObject} _ _.
Arguments initial {ClientObject}.
Arguments getSupabase {ClientObject} _.
Arguments Returned {ClientObject} _.
Arguments Thrown {ClientObject}.

End SupabaseClient.

(** ** The client ([App]) *)

Module Client.
Import Js.

Record BugRecord : Type := mkBugRecord {
  id : string;
  ticket : option string;
  description : string;
  jiraLink : option string;
  impact : Z;
  likelihood : Z;
  label : option string;
  createdAt : Z;
  completedAt : option Z;
  reference : bool
}.

(** The row the client sends to the table (snake_case columns). *)
Record BugRow : Type := mkBugRow {
  row_id : string;
  row_ticket : option string;
  row_description : string;
  jira_link : option string;
  row_impact : Z;
  row_likelihood : Z;
  row_label : option string;
  completed_at : option Z;
  created_at : Z;
  row_reference : bool
}.

(** *** Local session *)

Definition SESSION_MS : Z := 5 * 60 * 1000.

(** The two keys kept in [localStorage]; [bugauth_ts] holds the decimal
    string of the login time and is read back with [Number], kept here as
    the integer itself. *)
Record LocalStorage : Type := mkLocalStorage {
  bugauth_user : option string;
  bugauth_ts : option Z
}.

Definition clearedStorage : LocalStorage :=
  {| bugauth_user := None; bugauth_ts := None |}.

(** [Number(localStorage.getItem('bugauth_ts')) || 0]. *)
Definition storedTs (s : LocalStorage) : Z :=
  match bugauth_ts s with
  | Some ts => ts
  | None => 0
  end.

Definition truthyStr (s : option string) : bool :=
  match s with
  | Some v => negb (v =? "")%string
  | None => false
  end.

(** The part of the component state the session touches: the logged-in user,
    [localStorage], the React state holding the store client ([supabase],
    [true] once it is set) and the login error. *)
Record AppState : Type := mkAppState {
  authUser : option string;
  storage : LocalStorage;
  supabase : bool;
  loginError : option string
}.

(** The initialiser of [authUser], run when the component mounts. *)
Definition initAuthUser (now : Z) (s : LocalStorage) : option string * LocalStorage :=
  let storedUser := bugauth_user s in
  let ts := storedTs s in
  if negb (truthyStr storedUser) || (ts =? 0) || (SESSION_MS <? now - ts)
  then (None, clearedStorage)
  else (storedUser, s).

(** The state after a page load: the module-level client is [null] again,
    so [useState(getSupabase())] starts at [null]. *)
Definition mount (now : Z) (s : LocalStorage) : AppState :=
  let '(user, s') := initAuthUser now s in
  {| authUser := user; storage := s'; supabase := false; loginError := None |}.

(** [s === e] for a string and an environment value. *)
Definition sameString (s : string) (e : option string) : bool :=
  match e with
  | Some v => (s =? v)%string
  | None => false
  end.

Section Login.

(** [process.env.REACT_APP_APP_USERNAME] and [..._PASSWORD]. *)
Variable EXPECT_USER EXPECT_PASS : option string.

(** The store client library and the environment [initSupabase] reads. *)
Variable ClientObject : Type.
Variable createClient : option string -> option string -> option ClientObject.
Variable env : SupabaseClient.Env.

(** [handleLogin], on the component state and the state of the
    [supabaseClient] module.  After a successful check the session is
    stored and [authUser] set; then [initSupabase()] runs, and when it
    throws, [setSupabase] is not reached: the store client of the component
    stays as it was. *)
Definition handleLogin (now : Z) (loginUser loginPass : string) (st : AppState)
  (m : SupabaseClient.Module_ ClientObject)
  : AppState * SupabaseClient.Module_ ClientObject :=
  if negb (truthyStr EXPECT_USER) || negb (truthyStr EXPECT_PASS)
  then ({| authUser := authUser st; storage := storage st; supabase := supabase st;
           loginError := Some "Auth niet geconfigureerd"%string |}, m)
  else if sameString loginUser EXPECT_USER && sameString loginPass EXPECT_PASS
  then
    let session := {| bugauth_user := Some loginUser; bugauth_ts := Some now |} in
    match SupabaseClient.initSupabase ClientObject createClient env m with
    | (Some _, m') =>
        ({| authUser := Some loginUser;
            storage := session;
            supabase := match SupabaseClient.getSupabase m' with
                        | Some _ => true
                        | None => false
                        end;
            loginError := None |}, m')
    | (None, m') =>
        ({| authUser := Some loginUser;
            storage := session;
            supabase := supabase st;
            loginError := None |}, m')
    end
  else ({| authUser := authUser st; storage := storage st; supabase := supabase st;
           loginError := Some "Ongeldige inlog"%string |}, m).

End Login.

(** [handleLogout]: the store client is left as it is. *)
Definition handleLogout (st : AppState) : AppState :=
  {| authUser := None; storage := clearedStorage; supabase := supabase st;
     loginError := loginError st |}.

(** The auto-logout effect, run when [authUser] changes: it logs out at once
    when no session time remains, and otherwise arms a timer that calls
    [handleLogout] after the remaining time (the second component). *)
Definition autoLogoutEffect (now : Z) (st : AppState) : AppState * option Z :=
  match authUser st with
  | None => (st, None)
  | Some _ =>
      let ts := storedTs (storage st) in
      let elapsed := now - ts in
      let remaining := SESSION_MS - elapsed in
      if remaining <=? 0 then (handleLogout st, None)
      else (st, Some remaining)
  end.

(** [if (!authUser) return <login form>]. *)
Inductive Screen : Type := LoginForm | MainScreen.

Definition render (st : AppState) : Screen :=
  match authUser st with
  | None => LoginForm
  | Some _ => MainScreen
  end.

(** *** Operations on the record store *)

Inductive StoreCall : Type :=
| InsertRow (row : BugRow)
| UpdateCompletedAt (i : string) (ts : Z)
| DeleteWhereNotReference
| SelectAll.

(** What an operation does before any answer of the store: nothing, an
    error message, or a call to the store. *)
Inductive Attempt : Type :=
| Skipped
| Failed (message : string)
| Sent (call : StoreCall).

Record BugForm : Type := mkBugForm {
  form_ticket : string;
  form_description : string;
  form_jiraLink : string;
  form_impact : Z;
  form_likelihood : Z;
  form_label : string;
  newReference : bool
}.

Definition addBug (genId : string) (now : Z) (f : BugForm) (st : AppState) : Attempt :=
  if (trim (form_description f) =? "")%string then Skipped
  else if negb (supabase st) then Failed "Niet ingelogd"
  else
    Sent (InsertRow
      {| row_id := genId;
         row_ticket := orNull (trim (form_ticket f));
         row_description := trim (form_description f);
         jira_link := orNull (trim (form_jiraLink f));
         row_impact := form_impact f;
         row_likelihood := form_likelihood f;
         row_label := orNull (trim (form_label f));
         completed_at := None;
         created_at := now;
         row_reference := newReference f |}).

(** [clearAll]; [confirmed] is the answer to the confirmation dialog. *)
Definition clearAll (confirmed : bool) (st : AppState) : Attempt :=
  if negb (supabase st) then Failed "Niet ingelogd"
  else if negb confirmed then Skipped
  else Sent DeleteWhereNotReference.

Definition reload (st : AppState) : Attempt :=
  if negb (supabase st) then Skipped else Sent SelectAll.

Definition markCompleted (i : string) (now : Z) (st : AppState) : Attempt :=
  if negb (supabase st) then Failed "Niet ingelogd"
  else Sent (UpdateCompletedAt i now).

(** *** Derived views *)

Inductive ViewTab : Type := TabOpen | TabCompleted.
Inductive SortField : Type := SortNone | SortScore.
Inductive SortDir : Type := Asc | Desc.

(** Truthiness of [b.completedAt] and of [b.label]. *)
Definition isCompleted (b : BugRecord) : bool :=
  match completedAt b with
  | Some ts => negb (ts =? 0)
  | None => false
  end.

Definition statusOk (viewTab : ViewTab) (b : BugRecord) : bool :=
  match viewTab with
  | TabOpen => negb (isCompleted b)
  | TabCompleted => isCompleted b
  end.

Definition labelOk (labelFilters : list string) (b : BugRecord) : bool :=
  (List.length labelFilters =? 0)%nat
  || match label b with
     | Some l => negb (l =? "")%string && existsb (String.eqb l) labelFilters
     | None => false
     end.

Definition displayedBugs (bugs : list BugRecord) (viewTab : ViewTab)
  (labelFilters : list string) : list BugRecord :=
  filter (fun b => statusOk viewTab b && labelOk labelFilters b) bugs.

Definition score (b : BugRecord) : Z := impact b * likelihood b.

(** The comparator handed to [sort]. *)
Definition compareScore (sortDir : SortDir) (a b : BugRecord) : Z :=
  let sa := score a in
  let sb := score b in
  match sortDir with
  | Asc => sa - sb
  | Desc => sb - sa
  end.

(** [Array.prototype.sort] is a stable sort; with a comparator that orders
    consistently its result is the same for every such algorithm.  It is
    modelled as insertion sort: an element goes in front of the first later
    element it does not compare greater than. *)
Fixpoint sortInsert {A : Type} (cmp : A -> A -> Z) (x : A) (l : list A) : list A :=
  match l with
  | [] => [x]
  | y :: rest =>
      if cmp x y <=? 0 then x :: l
      else y :: sortInsert cmp x rest
  end.

Fixpoint arraySort {A : Type} (cmp : A -> A -> Z) (l : list A) : list A :=
  match l with
  | [] => []
  | x :: rest => sortInsert cmp x (arraySort cmp rest)
  end.

(** The order a comparator asks for: [a] may stand before [b]. *)
Definition precedes {A : Type} (cmp : A -> A -> Z) (a b : A) : Prop := cmp a b <= 0.

Definition sortedBugs (displayed : list BugRecord) (sortField : SortField)
  (sortDir : SortDir) : list BugRecord :=
  match sortField with
  | SortScore => arraySort (compareScore sortDir) displayed
  | SortNone => displayed
  end.

End Client.

(** ** A concrete runtime, to run the handlers on examples *)

Module Demo.
Import Js.

(** A table without constraints. *)
Definition acceptAll (r : Server.BugRow) : bool := true.

(** A table that checks both ratings to be integers from 1 to 5. *)
Definition rangeChecked (r : Server.BugRow) : bool := Server.rowInRange r.

(** StringToNumber on unsigned decimal integer literals, surrounded by white
    space; the empty string is 0 and any other text is taken as [NaN]. *)
Fixpoint digitsValue (acc : Z) (s : string) : JsNum :=
  match s with
  | EmptyString => Num acc
  | String c r =>
      let n := Z.of_nat (nat_of_ascii c) in
      if (48 <=? n) && (n <=? 57) then digitsValue (10 * acc + (n - 48)) r
      else NaN
  end.

Definition decimalToNumber (s : string) : JsNum := digitsValue 0 (trim s).

(** A token scheme without expiry: the token is the secret itself. *)
Definition plainSign (payload : JsValue) (secret lifetime : string) (now : Z) : string :=
  secret.


(** A token scheme with expiry: the token is the second of issue, written as
    that many characters "1", then a dot, then the secret; it is valid for
    8 hours from that second. *)
Fixpoint ones (n : nat) : string :=
  match n with
  | O => EmptyString
  | S k => String "1" (ones k)
  end.

Fixpoint issuedAt (token : string) : nat * string :=
  match token with
  | EmptyString => (O, EmptyString)
  | String c rest =>
      if Ascii.eqb c "1"
      then let '(n, tail) := issuedAt rest in (S n, tail)
      else (O, token)
  end.

Definition timedSign (payload : JsValue) (secret lifetime : string) (now : Z) : string :=
  (ones (Z.to_nat (now / 1000)) ++ String "." secret)%string.

Definition timedVerify (token secret : string) (now : Z) : bool :=
  let '(n, tail) := issuedAt token in
  match tail with
  | String c signed =>
      Ascii.eqb c "." && (signed =? secret)%string
      && (now / 1000 <? Z.of_nat n + 8 * 3600)
  | EmptyString => false
  end.

(** A store client library that throws unless both values are non-empty;
    the client object is the pair of them. *)
Definition createClient (url key : option string) : option (string * string) :=
  match url, key with
  | Some u, Some k =>
      if (u =? "")%string || (k =? "")%string then None else Some (u, k)
  | _, _ => None
  end.

Definition bug (i : string) (created : Z) (ref : bool) : Server.BugRow :=
  {| Server.id := i;
     Server.ticket := None;
     Server.description := "bug"%string;
     Server.jiraLink := JNull;
     Server.impact := Num 3;
     Server.likelihood := Num 3;
     Server.label := None;
     Server.completedAt := None;
     Server.createdAt := created;
     Server.reference := ref |}.

Definition withDescription (d : JsValue) : Server.Body.t :=
  Server.Body.mk JUndefined d JUndefined JUndefined JUndefined
                 JUndefined JUndefined JUndefined JUndefined JUndefined.

End Demo.

(** ** More of the client: the matrix, the filters, the countdown, the
    forms and the local list of bugs *)

Module ClientViews.
Import Js Client.

(** [r.x || undefined] on a nullable text column. *)
Definition orUndefined (s : option string) : option string :=
  match s with
  | Some v => orNull v
  | None => None
  end.

Definition mapRowToBug (r : BugRow) : BugRecord :=
  {| id := row_id r;
     ticket := orUndefined (row_ticket r);
     description := row_description r;
     jiraLink := orUndefined (jira_link r);
     impact := row_impact r;
     likelihood := row_likelihood r;
     label := orUndefined (row_label r);
     createdAt := created_at r;
     completedAt := completed_at r;
     reference := row_reference r |}.

(** *** Label filters *)

Definition toggleLabelFilter (l : string) (prev : list string) : list string :=
  if existsb (String.eqb l) prev
  then filter (fun x => negb (x =? l)%string) prev
  else prev ++ [l].

Definition resetLabelFilters : list string := [].

(** *** The matrix *)

(** An integer in a template literal: its decimal digits, with a minus sign
    when negative (the form [toString] gives below 10^21). *)
Definition numberToString (z : Z) : string := NilZero.string_of_int (Z.to_int z).

(** [`${impact}-${likelihood}`]. *)
Definition cellKeyOf (impact likelihood : Z) : string :=
  (numberToString impact ++ "-" ++ numberToString likelihood)%string.

Definition cellKey (b : BugRecord) : string := cellKeyOf (impact b) (likelihood b).

(** [Record<string, BugRecord[]>], as the list of its entries. *)
Definition CellMap : Type := list (string * list BugRecord).

(** [if (!map[key]) map[key] = []; map[key].push(b)]. *)
Fixpoint pushAt (key : string) (b : BugRecord) (map : CellMap) : CellMap :=
  match map with
  | [] => [(key, [b])]
  | (k, v) :: rest =>
      if (k =? key)%string then (k, v ++ [b]) :: rest
      else (k, v) :: pushAt key b rest
  end.

Definition groupedBugs (displayed : list BugRecord) : CellMap :=
  fold_left (fun map b => pushAt (cellKey b) b map) displayed [].

(** [groupedBugs[key] || []]. *)
Fixpoint bugsInCell (map : CellMap) (key : string) : list BugRecord :=
  match map with
  | [] => []
  | (k, v) :: rest => if (k =? key)%string then v else bugsInCell rest key
  end.

(** The cell in column [xi] and row [yi] of the matrix (both from 0):
    its score and the bugs it shows. *)
Definition matrixCell (displayed : list BugRecord) (xi yi : Z) : Z * list BugRecord :=
  let score := (xi + 1) * (yi + 1) in
  let key := cellKeyOf (xi + 1) (yi + 1) in
  (score, bugsInCell (groupedBugs displayed) key).

(** The badges of the two tabs. *)
Definition openCount (bugs : list BugRecord) : nat :=
  List.length (filter (fun b => negb (isCompleted b)) bugs).

Definition completedCount (bugs : list BugRecord) : nat :=
  List.length (filter isCompleted bugs).

(** *** The session countdown *)

(** The [remaining] state after [update()] ran at time [now]. *)
Definition countdownRemaining (now : Z) (s : LocalStorage) : Z :=
  let ts := storedTs s in
  if ts =? 0 then 0
  else
    let rem := SESSION_MS - (now - ts) in
    if 0 <? rem then rem else 0.

(** What [SessionCountdown] renders: nothing, or minutes and seconds. *)
Definition SessionCountdown (now : Z) (s : LocalStorage) : option (Z * Z) :=
  let remaining := countdownRemaining now s in
  if remaining <=? 0 then None
  else
    let seconds := (remaining / 1000) mod 60 in
    let minutes := remaining / 60000 in
    Some (minutes, seconds).

(** [s.padStart(2, '0')]. *)
Definition padStart2 (s : string) : string :=
  match s with
  | EmptyString => "00"%string
  | String c EmptyString => String "0" s
  | _ => s
  end.

Definition countdownText (minutes seconds : Z) : string :=
  ("Verloopt in " ++ numberToString minutes ++ ":"
   ++ padStart2 (numberToString seconds))%string.

(** *** The edit form and deleting *)

(** The [changes] object of the edit form. *)
Record BugChanges : Type := mkBugChanges {
  new_ticket : option string;
  new_description : string;
  new_jira_link : option string;
  new_impact : Z;
  new_likelihood : Z;
  new_label : option string;
  new_reference : bool
}.

Inductive EditCall : Type :=
| UpdateRow (i : string) (changes : BugChanges)
| DeleteById (i : string).

Inductive EditAttempt : Type :=
| EditSkipped
| EditFailed (message : string)
| EditSent (call : EditCall).

Record EditForm : Type := mkEditForm {
  editTicket : string;
  editDescription : string;
  editJiraLink : string;
  editImpact : Z;
  editLikelihood : Z;
  editLabel : string;
  editReference : bool
}.

Definition updateBug (selectedId : option string) (f : EditForm) (st : AppState)
  : EditAttempt :=
  if negb (truthyStr selectedId) then EditSkipped
  else if (trim (editDescription f) =? "")%string then EditFailed "Omschrijving verplicht"
  else if negb (supabase st) then EditFailed "Niet ingelogd"
  else
    match selectedId with
    | None => EditSkipped
    | Some i =>
        EditSent (UpdateRow i
          {| new_ticket := orNull (trim (editTicket f));
             new_description := trim (editDescription f);
             new_jira_link := orNull (trim (editJiraLink f));
             new_impact := editImpact f;
             new_likelihood := editLikelihood f;
             new_label := orNull (trim (editLabel f));
             new_reference := editReference f |})
    end.

(** [s || ''] on an optional text. *)
Definition orEmpty (s : option string) : string :=
  match s with
  | Some v => v
  | None => ""%string
  end.

(** The effect that loads the selected bug into the edit form: without a
    selection the form is reset, and with a selection that is not in the
    list it is left as it is. *)
Definition loadEditForm (selectedId : option string) (bugs : list BugRecord)
  (f : EditForm) : EditForm :=
  match selectedId with
  | None =>
      {| editTicket := ""; editDescription := ""; editJiraLink := "";
         editImpact := 3; editLikelihood := 3; editLabel := "";
         editReference := false |}
  | Some i =>
      if (i =? "")%string
      then {| editTicket := ""; editDescription := ""; editJiraLink := "";
              editImpact := 3; editLikelihood := 3; editLabel := "";
              editReference := false |}
      else
        match find (fun b => (id b =? i)%string) bugs with
        | None => f
        | Some bug =>
            {| editTicket := orEmpty (ticket bug);
               editDescription := description bug;
               editJiraLink := orEmpty (jiraLink bug);
               editImpact := impact bug;
               editLikelihood := likelihood bug;
               editLabel := orEmpty (label bug);
               editReference := reference bug |}
        end
  end.

(** [deleteBug]; [confirmed] is the answer to the confirmation dialog. *)
Definition deleteBug (i : string) (confirmed : bool) (bugs : list BugRecord)
  (st : AppState) : EditAttempt :=
  if negb (supabase st) then EditFailed "Niet ingelogd"
  else
    match find (fun b => (id b =? i)%string) bugs with
    | None => EditSkipped
    | Some bug =>
        if reference bug then EditFailed "Referentie bug kan niet worden verwijderd."
        else if negb confirmed then EditSkipped
        else EditSent (DeleteById i)
    end.

(** *** The table as the client's calls change it, and the local list *)

Definition hasRowId (i : string) (r : BugRow) : bool := (row_id r =? i)%string.

Definition applyBugChanges (c : BugChanges) (r : BugRow) : BugRow :=
  {| row_id := row_id r;
     row_ticket := new_ticket c;
     row_description := new_description c;
     jira_link := new_jira_link c;
     row_impact := new_impact c;
     row_likelihood := new_likelihood c;
     row_label := new_label c;
     completed_at := completed_at r;
     created_at := created_at r;
     row_reference := new_reference c |}.

Definition withCompletedAt (ts : Z) (r : BugRow) : BugRow :=
  {| row_id := row_id r;
     row_ticket := row_ticket r;
     row_description := row_description r;
     jira_link := jira_link r;
     row_impact := row_impact r;
     row_likelihood := row_likelihood r;
     row_label := row_label r;
     completed_at := Some ts;
     created_at := created_at r;
     row_reference := row_reference r |}.

(** A call the client sends, of the four that change the table. *)
Inductive Mutation : Type :=
| MInsert (row : BugRow)
| MComplete (i : string) (ts : Z)
| MUpdate (i : string) (changes : BugChanges)
| MDelete (i : string)
| MClear.

Section Table.

(** The constraints of the table: whether it takes a row. *)
Variable tableAccepts : BugRow -> bool.

(** [update(...).eq('id', i).select().single()] on the rows: the new rows
    and the returned row, when exactly one row has the id and the table
    takes its new value. *)
Definition updateSingle (i : string) (f : BugRow -> BugRow) (rows : list BugRow)
  : option (list BugRow * BugRow) :=
  match filter (hasRowId i) rows with
  | [r] =>
      if tableAccepts (f r)
      then Some (map (fun x => if hasRowId i x then f x else x) rows, f r)
      else None
  | _ => None
  end.

(** The table after a call, with the row it returned (if it returns one);
    [None] is the [error] answer, which leaves the table as it was.  An
    insert is refused when the table does not take the row or its [id]
    (the primary key) is in use. *)
Definition tableAfter (m : Mutation) (rows : list BugRow)
  : option (list BugRow * option BugRow) :=
  match m with
  | MInsert row =>
      if tableAccepts row && negb (existsb (hasRowId (row_id row)) rows)
      then Some (rows ++ [row], Some row)
      else None
  | MComplete i ts =>
      option_map (fun '(rows', r) => (rows', Some r)) (updateSingle i (withCompletedAt ts) rows)
  | MUpdate i c =>
      option_map (fun '(rows', r) => (rows', Some r)) (updateSingle i (applyBugChanges c) rows)
  | MDelete i => Some (filter (fun r => negb (hasRowId i r)) rows, None)
  | MClear => Some (filter (fun r => row_reference r) rows, None)
  end.

End Table.

(** The [setBugs] update that follows the successful call. *)
Definition bugsAfter (m : Mutation) (data : option BugRow) (prev : list BugRecord)
  : list BugRecord :=
  match m, data with
  | MInsert _, Some d => prev ++ [mapRowToBug d]
  | (MComplete i _ | MUpdate i _), Some d =>
      map (fun b => if (id b =? i)%string then mapRowToBug d else b) prev
  | MDelete i, _ => filter (fun b => negb (id b =? i)%string) prev
  | MClear, _ => filter reference prev
  | _, None => prev
  end.

(** One call and the [setBugs] that follows it, on the table and the local
    list: after an [error] answer the list is left as it was. *)
Definition afterCall (tableAccepts : BugRow -> bool) (m : Mutation)
  (s : list BugRow * list BugRecord) : list BugRow * list BugRecord :=
  match tableAfter tableAccepts m (fst s) with
  | Some (rows', data) => (rows', bugsAfter m data (snd s))
  | None => s
  end.

Definition afterCalls (tableAccepts : BugRow -> bool) (ms : list Mutation)
  (s : list BugRow * list BugRecord) : list BugRow * list BugRecord :=
  fold_left (fun s m => afterCall tableAccepts m s) ms s.

(** A text without a minus sign. *)
Fixpoint dashFree (s : string) : bool :=
  match s with
  | EmptyString => true
  | String c r => negb (Ascii.eqb c "-") && dashFree r
  end.

(** A text, or an optional text, that [trim] leaves as it is. *)
Definition trimmed (s : string) : bool := (trim s =? s)%string.

Definition trimmedOpt (s : option string) : bool :=
  match s with
  | Some v => trimmed v
  | None => true
  end.

(** The rows as [reload] puts them in the local list. *)
Definition loaded (rows : list BugRow) : list BugRecord := map mapRowToBug rows.

End ClientViews.

(** ** Normal forms of stored rows, and kinds of requests *)

Module Invariants.
Import Js Server.

(** The optional text columns as the handlers write them: a label is absent
    or one of [ALLOWED_LABELS], a ticket is absent or a non-empty string, a
    link is [null] or a truthy value. *)
Definition labelStored (l : option string) : bool :=
  match l with
  | None => true
  | Some s => existsb (String.eqb s) ALLOWED_LABELS
  end.

Definition ticketStored (t : option string) : bool :=
  match t with
  | None => true
  | Some s => negb (s =? "")%string
  end.

Definition linkStored (v : JsValue) : bool :=
  match v with
  | JNull => true
  | _ => truthy v
  end.

Definition rowNormalised (r : BugRow) : bool :=
  labelStored (label r) && ticketStored (ticket r) && linkStored (jiraLink r).

(** An update of the record with id [i]. *)
Definition updatesId (i : string) (op : Op) : bool :=
  match op with
  | OpUpdate j _ => (j =? i)%string
  | _ => false
  end.

(** The ids of the stored rows. *)
Definition ids (db : Supabase) : list string := map id (rows db).

(** The check of [completedAt] in [PUT /api/bugs/:id]: absent, [null] or a
    number. *)
Definition completedAtPasses (v : JsValue) : bool :=
  match v with
  | JUndefined | JNull | JNumber _ => true
  | _ => false
  end.

(** [existing.ticket || ''] put back through [|| null]. *)
Definition ticketKept (t : option string) : option string :=
  match t with
  | Some s => orNull s
  | None => None
  end.

(** The identity of a row: its id and its creation time. *)
Definition stamp (r : BugRow) : string * Z := (id r, createdAt r).

(** The ids generated for the creates of a sequence of requests. *)
Fixpoint createdIds (ops : list Op) : list string :=
  match ops with
  | [] => []
  | OpCreate uuid _ _ :: rest => uuid :: createdIds rest
  | _ :: rest => createdIds rest
  end.


(** The record a single-record request addresses. *)
Definition target (op : Op) : option string :=
  match op with
  | OpUpdate i _ | OpComplete i _ | OpDelete i => Some i
  | OpCreate _ _ _ | OpDeleteAll => None
  end.

(** The request with another [Authorization] header. *)
Definition withHeader (req : Request) (h : option string) : Request :=
  mkRequest (method req) (path req) h (body req).

(** A login body: the two fields the login route reads. *)
Definition credentials (username password : JsValue) : Body.t :=
  Body.mk JUndefined JUndefined JUndefined JUndefined JUndefined
          JUndefined JUndefined JUndefined username password.

End Invariants.

(** * Properties *)

(** ** Risk scoring *)

Module RiskFacts.
Import Risk.

Lemma riskCategory_low (s : Z) : riskCategory s = "Laag"%string <-> s <= 4.
Proof.
  unfold riskCategory.
  destruct (Z.leb_spec s 4); [ intuition | ].
  destruct (Z.leb_spec s 8); [ split; [ discriminate | lia ] | ].
  destruct (Z.leb_spec s 12); split; try discriminate; lia.
Qed.

Lemma riskCategory_medium (s : Z) : riskCategory s = "Gemiddeld"%string <-> 5 <= s <= 8.
Proof.
  unfold riskCategory.
  destruct (Z.leb_spec s 4); [ split; [ discriminate | lia ] | ].
  destruct (Z.leb_spec s 8); [ split; [ lia | reflexivity ] | ].
  destruct (Z.leb_spec s 12); split; try discriminate; lia.
Qed.

Lemma riskCategory_high (s : Z) : riskCategory s = "Hoog"%string <-> 9 <= s <= 12.
Proof.
  unfold riskCategory.
  destruct (Z.leb_spec s 4); [ split; [ discriminate | lia ] | ].
  destruct (Z.leb_spec s 8); [ split; [ discriminate | lia ] | ].
  destruct (Z.leb_spec s 12); split; try discriminate; try lia; reflexivity.
Qed.

Lemma riskCategory_critical (s : Z) : riskCategory s = "Kritiek"%string <-> 13 <= s.
Proof.
  unfold riskCategory.
  destruct (Z.leb_spec s 4); [ split; [ discriminate | lia ] | ].
  destruct (Z.leb_spec s 8); [ split; [ discriminate | lia ] | ].
  destruct (Z.leb_spec s 12); split; try discriminate; try lia; reflexivity.
Qed.

(** The level of a score is one of the four levels of the legend. *)
Lemma riskCategory_level (s : Z) : In (riskCategory s) RISK_LEVELS.
Proof.
  unfold riskCategory, RISK_LEVELS.
  destruct (s <=? 4); [ simpl; tauto | ].
  destruct (s <=? 8); [ simpl; tauto | ].
  destruct (s <=? 12); simpl; tauto.
Qed.

(** A larger score never gets a lower level, for all integers. *)
Lemma riskCategory_monotone (s1 s2 : Z) :
  s1 <= s2 -> severity (riskCategory s1) <= severity (riskCategory s2).
Proof.
  intros Hle. unfold riskCategory.
  destruct (Z.leb_spec s1 4), (Z.leb_spec s1 8), (Z.leb_spec s1 12),
           (Z.leb_spec s2 4), (Z.leb_spec s2 8), (Z.leb_spec s2 12);
    try lia; vm_compute; congruence.
Qed.

Lemma riskScore_range (impact likelihood : Z) :
  1 <= impact <= 5 -> 1 <= likelihood <= 5 ->
  1 <= riskScore impact likelihood <= 25.
Proof. unfold riskScore. nia. Qed.

(** C1.  For impact and likelihood between 1 and 5 the risk score is their
    product and lies between 1 and 25; its category is Laag (low) exactly for
    scores up to 4, Gemiddeld (medium) exactly for 5 to 8, Hoog (high)
    exactly for 9 to 12 and Kritiek (critical) exactly for 13 and more, so it
    is exactly one of the four levels; and a score that is at least as large
    never gets a lower category. *)
Theorem risk_score_category (impact likelihood : Z) :
  1 <= impact <= 5 -> 1 <= likelihood <= 5 ->
  let score := riskScore impact likelihood in
  score = impact * likelihood
  /\ 1 <= score <= 25
  /\ In (riskCategory score) RISK_LEVELS
  /\ (riskCategory score = "Laag"%string <-> score <= 4)
  /\ (riskCategory score = "Gemiddeld"%string <-> 5 <= score <= 8)
  /\ (riskCategory score = "Hoog"%string <-> 9 <= score <= 12)
  /\ (riskCategory score = "Kritiek"%string <-> 13 <= score)
  /\ (forall impact' likelihood' : Z,
        1 <= impact' <= 5 -> 1 <= likelihood' <= 5 ->
        score <= riskScore impact' likelihood' ->
        severity (riskCategory score)
        <= severity (riskCategory (riskScore impact' likelihood'))).
Proof.
  intros Hi Hl score. subst score.
  split; [ reflexivity | ].
  split; [ now apply riskScore_range | ].
  split; [ apply riskCategory_level | ].
  split; [ apply riskCategory_low | ].
  split; [ apply riskCategory_medium | ].
  split; [ apply riskCategory_high | ].
  split; [ apply riskCategory_critical | ].
  intros i' l' _ _ Hle. now apply riskCategory_monotone.
Qed.

Lemma risk_score_category_witness :
  1 <= 3 <= 5 /\ 1 <= 4 <= 5 /\ riskCategory (riskScore 3 4) = "Hoog"%string.
Proof.
  assert (Hi : 1 <= 3 <= 5) by lia.
  assert (Hl : 1 <= 4 <= 5) by lia.
  split; [ exact Hi | split; [ exact Hl | ] ].
  destruct (risk_score_category 3 4 Hi Hl) as (_ & _ & _ & _ & _ & Hhigh & _).
  apply Hhigh. unfold riskScore. lia.
Defined.

End RiskFacts.

(** ** The record store *)

Module StoreFacts.
Import Js Server.

Lemma hasId_true (i : string) (r : BugRow) : hasId i r = true <-> id r = i.
Proof. unfold hasId. apply String.eqb_eq. Qed.

Lemma hasId_false (i : string) (r : BugRow) : hasId i r = false <-> id r <> i.
Proof. unfold hasId. apply String.eqb_neq. Qed.

Lemma filter_hasId_absent (i : string) (t : Table) :
  ~ In i (map id t) -> filter (hasId i) t = [].
Proof.
  induction t as [ | r t IH ]; simpl; intros Hnot; [ reflexivity | ].
  destruct (hasId i r) eqn:E.
  - apply hasId_true in E. exfalso. apply Hnot. now left.
  - apply IH. intros Hin. apply Hnot. now right.
Qed.

(** With [id] as the key of the table, the rows with the id of a stored row
    are that row alone. *)
Lemma filter_hasId_unique (t : Table) (b : BugRow) :
  In b t -> NoDup (map id t) -> filter (hasId (id b)) t = [b].
Proof.
  induction t as [ | r t IH ]; simpl; intros Hin Hnd; [ contradiction | ].
  inversion Hnd as [ | ? ? Hnotin Hnd' ]; subst.
  destruct Hin as [ -> | Hin ].
  - replace (hasId (id b) b) with true by (symmetry; now apply hasId_true).
    f_equal. now apply filter_hasId_absent.
  - destruct (hasId (id b) r) eqn:E.
    + apply hasId_true in E. exfalso. apply Hnotin. rewrite E. now apply in_map.
    + now apply IH.
Qed.

Lemma getBug_stored (t : Table) (b : BugRow) :
  In b t -> NoDup (map id t) -> getBug (id b) (Some t) = Some b.
Proof.
  intros Hin Hnd. unfold getBug. now rewrite filter_hasId_unique.
Qed.

Lemma getBug_found (i : string) (db : Supabase) (r : BugRow) :
  getBug i db = Some r ->
  exists t, db = Some t /\ filter (hasId i) t = [r] /\ In r t /\ id r = i.
Proof.
  unfold getBug. destruct db as [ t | ]; [ | discriminate ].
  destruct (filter (hasId i) t) as [ | x [ | y l ] ] eqn:E; try discriminate.
  intros [= ->]. exists t. split; [ reflexivity | split; [ exact E | ] ].
  assert (Hin : In r (filter (hasId i) t)) by (rewrite E; now left).
  apply filter_In in Hin. destruct Hin as [Hin Hid].
  split; [ exact Hin | now apply hasId_true ].
Qed.

Lemma getBug_unconfigured (i : string) : getBug i None = None.
Proof. reflexivity. Qed.

Lemma hasId_applyChanges (i : string) (c : Changes) (r : BugRow) :
  hasId i (applyChanges c r) = hasId i r.
Proof. reflexivity. Qed.

Lemma filter_hasId_updated (i : string) (c : Changes) (t : Table) :
  filter (hasId i) (map (fun x => if hasId i x then applyChanges c x else x) t)
  = map (applyChanges c) (filter (hasId i) t).
Proof.
  induction t as [ | r t IH ]; simpl; [ reflexivity | ].
  destruct (hasId i r) eqn:E.
  - rewrite hasId_applyChanges, E. simpl. now rewrite IH.
  - rewrite E. exact IH.
Qed.

(** A successful update returns the changed row, and the row is then the one
    found under its id. *)
Lemma updateBug_result (accepts : BugRow -> bool) (i : string) (c : Changes)
  (db : Supabase) (r : BugRow) :
  getBug i db = Some r ->
  accepts (applyChanges c r) = true ->
  let db' := Some (map (fun x => if hasId i x then applyChanges c x else x) (rows db)) in
  updateBug accepts i c db = Some (applyChanges c r, db')
  /\ getBug i db' = Some (applyChanges c r).
Proof.
  intros Hget Hacc.
  destruct (getBug_found _ _ _ Hget) as (t & -> & Hfilter & _ & _).
  unfold updateBug. rewrite Hfilter, Hacc. simpl.
  split; [ reflexivity | ].
  now rewrite filter_hasId_updated, Hfilter.
Qed.

Lemma updateBug_refused (accepts : BugRow -> bool) (i : string) (c : Changes)
  (db : Supabase) (r : BugRow) :
  getBug i db = Some r ->
  accepts (applyChanges c r) = false ->
  updateBug accepts i c db = None.
Proof.
  intros Hget Hacc.
  destruct (getBug_found _ _ _ Hget) as (t & -> & Hfilter & _ & _).
  unfold updateBug. now rewrite Hfilter, Hacc.
Qed.

(** Ordering by creation time keeps the rows. *)
Lemma insertByCreatedAt_perm (r : BugRow) (l : list BugRow) :
  Permutation (r :: l) (insertByCreatedAt r l).
Proof.
  induction l as [ | x l IH ]; simpl; [ reflexivity | ].
  destruct (createdAt r <=? createdAt x); [ reflexivity | ].
  rewrite perm_swap. now apply perm_skip.
Qed.

Lemma orderByCreatedAt_perm (l : list BugRow) : Permutation l (orderByCreatedAt l).
Proof.
  induction l as [ | r l IH ]; simpl; [ constructor | ].
  rewrite <- insertByCreatedAt_perm. now apply perm_skip.
Qed.

Lemma filter_perm_length {A : Type} (f : A -> bool) (l l' : list A) :
  Permutation l l' -> List.length (filter f l) = List.length (filter f l').
Proof.
  induction 1 as [ | x l l' _ IH | x y l | l l' l'' _ IH1 _ IH2 ]; simpl.
  - reflexivity.
  - destruct (f x); simpl; now rewrite IH.
  - destruct (f x), (f y); reflexivity.
  - now rewrite IH1.
Qed.

Lemma listBugs_length (db : Supabase) :
  List.length (listBugs db) = List.length (rows db).
Proof.
  destruct db as [ t | ]; simpl; [ | reflexivity ].
  symmetry. apply Permutation_length, orderByCreatedAt_perm.
Qed.

Lemma listBugs_reference_count (db : Supabase) :
  List.length (filter reference (listBugs db))
  = List.length (filter reference (rows db)).
Proof.
  destruct db as [ t | ]; simpl; [ | reflexivity ].
  symmetry. apply filter_perm_length, orderByCreatedAt_perm.
Qed.

Lemma deleteAllNonReference_rows (t : Table) :
  deleteAllNonReference (Some t) = Some (Some (filter reference t)).
Proof.
  unfold deleteAllNonReference. do 2 f_equal.
  apply filter_ext. intros r. now destruct (reference r).
Qed.

End StoreFacts.

(** ** Completion, deletion and bulk deletion *)

Module LifecycleFacts.
Import Js Server StoreFacts.

Lemma completeBug_reference (accepts : BugRow -> bool) (i : string) (now : Z)
  (db : Supabase) (bug : BugRow) :
  getBug i db = Some bug -> reference bug = true ->
  completeBug accepts i now db
  = (errorJson 403 "reference bug cannot be completed", db).
Proof. intros Hget Href. unfold completeBug. now rewrite Hget, Href. Qed.

Lemma deleteBugById_reference (i : string) (db : Supabase) (bug : BugRow) :
  getBug i db = Some bug -> reference bug = true ->
  deleteBugById i db = (errorJson 403 "reference bug cannot be deleted", db).
Proof. intros Hget Href. unfold deleteBugById. now rewrite Hget, Href. Qed.

(** C3.  For every stored record with [reference = true] (in a table keyed
    by [id]), whatever its other fields, the time and the table's
    constraints: completing it and deleting it both answer 403 Forbidden and
    leave the store, this record included, exactly as it was. *)
Theorem reference_bug_protected (accepts : BugRow -> bool) (t : Table)
  (bug : BugRow) (now : Z) :
  In bug t -> NoDup (map id t) -> reference bug = true ->
  completeBug accepts (id bug) now (Some t)
  = (errorJson 403 "reference bug cannot be completed", Some t)
  /\ deleteBugById (id bug) (Some t)
     = (errorJson 403 "reference bug cannot be deleted", Some t).
Proof.
  intros Hin Hnd Href.
  pose proof (getBug_stored t bug Hin Hnd) as Hget.
  split.
  - now apply completeBug_reference with (bug := bug).
  - now apply deleteBugById_reference with (bug := bug).
Qed.

Lemma reference_bug_protected_witness :
  let t := [Demo.bug "a" 1 false; Demo.bug "r" 2 true; Demo.bug "c" 3 false]%string in
  completeBug Demo.acceptAll "r" 99 (Some t)
  = (errorJson 403 "reference bug cannot be completed", Some t)
  /\ deleteBugById "r" (Some t)
     = (errorJson 403 "reference bug cannot be deleted", Some t).
Proof.
  intros t.
  apply (reference_bug_protected Demo.acceptAll t (Demo.bug "r" 2 true) 99).
  - simpl. tauto.
  - repeat constructor; simpl; intuition discriminate.
  - reflexivity.
Defined.

Lemma completedAtTime_fields (now : Z) (bug : BugRow) :
  completedAt (completedAtTime now bug) = Some now
  /\ id (completedAtTime now bug) = id bug
  /\ reference (completedAtTime now bug) = reference bug
  /\ description (completedAtTime now bug) = description bug
  /\ impact (completedAtTime now bug) = impact bug
  /\ likelihood (completedAtTime now bug) = likelihood bug
  /\ createdAt (completedAtTime now bug) = createdAt bug.
Proof. repeat split. Qed.

Lemma completeBug_missing (accepts : BugRow -> bool) (i : string) (now : Z)
  (db : Supabase) :
  getBug i db = None ->
  completeBug accepts i now db = (errorJson 404 "bug not found", db).
Proof. intros Hget. unfold completeBug. now rewrite Hget. Qed.

Lemma completeBug_conflict (accepts : BugRow -> bool) (i : string) (now : Z)
  (db : Supabase) (bug : BugRow) (ts : Z) :
  getBug i db = Some bug -> reference bug = false ->
  completedAt bug = Some ts -> ts <> 0 ->
  completeBug accepts i now db = (errorJson 409 "already completed", db).
Proof.
  intros Hget Href Hts Hnz. unfold completeBug, isCompleted.
  rewrite Hget, Href, Hts.
  now replace (ts =? 0) with false by (symmetry; now apply Z.eqb_neq).
Qed.

Lemma completeBug_success (accepts : BugRow -> bool) (i : string) (now : Z)
  (db : Supabase) (bug : BugRow) :
  getBug i db = Some bug -> reference bug = false ->
  completedAt bug = None \/ completedAt bug = Some 0 ->
  accepts (completedAtTime now bug) = true ->
  exists db',
    completeBug accepts i now db = (json 200 (BugJson (completedAtTime now bug)), db')
    /\ getBug i db' = Some (completedAtTime now bug).
Proof.
  intros Hget Href Hopen Hacc.
  destruct (updateBug_result accepts i (onlyCompletedAt now) db bug Hget Hacc)
    as (Hupd & Hget').
  eexists. split; [ | exact Hget' ].
  unfold completeBug, isCompleted. rewrite Hget, Href.
  destruct Hopen as [ -> | -> ]; simpl; now rewrite Hupd.
Qed.

(** C4 (amended).  [complete(id)] answers 404 NotFound when no record is
    found under the id, 403 Forbidden when the record is a reference record,
    and 409 Conflict when its [completedAt] is set to a timestamp other than
    0; otherwise (absent, or the falsy timestamp 0), when the table accepts
    the write, it answers with the record whose [completedAt] is the current
    time and stores it.  Completing an open record twice, the first time at
    a time other than 0: the first call succeeds and sets [completedAt], the
    second answers 409 and changes nothing. *)
Theorem complete_contract (accepts : BugRow -> bool) (i : string) (now : Z)
  (db : Supabase) :
  (getBug i db = None ->
   completeBug accepts i now db = (errorJson 404 "bug not found", db))
  /\ (forall bug, getBug i db = Some bug -> reference bug = true ->
      completeBug accepts i now db
      = (errorJson 403 "reference bug cannot be completed", db))
  /\ (forall bug ts, getBug i db = Some bug -> reference bug = false ->
      completedAt bug = Some ts -> ts <> 0 ->
      completeBug accepts i now db = (errorJson 409 "already completed", db))
  /\ (forall bug, getBug i db = Some bug -> reference bug = false ->
      completedAt bug = None \/ completedAt bug = Some 0 ->
      accepts (completedAtTime now bug) = true ->
      exists db',
        completeBug accepts i now db
        = (json 200 (BugJson (completedAtTime now bug)), db')
        /\ getBug i db' = Some (completedAtTime now bug)
        /\ completedAt (completedAtTime now bug) = Some now
        /\ (now <> 0 ->
            forall later,
              completeBug accepts i later db'
              = (errorJson 409 "already completed", db'))).
Proof.
  split; [ apply completeBug_missing | ].
  split; [ intros bug; apply completeBug_reference | ].
  split; [ intros bug ts; apply completeBug_conflict | ].
  intros bug Hget Href Hopen Hacc.
  destruct (completeBug_success accepts i now db bug Hget Href Hopen Hacc)
    as (db' & Hres & Hget').
  exists db'. split; [ exact Hres | ]. split; [ exact Hget' | ].
  split; [ reflexivity | ].
  intros Hnz later.
  now apply completeBug_conflict with (bug := completedAtTime now bug) (ts := now).
Qed.

(** The spec's own example, on a one-row table: completing twice. *)
Example complete_twice :
  let db := Some [Demo.bug "a" 1 false] in
  let first := completeBug Demo.acceptAll "a" 1000 db in
  fst first = json 200 (BugJson (completedAtTime 1000 (Demo.bug "a" 1 false)))
  /\ completeBug Demo.acceptAll "a" 2000 (snd first)
     = (errorJson 409 "already completed", snd first).
Proof. vm_compute. split; reflexivity. Qed.

(** C4, as stated, fails for a record whose [completedAt] is set to the
    timestamp 0: an update stores it ([typeof 0 === 'number']), and the
    completion that follows is not a Conflict but succeeds and overwrites
    [completedAt]. *)
Lemma complete_after_zero_timestamp :
  let db := Some [Demo.bug "a" 1 false] in
  let body := Body.mk JUndefined JUndefined JUndefined JUndefined JUndefined
                      JUndefined JUndefined (JNumber 0) JUndefined JUndefined in
  let updated := putBug Demo.decimalToNumber Demo.acceptAll "a" body db in
  let stored := applyChanges
                  {| setTicket := None; setDescription := None; setJiraLink := None;
                     setImpact := None; setLikelihood := None; setLabel := None;
                     setReference := None; setCompletedAt := Some (Some 0) |}
                  (Demo.bug "a" 1 false) in
  updated = (json 200 (BugJson stored), Some [stored])
  /\ completedAt stored = Some 0
  /\ completeBug Demo.acceptAll "a" 1000 (snd updated)
     = (json 200 (BugJson (completedAtTime 1000 stored)),
        Some [completedAtTime 1000 stored])
  /\ completedAt (completedAtTime 1000 stored) = Some 1000.
Proof. vm_compute. repeat split. Qed.

Lemma deleteAllBugs_forbidden (db : Supabase) :
  List.length (filter reference (rows db)) = List.length (rows db) ->
  deleteAllBugs db
  = (errorJson 403 "all bugs are reference bugs; deletion aborted", db).
Proof.
  intros Heq. unfold deleteAllBugs.
  rewrite listBugs_reference_count, listBugs_length, Heq.
  now rewrite Nat.eqb_refl.
Qed.

Lemma deleteAllBugs_deletes (db : Supabase) :
  List.length (filter reference (rows db)) <> List.length (rows db) ->
  deleteAllBugs db
  = (Reply 204
       [("X-Reference-Preserved"%string,
         natToString (List.length (filter reference (rows db))))]
       NoBody,
     Some (filter reference (rows db))).
Proof.
  intros Hneq. unfold deleteAllBugs.
  rewrite listBugs_reference_count, listBugs_length.
  apply Nat.eqb_neq in Hneq. rewrite Hneq.
  destruct db as [ t | ].
  - now rewrite deleteAllNonReference_rows.
  - simpl in Hneq. discriminate.
Qed.

(** C5.  Bulk delete answers 403 Forbidden and leaves the store as it was
    exactly when the number of reference records equals the number of all
    records; otherwise it answers 204, the store then holds exactly the
    reference records (every non-reference record is gone, every reference
    record is kept), and the [X-Reference-Preserved] header reports their
    number. *)
Theorem bulk_delete_contract (db : Supabase) :
  let total := List.length (rows db) in
  let preserved := List.length (filter reference (rows db)) in
  (preserved = total <->
   deleteAllBugs db
   = (errorJson 403 "all bugs are reference bugs; deletion aborted", db))
  /\ (preserved <> total <->
      deleteAllBugs db
      = (Reply 204 [("X-Reference-Preserved"%string, natToString preserved)] NoBody,
         Some (filter reference (rows db))))
  /\ (forall r, In r (filter reference (rows db)) <->
                In r (rows db) /\ reference r = true)
  /\ List.length (rows db)
     = (preserved + List.length (filter (fun r => negb (reference r)) (rows db)))%nat.
Proof.
  intros total preserved. subst total preserved.
  split; [ | split; [ | split ] ].
  - split; [ apply deleteAllBugs_forbidden | ].
    intros Hres.
    destruct (Nat.eq_dec (List.length (filter reference (rows db)))
                         (List.length (rows db))) as [ Heq | Hneq ];
      [ exact Heq | ].
    rewrite (deleteAllBugs_deletes db Hneq) in Hres. discriminate.
  - split; [ apply deleteAllBugs_deletes | ].
    intros Hres Heq.
    rewrite (deleteAllBugs_forbidden db Heq) in Hres. discriminate.
  - intros r. apply filter_In.
  - rewrite <- length_app. apply Permutation_length.
    induction (rows db) as [ | r l IH ]; simpl; [ constructor | ].
    destruct (reference r); simpl.
    + now apply perm_skip.
    + now apply Permutation_cons_app.
Qed.

(** The spec's example: three reference records out of five. *)
Lemma bulk_delete_three_of_five :
  let five := [Demo.bug "a" 5 true; Demo.bug "b" 4 false; Demo.bug "c" 3 true;
               Demo.bug "d" 2 false; Demo.bug "e" 1 true]%string in
  deleteAllBugs (Some five)
  = (Reply 204 [("X-Reference-Preserved", "3")%string] NoBody,
     Some [Demo.bug "a" 5 true; Demo.bug "c" 3 true; Demo.bug "e" 1 true]%string).
Proof.
  intros five.
  destruct (bulk_delete_contract (Some five)) as (_ & Hdel & _).
  apply Hdel. vm_compute. discriminate.
Defined.

(** All records are reference records: nothing is deleted. *)
Example bulk_delete_all_reference :
  let db := Some [Demo.bug "a" 1 true; Demo.bug "b" 2 true]%string in
  deleteAllBugs db
  = (errorJson 403 "all bugs are reference bugs; deletion aborted", db).
Proof. reflexivity. Qed.

End LifecycleFacts.

(** ** Creating a record *)

Module CreateFacts.
Import Js Server StoreFacts.

Section Create.

Variable StringToNumber : string -> JsNum.
Variable accepts : BugRow -> bool.

Lemma postBugs_rejects (uuid : string) (now : Z) (b : Body.t) (db : Supabase) :
  descriptionPasses (Body.description b) && labelPasses (Body.label b) = false ->
  exists msg,
    postBugs StringToNumber accepts uuid now b db = (errorJson 400 msg, db).
Proof.
  unfold postBugs, descriptionPasses, labelPasses. intros H.
  destruct (Body.description b) as [ | | x | z | d ]; simpl in *;
    try (destruct x); try (destruct (z =? 0)); simpl in *;
    try (eexists; reflexivity).
  destruct (d =? "")%string; simpl in *; [ eexists; reflexivity | ].
  destruct (truthy (Body.label b)); simpl in *; [ | discriminate ].
  rewrite H. simpl. eexists; reflexivity.
Qed.

Lemma postBugs_passes (uuid : string) (now : Z) (b : Body.t) (db : Supabase) :
  descriptionPasses (Body.description b) && labelPasses (Body.label b) = true ->
  exists d,
    Body.description b = JString d
    /\ postBugs StringToNumber accepts uuid now b db
       = match createBug accepts (newBug StringToNumber uuid now b d) db with
         | Some (inserted, db') => (json 201 (BugJson inserted), db')
         | None => (errorJson 500 "insert failed", db)
         end.
Proof.
  unfold postBugs, descriptionPasses, labelPasses. intros H.
  apply andb_true_iff in H. destruct H as [Hd Hl].
  destruct (Body.description b) as [ | | x | z | d ]; simpl in Hd;
    try discriminate; try (now rewrite andb_false_r in Hd).
  rewrite andb_true_r in Hd. simpl. rewrite Hd.
  exists d. split; [ reflexivity | ].
  destruct (truthy (Body.label b)) eqn:Ht; simpl in Hl |- *; [ | reflexivity ].
  rewrite Hl. reflexivity.
Qed.

(** The validation error of a create is the 400 answer, given exactly when
    one of the two checks fails. *)
Lemma postBugs_validation (uuid : string) (now : Z) (b : Body.t) (db : Supabase) :
  (exists msg,
     postBugs StringToNumber accepts uuid now b db = (errorJson 400 msg, db))
  <-> descriptionPasses (Body.description b) && labelPasses (Body.label b) = false.
Proof.
  split; [ | apply postBugs_rejects ].
  intros (msg & Hres).
  destruct (descriptionPasses (Body.description b) && labelPasses (Body.label b)) eqn:E;
    [ | reflexivity ].
  destruct (postBugs_passes uuid now b db E) as (d & _ & Hpass).
  rewrite Hpass in Hres.
  destruct (createBug accepts (newBug StringToNumber uuid now b d) db) as [ [r db'] | ];
    discriminate.
Qed.

(** A created record is the [newBug] object, appended to the table. *)
Lemma postBugs_created (uuid : string) (now : Z) (b : Body.t)
  (db db' : Supabase) (row : BugRow) :
  postBugs StringToNumber accepts uuid now b db = (json 201 (BugJson row), db') ->
  exists d,
    Body.description b = JString d
    /\ row = newBug StringToNumber uuid now b d
    /\ rows db' = rows db ++ [row].
Proof.
  intros H.
  destruct (descriptionPasses (Body.description b) && labelPasses (Body.label b)) eqn:E.
  - destruct (postBugs_passes uuid now b db E) as (d & Hd & Hres).
    rewrite Hres in H. unfold createBug in H.
    destruct db as [ t | ]; [ | discriminate ].
    destruct (accepts (newBug StringToNumber uuid now b d)); [ | discriminate ].
    injection H as <- <-. exists d. auto.
  - destruct (postBugs_rejects uuid now b db E) as (msg & Hres).
    rewrite Hres in H. discriminate.
Qed.

(** The rows after a create: the old rows, followed by the new row when the
    request passed validation and the table took it. *)
Lemma postBugs_rows (uuid : string) (now : Z) (b : Body.t) (db : Supabase) :
  rows (snd (postBugs StringToNumber accepts uuid now b db)) = rows db
  \/ exists d,
       Body.description b = JString d
       /\ rows (snd (postBugs StringToNumber accepts uuid now b db))
          = rows db ++ [newBug StringToNumber uuid now b d].
Proof.
  destruct (descriptionPasses (Body.description b) && labelPasses (Body.label b)) eqn:E.
  - destruct (postBugs_passes uuid now b db E) as (d & Hd & Hres).
    rewrite Hres. unfold createBug.
    destruct db as [ t | ]; [ | now left ].
    destruct (accepts (newBug StringToNumber uuid now b d)); [ | now left ].
    right. exists d. split; [ exact Hd | reflexivity ].
  - destruct (postBugs_rejects uuid now b db E) as (msg & Hres).
    rewrite Hres. now left.
Qed.

End Create.

(** ["  fix X  "] is stored as ["fix X"], and empty optional text fields are
    stored as absent. *)
Example create_trims_description :
  let b := Body.mk (JString "") (JString "  fix X  ") (JString "") JUndefined
                   JUndefined (JString "") JUndefined JUndefined JUndefined
                   JUndefined in
  exists row,
    postBugs Demo.decimalToNumber Demo.acceptAll "u1" 7 b (Some [])
    = (json 201 (BugJson row), Some [row])
    /\ description row = "fix X"%string
    /\ ticket row = None /\ jiraLink row = JNull /\ label row = None
    /\ impact row = Num 1 /\ likelihood row = Num 1.
Proof. eexists. vm_compute. repeat split. Qed.

Example create_rejects_unknown_label :
  let b := Body.mk JUndefined (JString "x") JUndefined JUndefined JUndefined
                   (JString "Not A Real Label") JUndefined JUndefined JUndefined
                   JUndefined in
  postBugs Demo.decimalToNumber Demo.acceptAll "u1" 7 b (Some [])
  = (errorJson 400 "invalid label", Some []).
Proof. reflexivity. Qed.

(** C2 (the code departs from the claim).  A description of white space only
    is not rejected by [POST /api/bugs]: the check [!description] comes
    before the trim, so the request passes validation and the record is
    written with the empty description; the answer is 201 when the table
    takes the row and 500 otherwise, never the 400 of a validation error. *)
Theorem whitespace_description_is_stored (StringToNumber : string -> JsNum)
  (accepts : BugRow -> bool) (uuid : string) (now : Z) (t : Table) :
  let row :=
    {| id := uuid; ticket := None; description := ""%string; jiraLink := JNull;
       impact := Num 1; likelihood := Num 1; label := None;
       completedAt := None; createdAt := now; reference := false |} in
  trim "  " = ""%string
  /\ postBugs StringToNumber accepts uuid now
       (Demo.withDescription (JString "  ")) (Some t)
     = if accepts row
       then (json 201 (BugJson row), Some (t ++ [row]))
       else (errorJson 500 "insert failed", Some t).
Proof.
  intros row. split; [ reflexivity | ].
  unfold postBugs, createBug. simpl.
  change (newBug StringToNumber uuid now (Demo.withDescription (JString "  ")) "  ")
    with row.
  now destruct (accepts row).
Qed.

End CreateFacts.

(** ** Updating a record *)

Module UpdateFacts.
Import Js Server StoreFacts CreateFacts.

Lemma filter_hasId_only (i : string) (t : Table) (r x : BugRow) :
  filter (hasId i) t = [r] -> In x t -> hasId i x = true -> x = r.
Proof.
  intros Hf Hin Hid.
  assert (H : In x (filter (hasId i) t)) by (apply filter_In; now split).
  rewrite Hf in H. destruct H as [ H | [] ]. now symmetry.
Qed.

Section Update.

Variable StringToNumber : string -> JsNum.
Variable accepts : BugRow -> bool.

(** An update either answers something other than the updated record and
    leaves the store as it was, or it found one row under the id, built the
    [updated] fields from a body whose [completedAt] is absent, null or a
    number, and replaced the row. *)
Lemma putBug_cases (i : string) (b : Body.t) (db : Supabase) :
  (snd (putBug StringToNumber accepts i b db) = db
   /\ forall row, fst (putBug StringToNumber accepts i b db) <> json 200 (BugJson row))
  \/ exists existing updated,
       getBug i db = Some existing
       /\ updatedFields StringToNumber b existing = Some updated
       /\ match Body.completedAt b with
          | JUndefined | JNull | JNumber _ => True
          | _ => False
          end
       /\ putBug StringToNumber accepts i b db
          = (json 200 (BugJson (applyChanges updated existing)),
             Some (map (fun x => if hasId i x then applyChanges updated x else x)
                       (rows db))).
Proof.
  unfold putBug.
  destruct (truthy (Body.label b) && negb (includes ALLOWED_LABELS (Body.label b)));
    [ left; split; [ reflexivity | discriminate ] | ].
  destruct (getBug i db) as [ existing | ] eqn:Hget;
    [ | destruct (Body.completedAt b); left; split; try reflexivity; discriminate ].
  destruct (updatedFields StringToNumber b existing) as [ updated | ] eqn:Hupd;
    [ | destruct (Body.completedAt b); left; split; try reflexivity; discriminate ].
  destruct (accepts (applyChanges updated existing)) eqn:Hacc.
  - destruct (updateBug_result accepts i updated db existing Hget Hacc)
      as (Hres & _).
    rewrite Hres.
    destruct (Body.completedAt b);
      try (left; split; [ reflexivity | discriminate ]);
      right; exists existing, updated; simpl; auto.
  - rewrite (updateBug_refused accepts i updated db existing Hget Hacc).
    destruct (Body.completedAt b); left; split; try reflexivity; discriminate.
Qed.

(** The fields of the [updated] object that the properties below read. *)
Lemma updatedFields_ratings (b : Body.t) (existing : BugRow) (updated : Changes) :
  updatedFields StringToNumber b existing = Some updated ->
  setImpact updated
  = Some (match Body.impact b with
          | JUndefined => impact existing
          | v => ToNumber StringToNumber v
          end)
  /\ setLikelihood updated
     = Some (match Body.likelihood b with
             | JUndefined => likelihood existing
             | v => ToNumber StringToNumber v
             end)
  /\ setCompletedAt updated
     = Some (match Body.completedAt b with
             | JNumber ts => Some ts
             | JUndefined => completedAt existing
             | _ => None
             end).
Proof.
  unfold updatedFields.
  destruct (if truthy (Body.description b)
            then option_map trim (asString (Body.description b))
            else Some (description existing)); [ | discriminate ].
  intros [= <-]. simpl. auto.
Qed.

Lemma orOne_in_range (n : JsNum) :
  createKeepsRange n = true -> inRange (orOne n) = true.
Proof.
  unfold createKeepsRange, orOne.
  destruct (truthyNum n); simpl; [ auto | reflexivity ].
Qed.

Lemma orOne_default (n : JsNum) : truthyNum n = false -> orOne n = Num 1.
Proof. unfold orOne. now intros ->. Qed.

Lemma postBugs_in_range (uuid : string) (now : Z) (b : Body.t) (db : Supabase) :
  Forall (fun r => rowInRange r = true) (rows db) ->
  createKeepsRange (ToNumber StringToNumber (Body.impact b)) = true ->
  createKeepsRange (ToNumber StringToNumber (Body.likelihood b)) = true ->
  Forall (fun r => rowInRange r = true)
         (rows (snd (postBugs StringToNumber accepts uuid now b db))).
Proof.
  intros Hdb Hi Hl.
  destruct (postBugs_rows StringToNumber accepts uuid now b db)
    as [ -> | (d & _ & ->) ]; [ exact Hdb | ].
  apply Forall_app. split; [ exact Hdb | ].
  constructor; [ | constructor ].
  unfold rowInRange, newBug. simpl.
  now rewrite !orOne_in_range.
Qed.

Lemma putBug_in_range (i : string) (b : Body.t) (db : Supabase) :
  Forall (fun r => rowInRange r = true) (rows db) ->
  updateKeepsRange StringToNumber (Body.impact b) = true ->
  updateKeepsRange StringToNumber (Body.likelihood b) = true ->
  Forall (fun r => rowInRange r = true)
         (rows (snd (putBug StringToNumber accepts i b db))).
Proof.
  intros Hdb Hi Hl.
  destruct (putBug_cases i b db)
    as [ [-> _] | (existing & updated & Hget & Hupd & _ & ->) ]; [ exact Hdb | ].
  simpl. apply Forall_map. rewrite Forall_forall in Hdb |- *.
  intros x Hx. destruct (hasId i x) eqn:Hid; [ | now apply Hdb ].
  destruct (getBug_found _ _ _ Hget) as (t & -> & Hf & Hin & _).
  assert (x = existing) as -> by (now apply filter_hasId_only with (i := i) (t := t)).
  destruct (updatedFields_ratings b existing updated Hupd) as (Himp & Hlik & _).
  pose proof (Hdb existing Hin) as Hex.
  unfold rowInRange in Hex |- *. apply andb_true_iff in Hex. destruct Hex as [Hei Hel].
  unfold applyChanges. simpl. rewrite Himp, Hlik. simpl.
  unfold updateKeepsRange in Hi, Hl.
  apply andb_true_iff. split.
  - destruct (Body.impact b); auto.
  - destruct (Body.likelihood b); auto.
Qed.

(** When the table itself refuses a rating outside 1 to 5, no request can
    store one: the write fails (a 500 answer) and the rows stay as they
    were. *)
Lemma table_check_keeps_range (uuid i : string) (now : Z) (b : Body.t) (db : Supabase) :
  (forall r, accepts r = true -> rowInRange r = true) ->
  Forall (fun r => rowInRange r = true) (rows db) ->
  Forall (fun r => rowInRange r = true)
         (rows (snd (postBugs StringToNumber accepts uuid now b db)))
  /\ Forall (fun r => rowInRange r = true)
            (rows (snd (putBug StringToNumber accepts i b db))).
Proof.
  intros Hcheck Hdb. split.
  - destruct (descriptionPasses (Body.description b) && labelPasses (Body.label b)) eqn:E.
    + destruct (postBugs_passes StringToNumber accepts uuid now b db E) as (d & _ & ->).
      unfold createBug. destruct db as [ t | ]; [ | exact Hdb ].
      destruct (accepts (newBug StringToNumber uuid now b d)) eqn:Hacc; [ | exact Hdb ].
      simpl. apply Forall_app. split; [ exact Hdb | ].
      constructor; [ now apply Hcheck | constructor ].
    + destruct (postBugs_rejects StringToNumber accepts uuid now b db E) as (msg & ->).
      exact Hdb.
  - destruct (putBug_cases i b db)
      as [ [-> _] | (existing & updated & Hget & Hupd & _ & Hput) ]; [ exact Hdb | ].
    assert (Hacc : accepts (applyChanges updated existing) = true).
    { destruct (accepts (applyChanges updated existing)) eqn:Hacc; [ reflexivity | ].
      revert Hput. unfold putBug.
      destruct (truthy (Body.label b) && negb (includes ALLOWED_LABELS (Body.label b)));
        [ destruct (Body.completedAt b); discriminate | ].
      rewrite Hget, Hupd, (updateBug_refused accepts i updated db existing Hget Hacc).
      destruct (Body.completedAt b); discriminate. }
    rewrite Hput. simpl. apply Forall_map. rewrite Forall_forall in Hdb |- *.
    intros x Hx. destruct (hasId i x) eqn:Hid; [ | now apply Hdb ].
    destruct (getBug_found _ _ _ Hget) as (t & -> & Hf & Hin & _).
    assert (x = existing) as -> by (now apply filter_hasId_only with (i := i) (t := t)).
    now apply Hcheck.
Qed.

End Update.

(** What holds of the ratings.  The table checks both to lie between 1 and
    5 and the handlers submit what they built, so after every create and
    after every update the stored impact and likelihood of every record
    are integers from 1 to 5: a request whose row would break this is
    answered 500 and stores nothing.  On a create, an input that is
    missing, not numeric or zero is replaced by 1.  On an update, a rating
    that is left out keeps its stored value, and a number that is sent is
    stored as it is. *)
Lemma stored_ratings_in_range (StringToNumber : string -> JsNum)
  (accepts : BugRow -> bool) (db : Supabase) (b : Body.t) :
  (forall r, accepts r = true -> rowInRange r = true) ->
  Forall (fun r => rowInRange r = true) (rows db) ->
  (forall uuid now,
      Forall (fun r => rowInRange r = true)
             (rows (snd (postBugs StringToNumber accepts uuid now b db))))
  /\ (forall i,
        Forall (fun r => rowInRange r = true)
               (rows (snd (putBug StringToNumber accepts i b db))))
  /\ (forall uuid now row db',
        postBugs StringToNumber accepts uuid now b db = (json 201 (BugJson row), db') ->
        impact row = orOne (ToNumber StringToNumber (Body.impact b))
        /\ likelihood row = orOne (ToNumber StringToNumber (Body.likelihood b))
        /\ (truthyNum (ToNumber StringToNumber (Body.impact b)) = false ->
            impact row = Num 1)
        /\ (truthyNum (ToNumber StringToNumber (Body.likelihood b)) = false ->
            likelihood row = Num 1))
  /\ (forall uuid now d,
        db <> None ->
        descriptionPasses (Body.description b) && labelPasses (Body.label b) = true ->
        Body.description b = JString d ->
        rowInRange (newBug StringToNumber uuid now b d) = false ->
        postBugs StringToNumber accepts uuid now b db
        = (errorJson 500 "insert failed", db))
  /\ (forall i row db' existing,
        getBug i db = Some existing ->
        putBug StringToNumber accepts i b db = (json 200 (BugJson row), db') ->
        (Body.impact b = JUndefined -> impact row = impact existing)
        /\ (Body.likelihood b = JUndefined -> likelihood row = likelihood existing)
        /\ (forall z, Body.impact b = JNumber z -> impact row = Num z /\ 1 <= z <= 5)
        /\ (forall z, Body.likelihood b = JNumber z ->
              likelihood row = Num z /\ 1 <= z <= 5)).
Proof.
  intros Hcheck Hdb.
  split; [ intros uuid now;
           exact (proj1 (table_check_keeps_range StringToNumber accepts uuid ""%string now
                           b db Hcheck Hdb)) | ].
  split; [ intros i;
           exact (proj2 (table_check_keeps_range StringToNumber accepts ""%string i 0
                           b db Hcheck Hdb)) | ].
  split; [ | split ].
  - intros uuid now row db' Hres.
    destruct (postBugs_created StringToNumber accepts uuid now b db db' row Hres)
      as (d & _ & -> & _).
    unfold newBug. simpl.
    split; [ reflexivity | ]. split; [ reflexivity | ].
    split; apply orOne_default.
  - intros uuid now d Hconf Hpass Hd Hout.
    destruct (postBugs_passes StringToNumber accepts uuid now b db Hpass)
      as (d' & Hd' & ->).
    assert (d' = d) as -> by congruence.
    unfold createBug. destruct db as [ t | ]; [ | contradiction ].
    destruct (accepts (newBug StringToNumber uuid now b d)) eqn:Hacc; [ | reflexivity ].
    apply Hcheck in Hacc. congruence.
  - intros i row db' existing Hget Hres.
    assert (Hrow : rowInRange row = true).
    { pose proof (proj2 (table_check_keeps_range StringToNumber accepts ""%string i 0
                           b db Hcheck Hdb)) as Hall.
      rewrite Hres in Hall. cbn [snd] in Hall.
      destruct (putBug_cases StringToNumber accepts i b db)
        as [ [_ Hnot] | (e & u & Hget' & Hupd & _ & Hput) ];
        [ exfalso; apply (Hnot row); now rewrite Hres | ].
      rewrite Hput in Hres. injection Hres as <- <-.
      destruct (getBug_found _ _ _ Hget') as (t & -> & Hf & Hin & _).
      rewrite Forall_forall in Hall. apply Hall. cbn [rows].
      apply in_map_iff. exists e. split; [ | exact Hin ].
      assert (Hid : hasId i e = true).
      { assert (He : In e (filter (hasId i) t)) by (rewrite Hf; now left).
        apply filter_In in He. tauto. }
      now rewrite Hid. }
    destruct (putBug_cases StringToNumber accepts i b db)
      as [ [_ Hnot] | (e & u & Hget' & Hupd & _ & Hput) ].
    + exfalso. apply (Hnot row). now rewrite Hres.
    + rewrite Hput in Hres. injection Hres as <- <-.
      rewrite Hget in Hget'. injection Hget' as <-.
      destruct (updatedFields_ratings StringToNumber b existing u Hupd)
        as (Himp & Hlik & _).
      unfold rowInRange in Hrow. apply andb_true_iff in Hrow. destruct Hrow as [ Hi Hl ].
      revert Hi Hl. unfold applyChanges. simpl. rewrite Himp, Hlik. simpl.
      intros Hi Hl.
      split; [ now intros -> | ]. split; [ now intros -> | ]. split.
      * intros z Hz. rewrite Hz in Hi |- *. simpl in Hi.
        split; [ reflexivity | ]. apply andb_true_iff in Hi. lia.
      * intros z Hz. rewrite Hz in Hl |- *. simpl in Hl.
        split; [ reflexivity | ]. apply andb_true_iff in Hl. lia.
Qed.

Lemma stored_ratings_in_range_witness :
  let db := Some [Demo.bug "a" 1 false] in
  let b := Body.mk JUndefined (JString "x") JUndefined (JNumber 7) (JString "abc")
                   JUndefined JUndefined JUndefined JUndefined JUndefined in
  Forall (fun r => rowInRange r = true)
         (rows (snd (postBugs Demo.decimalToNumber Demo.rangeChecked "u" 5 b db)))
  /\ Forall (fun r => rowInRange r = true)
            (rows (snd (putBug Demo.decimalToNumber Demo.rangeChecked "a" b db)))
  /\ postBugs Demo.decimalToNumber Demo.rangeChecked "u" 5 b db
     = (errorJson 500 "insert failed", db).
Proof.
  intros db b.
  assert (Hcheck : forall r, Demo.rangeChecked r = true -> rowInRange r = true)
    by (intros r H; exact H).
  assert (Hdb : Forall (fun r => rowInRange r = true) (rows db))
    by (repeat constructor).
  destruct (stored_ratings_in_range Demo.decimalToNumber Demo.rangeChecked db b Hcheck Hdb)
    as (Hcreate & Hupdate & _ & Hrefused & _).
  split; [ apply Hcreate | ].
  split; [ apply Hupdate | ].
  apply (Hrefused "u"%string 5 "x"%string); [ discriminate | reflexivity .. ].
Defined.

(** An update that leaves a rating out keeps it, on a table that checks the
    range: the stored impact 3 stays when only the likelihood is sent. *)
Example update_keeps_omitted_rating :
  let b := Body.mk JUndefined (JString "x") JUndefined JUndefined (JNumber 4)
                   JUndefined JUndefined JUndefined JUndefined JUndefined in
  let row :=
    {| id := "a"%string; ticket := None; description := "x"%string;
       jiraLink := JNull; impact := Num 3; likelihood := Num 4; label := None;
       completedAt := None; createdAt := 1; reference := false |} in
  putBug Demo.decimalToNumber Demo.rangeChecked "a" b (Some [Demo.bug "a" 1 false])
  = (json 200 (BugJson row), Some [row]).
Proof. reflexivity. Qed.

(** C6.  The update does not default a rating that is not numeric, as the
    create does.  A record is stored with impact 3; the update sends the
    impact "abc".  The create path turns such an input into 1
    ([Number(impact) || 1]); the update path has [Number(req.body.impact)]
    alone, so the row it submits has the impact [NaN].  Whatever the table:
    the answer is 500 with the store as it was when the table refuses the
    row, as a table that checks the range does, and otherwise the row is
    stored with [NaN]; the impact 1 is stored in neither case. *)
Theorem update_does_not_default_rating (accepts : BugRow -> bool) :
  let stored := Demo.bug "a" 1 false in
  let b := Body.mk JUndefined JUndefined JUndefined (JString "abc") JUndefined
                   JUndefined JUndefined JUndefined JUndefined JUndefined in
  let submitted :=
    {| id := "a"%string; ticket := None; description := "bug"%string;
       jiraLink := JNull; impact := NaN; likelihood := Num 3; label := None;
       completedAt := None; createdAt := 1; reference := false |} in
  let answer := putBug Demo.decimalToNumber accepts "a" b (Some [stored]) in
  impact stored = Num 3
  /\ ToNumber Demo.decimalToNumber (Body.impact b) = NaN
  /\ answer = (if accepts submitted
               then (json 200 (BugJson submitted), Some [submitted])
               else (errorJson 500 "update failed", Some [stored]))
  /\ ((forall r, accepts r = true -> rowInRange r = true) ->
      answer = (errorJson 500 "update failed", Some [stored]))
  /\ Forall (fun r => impact r <> Num 1) (rows (snd answer))
  /\ (forall uuid now,
        impact (newBug Demo.decimalToNumber uuid now b "x") = Num 1).
Proof.
  intros stored b submitted answer.
  assert (Hanswer : answer = (if accepts submitted
                              then (json 200 (BugJson submitted), Some [submitted])
                              else (errorJson 500 "update failed", Some [stored]))).
  { subst answer stored b submitted.
    match goal with |- context [ if accepts ?r then _ else _ ] =>
      destruct (accepts r) eqn:Hacc end;
      vm_compute in Hacc; vm_compute; rewrite Hacc; reflexivity. }
  split; [ reflexivity | ]. split; [ reflexivity | ]. split; [ exact Hanswer | ].
  split.
  - intros Hcheck. rewrite Hanswer.
    destruct (accepts submitted) eqn:Hacc; [ | reflexivity ].
    apply Hcheck in Hacc. discriminate.
  - split; [ | reflexivity ].
    rewrite Hanswer. destruct (accepts submitted); cbn [snd rows];
      repeat constructor; discriminate.
Qed.

(** On a table that checks the range, the create above is refused. *)
Example create_out_of_range_refused_by_table :
  let b := Body.mk JUndefined (JString "x") JUndefined (JNumber 7) (JNumber 25)
                   JUndefined JUndefined JUndefined JUndefined JUndefined in
  postBugs Demo.decimalToNumber Demo.rangeChecked "u" 5 b (Some [])
  = (errorJson 500 "insert failed", Some []).
Proof. reflexivity. Qed.

End UpdateFacts.

(** ** The completion timestamp over sequences of requests *)

Module CompletedAtFacts.
Import Js Server StoreFacts CreateFacts UpdateFacts.

Section Sequences.

Variable StringToNumber : string -> JsNum.
Variable accepts : BugRow -> bool.
Variable i : string.

Lemma completeBug_rows (j : string) (now : Z) (db : Supabase) :
  rows (snd (completeBug accepts j now db)) = rows db
  \/ rows (snd (completeBug accepts j now db))
     = map (fun x => if hasId j x then completedAtTime now x else x) (rows db).
Proof.
  unfold completeBug.
  destruct (getBug j db) as [ bug | ] eqn:Hget; [ | now left ].
  destruct (reference bug); [ now left | ].
  destruct (isCompleted bug); [ now left | ].
  destruct (accepts (completedAtTime now bug)) eqn:Hacc.
  - destruct (updateBug_result accepts j (onlyCompletedAt now) db bug Hget Hacc)
      as (-> & _).
    now right.
  - rewrite (updateBug_refused accepts j (onlyCompletedAt now) db bug Hget Hacc).
    now left.
Qed.

Lemma deleteBugById_rows (j : string) (db : Supabase) :
  rows (snd (deleteBugById j db)) = rows db
  \/ rows (snd (deleteBugById j db)) = filter (fun r => negb (hasId j r)) (rows db).
Proof.
  unfold deleteBugById.
  destruct (getBug j db) as [ bug | ] eqn:Hget; [ | now left ].
  destruct (reference bug); [ now left | ].
  destruct db as [ t | ]; [ now right | now left ].
Qed.

Lemma deleteAllBugs_rows (db : Supabase) :
  rows (snd (deleteAllBugs db)) = rows db
  \/ rows (snd (deleteAllBugs db)) = filter reference (rows db).
Proof.
  unfold deleteAllBugs.
  destruct (List.length (filter reference (listBugs db)) =? List.length (listBugs db))%nat;
    [ now left | ].
  destruct db as [ t | ]; [ | now left ].
  rewrite deleteAllNonReference_rows. now right.
Qed.

Lemma Forall_filter_keeps {A : Type} (P : A -> Prop) (f : A -> bool) (l : list A) :
  Forall P l -> Forall P (filter f l).
Proof.
  rewrite !Forall_forall. intros H x Hx. apply filter_In in Hx. now apply H.
Qed.


End Sequences.



(** What the sequence of the witness leaves in the table. *)
Example completedAt_after_sequence :
  let db := Some [completedAtTime 1000 (Demo.bug "a" 1 false); Demo.bug "b" 2 false] in
  let ops := [ OpComplete "b" 2000;
               OpUpdate "a" (Demo.withDescription (JString "new text"));
               OpCreate "c" 3000 (Demo.withDescription (JString "third"));
               OpDelete "b" ] in
  map (fun r => (id r, completedAt r))
      (rows (run Demo.decimalToNumber Demo.acceptAll ops db))
  = [("a", Some 1000); ("c", None)]%string.
Proof. reflexivity. Qed.


End CompletedAtFacts.

(** ** Login and the bearer-token gate of the backend *)

Module AuthFacts.
Import Js Server.

Lemma strictEq_eq (a b : JsValue) : strictEq a b = true <-> a = b.
Proof.
  destruct a as [ | | x | x | x ], b as [ | | y | y | y ]; simpl;
    try (split; [ discriminate | discriminate ]);
    try (split; reflexivity).
  - rewrite Bool.eqb_true_iff. split; [ now intros -> | now intros [= ->] ].
  - rewrite Z.eqb_eq. split; [ now intros -> | now intros [= ->] ].
  - rewrite String.eqb_eq. split; [ now intros -> | now intros [= ->] ].
Qed.

Section Gate.

Variable jwtSign : JsValue -> string -> string -> Z -> string.
Variable jwtVerify : string -> string -> Z -> bool.
Variable cfg : Config.
Variable StringToNumber : string -> JsNum.
Variable accepts : BugRow -> bool.

Lemma login_accepts (now : Z) (b : Body.t) :
  Body.username b = EXPECT_USER cfg -> Body.password b = EXPECT_PASS cfg ->
  login jwtSign cfg now b
  = json 200 (TokenJson (jwtSign (Body.username b) (JWT_SECRET cfg) "8h"%string now)
                        (8 * 3600)).
Proof.
  intros Hu Hp. unfold login.
  apply strictEq_eq in Hu, Hp. now rewrite Hu, Hp.
Qed.

Lemma login_rejects (now : Z) (b : Body.t) :
  ~ (Body.username b = EXPECT_USER cfg /\ Body.password b = EXPECT_PASS cfg) ->
  login jwtSign cfg now b = errorJson 401 "invalid credentials".
Proof.
  intros Hne. unfold login.
  destruct (strictEq (Body.username b) (EXPECT_USER cfg)) eqn:Hu; [ | reflexivity ].
  destruct (strictEq (Body.password b) (EXPECT_PASS cfg)) eqn:Hp; [ | reflexivity ].
  exfalso. apply Hne. split; now apply strictEq_eq.
Qed.

(** A bug route is not one of the allowed paths. *)
Lemma isBugRoute_not_allowed (req : Request) :
  isBugRoute req = true -> authAllowedPath req = false.
Proof.
  unfold isBugRoute, authAllowedPath.
  destruct (method req), (path req) as [ | a [ | x [ | c [ | ] ] ] ];
    try discriminate; intros H; simpl;
    try (apply andb_true_iff in H; destruct H as [H _]);
    apply String.eqb_eq in H; subst a; reflexivity.
Qed.

Lemma api_bug_route (uuid : string) (now : Z) (req : Request) (db : Supabase) :
  isBugRoute req = true ->
  api jwtSign jwtVerify cfg StringToNumber accepts uuid now req db
  = if bearerValid jwtVerify cfg now req
    then bugRoutes StringToNumber accepts uuid now req db
    else (errorJson 401 "unauthorized", db).
Proof.
  intros Hroute. unfold api, authMiddleware.
  rewrite (isBugRoute_not_allowed req Hroute).
  revert Hroute. unfold isBugRoute.
  destruct (method req), (path req) as [ | a [ | x [ | c [ | ] ] ] ];
    try discriminate; intros H; try reflexivity;
    try (apply andb_true_iff in H; destruct H as [H _]);
    apply String.eqb_eq in H; subst a; reflexivity.
Qed.

End Gate.

(** C10.  The login check succeeds exactly when the submitted username and
    password are strictly equal to the configured ones: for a configured
    [APP_USERNAME] or [APP_PASSWORD], the same string (a number or a
    boolean of the same spelling does not pass); for one that is not
    configured, a field that is left out.  A token, signed over the
    submitted username for 8 hours, is issued then and only then; every
    other request is answered 401.  In particular, when neither value is
    configured, a request that omits both username and password passes the
    check and is issued a token. *)
Theorem login_checks_configured_credentials
  (jwtSign : JsValue -> string -> string -> Z -> string)
  (cfg : Config) (now : Z) (b : Body.t) :
  let matches (sent : JsValue) (configured : option string) : Prop :=
    match configured with
    | Some s => sent = JString s
    | None => sent = JUndefined
    end in
  let issued :=
    json 200 (TokenJson (jwtSign (Body.username b) (JWT_SECRET cfg) "8h"%string now)
                        (8 * 3600)) in
  (login jwtSign cfg now b = issued
   <-> matches (Body.username b) (APP_USERNAME cfg)
       /\ matches (Body.password b) (APP_PASSWORD cfg))
  /\ ((exists token expiresIn,
         login jwtSign cfg now b = json 200 (TokenJson token expiresIn))
      <-> matches (Body.username b) (APP_USERNAME cfg)
          /\ matches (Body.password b) (APP_PASSWORD cfg))
  /\ (login jwtSign cfg now b = errorJson 401 "invalid credentials"
      <-> ~ (matches (Body.username b) (APP_USERNAME cfg)
             /\ matches (Body.password b) (APP_PASSWORD cfg)))
  /\ (forall u p, APP_USERNAME cfg = Some u -> APP_PASSWORD cfg = Some p ->
        (login jwtSign cfg now b = issued
         <-> Body.username b = JString u /\ Body.password b = JString p))
  /\ (APP_USERNAME cfg = None -> APP_PASSWORD cfg = None ->
      (login jwtSign cfg now b
       = json 200 (TokenJson (jwtSign JUndefined (JWT_SECRET cfg) "8h"%string now)
                             (8 * 3600))
       <-> Body.username b = JUndefined /\ Body.password b = JUndefined)).
Proof.
  intros matches issued.
  assert (Hexp : forall v c, matches v c <-> v = envValue c).
  { intros v [ c | ]; reflexivity. }
  assert (Hcases :
    (matches (Body.username b) (APP_USERNAME cfg)
     /\ matches (Body.password b) (APP_PASSWORD cfg)
     /\ login jwtSign cfg now b = issued)
    \/ (~ (matches (Body.username b) (APP_USERNAME cfg)
           /\ matches (Body.password b) (APP_PASSWORD cfg))
        /\ login jwtSign cfg now b = errorJson 401 "invalid credentials")).
  { destruct (strictEq (Body.username b) (EXPECT_USER cfg)) eqn:Hu.
    - destruct (strictEq (Body.password b) (EXPECT_PASS cfg)) eqn:Hp.
      + apply strictEq_eq in Hu, Hp. left.
        split; [ now apply Hexp | ]. split; [ now apply Hexp | ].
        now apply login_accepts.
      + right. assert (Hne : ~ Body.password b = EXPECT_PASS cfg).
        { intros H. apply strictEq_eq in H. congruence. }
        split; [ intros [ _ H ]; now apply Hne, Hexp | ].
        apply login_rejects. intros [ _ H ]. now apply Hne.
    - right. assert (Hne : ~ Body.username b = EXPECT_USER cfg).
      { intros H. apply strictEq_eq in H. congruence. }
      split; [ intros [ H _ ]; now apply Hne, Hexp | ].
      apply login_rejects. intros [ H _ ]. now apply Hne. }
  assert (Hiff : login jwtSign cfg now b = issued
                 <-> matches (Body.username b) (APP_USERNAME cfg)
                     /\ matches (Body.password b) (APP_PASSWORD cfg)).
  { destruct Hcases as [ (Hu & Hp & Hres) | (Hnot & Hres) ].
    - split; auto.
    - rewrite Hres. split; [ discriminate | intros H; now exfalso ]. }
  split; [ exact Hiff | ].
  split.
  { destruct Hcases as [ (Hu & Hp & Hres) | (Hnot & Hres) ].
    - split; [ auto | intros _; rewrite Hres; unfold issued; eauto ].
    - rewrite Hres. split; [ intros (t & e & H); discriminate | intros H; now exfalso ]. }
  split.
  { destruct Hcases as [ (Hu & Hp & Hres) | (Hnot & Hres) ].
    - rewrite Hres. split; [ discriminate | intros H; exfalso; apply H; auto ].
    - split; auto. }
  split.
  - intros u p Hcu Hcp. rewrite Hiff, Hcu, Hcp. reflexivity.
  - intros Hcu Hcp. split.
    + intros Hres.
      destruct Hcases as [ (Hu & Hp & _) | (_ & Hrej) ];
        [ | rewrite Hrej in Hres; discriminate ].
      rewrite Hcu in Hu. rewrite Hcp in Hp. auto.
    + intros [ Hu Hp ].
      assert (Hm : matches (Body.username b) (APP_USERNAME cfg)
                   /\ matches (Body.password b) (APP_PASSWORD cfg))
        by (rewrite Hcu, Hcp; auto).
      apply Hiff in Hm. rewrite Hm. unfold issued. now rewrite Hu.
Qed.

(** No credentials configured, none sent: a token is issued; "admin" and
    "pw" configured and sent: a token is issued. *)
Lemma login_unconfigured_issues_token :
  login Demo.plainSign (mkConfig None None None) 1000 Body.empty
  = json 200 (TokenJson "dev-insecure-secret"%string 28800)
  /\ login Demo.plainSign
           (mkConfig (Some "s3cret"%string) (Some "admin"%string) (Some "pw"%string)) 1000
           (Body.mk JUndefined JUndefined JUndefined JUndefined JUndefined JUndefined
                    JUndefined JUndefined (JString "admin") (JString "pw"))
     = json 200 (TokenJson "s3cret"%string 28800).
Proof.
  split.
  - destruct (login_checks_configured_credentials Demo.plainSign (mkConfig None None None)
                1000 Body.empty) as (_ & _ & _ & _ & Hopen).
    apply (Hopen eq_refl eq_refl). split; reflexivity.
  - destruct (login_checks_configured_credentials Demo.plainSign
                (mkConfig (Some "s3cret"%string) (Some "admin"%string) (Some "pw"%string))
                1000
                (Body.mk JUndefined JUndefined JUndefined JUndefined JUndefined JUndefined
                         JUndefined JUndefined (JString "admin") (JString "pw")))
      as (_ & _ & _ & Hconf & _).
    apply (Hconf "admin"%string "pw"%string eq_refl eq_refl). split; reflexivity.
Defined.

(** Configured credentials are not matched by a request that leaves them
    out, nor by a number in place of the password string. *)
Example login_rejects_other_values :
  let cfg := mkConfig (Some "s3cret"%string) (Some "admin"%string) (Some "12"%string) in
  login Demo.plainSign cfg 1000 Body.empty = errorJson 401 "invalid credentials"
  /\ login Demo.plainSign cfg 1000
           (Body.mk JUndefined JUndefined JUndefined JUndefined JUndefined JUndefined
                    JUndefined JUndefined (JString "admin") (JNumber 12))
     = errorJson 401 "invalid credentials".
Proof. split; reflexivity. Qed.

End AuthFacts.

(** ** The derived views of the client *)

Module ViewFacts.
Import Js Client.

Section Sorting.

Context {A : Type}.
Variable key : A -> Z.
Variable cmp : A -> A -> Z.

(** The comparator orders by [key], in one direction or the other. *)
Variable sign : Z.
Hypothesis sign_unit : sign = 1 \/ sign = -1.
Hypothesis cmp_key : forall a b, cmp a b = sign * (key a - key b).

Lemma precedes_trans (a b c : A) : precedes cmp a b -> precedes cmp b c -> precedes cmp a c.
Proof. unfold precedes. rewrite !cmp_key. destruct sign_unit; subst sign; lia. Qed.

Lemma precedes_flip (a b : A) : ~ precedes cmp a b -> precedes cmp b a.
Proof. unfold precedes. rewrite !cmp_key. destruct sign_unit; subst sign; lia. Qed.

Lemma cmp_zero_key (a b : A) : 0 < cmp a b -> key a <> key b.
Proof. rewrite cmp_key. destruct sign_unit; subst sign; lia. Qed.

Lemma sortInsert_perm (x : A) (l : list A) : Permutation (x :: l) (sortInsert cmp x l).
Proof.
  induction l as [ | y l IH ]; simpl; [ reflexivity | ].
  destruct (cmp x y <=? 0); [ reflexivity | ].
  rewrite perm_swap. now apply perm_skip.
Qed.

Lemma arraySort_perm (l : list A) : Permutation l (arraySort cmp l).
Proof.
  induction l as [ | x l IH ]; simpl; [ constructor | ].
  rewrite <- sortInsert_perm. now apply perm_skip.
Qed.

Lemma sortInsert_sorted (x : A) (l : list A) :
  StronglySorted (precedes cmp) l -> StronglySorted (precedes cmp) (sortInsert cmp x l).
Proof.
  induction 1 as [ | y l Hsorted IH Hall ]; simpl.
  - constructor; constructor.
  - destruct (Z.leb_spec (cmp x y) 0) as [ Hle | Hgt ].
    + constructor; [ now constructor | ].
      constructor; [ exact Hle | ].
      rewrite Forall_forall in Hall |- *. intros z Hz.
      apply precedes_trans with (b := y); [ exact Hle | now apply Hall ].
    + constructor; [ exact IH | ].
      rewrite <- sortInsert_perm.
      constructor; [ | exact Hall ].
      apply precedes_flip. unfold precedes. lia.
Qed.

Lemma arraySort_sorted (l : list A) : StronglySorted (precedes cmp) (arraySort cmp l).
Proof.
  induction l as [ | x l IH ]; simpl; [ constructor | ].
  now apply sortInsert_sorted.
Qed.

(** Stability: among the elements of one key, insertion puts the new
    element first and leaves the others in their order. *)
Lemma sortInsert_stable (k : Z) (x : A) (l : list A) :
  filter (fun a => key a =? k) (sortInsert cmp x l)
  = filter (fun a => key a =? k) (x :: l).
Proof.
  induction l as [ | y l IH ]; [ reflexivity | ].
  cbn [sortInsert].
  destruct (Z.leb_spec (cmp x y) 0) as [ Hle | Hgt ]; [ reflexivity | ].
  apply cmp_zero_key in Hgt.
  cbn [filter] in IH |- *. rewrite IH.
  destruct (Z.eqb_spec (key x) k), (Z.eqb_spec (key y) k); try reflexivity.
  exfalso. apply Hgt. congruence.
Qed.

Lemma arraySort_stable (k : Z) (l : list A) :
  filter (fun a => key a =? k) (arraySort cmp l) = filter (fun a => key a =? k) l.
Proof.
  induction l as [ | x l IH ]; [ reflexivity | ].
  cbn [arraySort]. rewrite sortInsert_stable.
  cbn [filter]. now rewrite IH.
Qed.

End Sorting.

Lemma compareScore_key (sortDir : SortDir) (a b : BugRecord) :
  compareScore sortDir a b
  = (match sortDir with Asc => 1 | Desc => -1 end) * (score a - score b).
Proof. unfold compareScore. destruct sortDir; lia. Qed.

Lemma sortDir_sign (sortDir : SortDir) :
  (match sortDir with Asc => 1 | Desc => -1 end) = 1
  \/ (match sortDir with Asc => 1 | Desc => -1 end) = -1.
Proof. destruct sortDir; auto. Qed.

Lemma sortedBugs_desc_sorted (displayed : list BugRecord) :
  StronglySorted (fun a b => score a >= score b) (sortedBugs displayed SortScore Desc).
Proof.
  unfold sortedBugs.
  pose proof (arraySort_sorted score (compareScore Desc) (-1) (or_intror eq_refl)
                (compareScore_key Desc) displayed) as H.
  eapply StronglySorted_ind with (P := StronglySorted (fun a b => score a >= score b));
    [ constructor | | exact H ].
  intros a l _ IH Hall. constructor; [ exact IH | ].
  eapply Forall_impl; [ | exact Hall ].
  intros b Hb. unfold precedes, compareScore in Hb. lia.
Qed.

Lemma sortedBugs_asc_sorted (displayed : list BugRecord) :
  StronglySorted (fun a b => score a <= score b) (sortedBugs displayed SortScore Asc).
Proof.
  unfold sortedBugs.
  pose proof (arraySort_sorted score (compareScore Asc) 1 (or_introl eq_refl)
                (compareScore_key Asc) displayed) as H.
  eapply StronglySorted_ind with (P := StronglySorted (fun a b => score a <= score b));
    [ constructor | | exact H ].
  intros a l _ IH Hall. constructor; [ exact IH | ].
  eapply Forall_impl; [ | exact Hall ].
  intros b Hb. unfold precedes, compareScore in Hb. lia.
Qed.

Lemma sortedBugs_perm (displayed : list BugRecord) (f : SortField) (d : SortDir) :
  Permutation displayed (sortedBugs displayed f d).
Proof.
  destruct f; simpl; [ reflexivity | apply arraySort_perm ].
Qed.

Lemma sortedBugs_stable (displayed : list BugRecord) (f : SortField) (d : SortDir)
  (k : Z) :
  filter (fun b => score b =? k) (sortedBugs displayed f d)
  = filter (fun b => score b =? k) displayed.
Proof.
  destruct f; simpl; [ reflexivity | ].
  apply arraySort_stable with (sign := match d with Asc => 1 | Desc => -1 end).
  - apply sortDir_sign.
  - apply compareScore_key.
Qed.

Lemma displayedBugs_in (bugs : list BugRecord) (viewTab : ViewTab)
  (labelFilters : list string) (b : BugRecord) :
  In b (displayedBugs bugs viewTab labelFilters)
  <-> In b bugs /\ statusOk viewTab b = true /\ labelOk labelFilters b = true.
Proof.
  unfold displayedBugs. rewrite filter_In, andb_true_iff. tauto.
Qed.

Lemma labelOk_member (labelFilters : list string) (b : BugRecord) :
  labelFilters <> [] -> labelOk labelFilters b = true ->
  exists l, label b = Some l /\ In l labelFilters.
Proof.
  intros Hne. unfold labelOk.
  destruct labelFilters as [ | f fs ]; [ contradiction | ]. simpl.
  destruct (label b) as [ l | ]; [ | discriminate ].
  intros H. apply andb_true_iff in H. destruct H as [_ H].
  exists l. split; [ reflexivity | ].
  change (existsb (String.eqb l) (f :: fs) = true) in H.
  apply existsb_exists in H. destruct H as (x & Hx & Heq).
  apply String.eqb_eq in Heq. now subst x.
Qed.

Lemma labelOk_of_member (labelFilters : list string) (b : BugRecord) (l : string) :
  label b = Some l -> l <> ""%string -> In l labelFilters ->
  labelOk labelFilters b = true.
Proof.
  intros Hl Hne Hin. unfold labelOk. rewrite Hl.
  apply orb_true_iff. right. apply andb_true_iff. split.
  - apply negb_true_iff. now apply String.eqb_neq.
  - apply existsb_exists. exists l. split; [ exact Hin | apply String.eqb_refl ].
Qed.

(** C9.  With a non-empty set of label filters, only records whose label is
    a member of the set are displayed (and each record of the active tab
    with such a label is displayed); with the empty set the label plays no
    part.  Sorting the displayed records by score, descending, rearranges
    them into a sequence whose impact x likelihood values never increase,
    and records with equal scores keep the order they had. *)
Theorem view_composition (bugs : list BugRecord) (viewTab : ViewTab)
  (labelFilters : list string) :
  let displayed := displayedBugs bugs viewTab labelFilters in
  let sorted := sortedBugs displayed SortScore Desc in
  (labelFilters <> [] ->
   forall b, In b displayed -> exists l, label b = Some l /\ In l labelFilters)
  /\ (forall b l, In b bugs -> statusOk viewTab b = true ->
        label b = Some l -> l <> ""%string -> In l labelFilters -> In b displayed)
  /\ displayedBugs bugs viewTab [] = filter (statusOk viewTab) bugs
  /\ Permutation displayed sorted
  /\ StronglySorted (fun a b => impact a * likelihood a >= impact b * likelihood b) sorted
  /\ (forall k, filter (fun b => impact b * likelihood b =? k) sorted
                = filter (fun b => impact b * likelihood b =? k) displayed).
Proof.
  intros displayed sorted. subst displayed sorted.
  split; [ | split; [ | split; [ | split; [ | split ] ] ] ].
  - intros Hne b Hb. apply displayedBugs_in in Hb. destruct Hb as (_ & _ & Hl).
    now apply labelOk_member.
  - intros b l Hin Hs Hl Hne Hmem. apply displayedBugs_in.
    split; [ exact Hin | ]. split; [ exact Hs | ].
    now apply labelOk_of_member with (l := l).
  - unfold displayedBugs. apply filter_ext. intros b.
    unfold labelOk. simpl. now rewrite andb_true_r.
  - apply sortedBugs_perm.
  - apply sortedBugs_desc_sorted.
  - intros k. apply (sortedBugs_stable _ SortScore Desc k).
Qed.

(** The spec's example: labels A and B, filter set {A}; two records tie on
    the score 6 and keep their order. *)
Example view_composition_example :
  let rec_ (i lbl : string) (imp lik : Z) :=
    mkBugRecord i None "d" None imp lik (Some lbl) 0 None false in
  let bugs := [rec_ "1" "A" 2 3; rec_ "2" "B" 5 5; rec_ "3" "A" 4 4;
               rec_ "4" "A" 3 2; rec_ "5" "A" 1 1]%string in
  map id (sortedBugs (displayedBugs bugs TabOpen ["A"%string]) SortScore Desc)
  = ["3"; "1"; "4"; "5"]%string.
Proof. reflexivity. Qed.

End ViewFacts.

(** ** The session gate *)

Module SessionFacts.
Import Js.

Lemma truthyStr_nonempty (u : string) :
  u <> ""%string -> Client.truthyStr (Some u) = true.
Proof.
  intros Hne. unfold Client.truthyStr.
  apply negb_true_iff. now apply String.eqb_neq.
Qed.

(** *** The bearer token of a request *)

Lemma substring_all (s : string) : String.substring 0 (String.length s) s = s.
Proof. induction s as [ | c s IH ]; simpl; [ reflexivity | now rewrite IH ]. Qed.

Section Bearer.

Variable jwtSign : JsValue -> string -> string -> Z -> string.
Variable jwtVerify : string -> string -> Z -> bool.
Variable cfg : Server.Config.

Lemma bearerValid_token (now : Z) (req : Server.Request) (token : string) :
  Server.authorization req = Some ("Bearer " ++ token)%string ->
  Server.bearerValid jwtVerify cfg now req
  = jwtVerify token (Server.JWT_SECRET cfg) now.
Proof.
  intros H. unfold Server.bearerValid. rewrite H.
  assert (Hp : String.prefix "Bearer " ("Bearer " ++ token) = true)
    by (apply String.prefix_correct; simpl; now destruct token).
  rewrite Hp.
  change (("Bearer " ++ token)%string)
    with (String "B" (String "e" (String "a" (String "r" (String "e" (String "r"
           (String " " token))))))).
  cbn [String.length Nat.sub String.substring String.eqb negb andb].
  now rewrite Nat.sub_0_r, substring_all.
Qed.

Lemma bearerValid_no_header (now : Z) (req : Server.Request) :
  Server.authorization req = None -> Server.bearerValid jwtVerify cfg now req = false.
Proof. intros H. unfold Server.bearerValid. now rewrite H. Qed.

Lemma bearerValid_other_scheme (now : Z) (req : Server.Request) (h : string) :
  Server.authorization req = Some h -> String.prefix "Bearer " h = false ->
  Server.bearerValid jwtVerify cfg now req = false.
Proof.
  intros H Hp. unfold Server.bearerValid. rewrite H, Hp.
  now rewrite andb_false_r.
Qed.

Variable StringToNumber : string -> JsNum.
Variable accepts : Server.BugRow -> bool.

Lemma api_with_header (uuid : string) (now : Z) (req : Server.Request)
  (h : option string) (db : Server.Supabase) :
  Server.isBugRoute req = true ->
  Server.api jwtSign jwtVerify cfg StringToNumber accepts uuid now (Invariants.withHeader req h) db
  = if Server.bearerValid jwtVerify cfg now (Invariants.withHeader req h)
    then Server.bugRoutes StringToNumber accepts uuid now req db
    else (Server.errorJson 401 "unauthorized", db).
Proof.
  intros Hroute.
  rewrite (AuthFacts.api_bug_route jwtSign jwtVerify cfg StringToNumber accepts
             uuid now (Invariants.withHeader req h) db Hroute).
  reflexivity.
Qed.

End Bearer.

(** The demo token scheme keeps the expiry rule. *)
Lemma issuedAt_ones (n : nat) (secret : string) :
  Demo.issuedAt (Demo.ones n ++ String "." secret) = (n, String "." secret).
Proof.
  induction n as [ | n IH ]; [ reflexivity | ].
  cbn [Demo.ones String.append Demo.issuedAt]. now rewrite IH.
Qed.

Lemma timed_tokens_expire : Server.jwtEightHours Demo.timedSign Demo.timedVerify.
Proof.
  intros payload secret issued now Hissued.
  unfold Demo.timedSign, Demo.timedVerify. rewrite issuedAt_ones.
  rewrite String.eqb_refl.
  rewrite Z2Nat.id by (apply Z.div_pos; lia).
  reflexivity.
Qed.

(** *** The client's session *)

Section Login.

Variable ClientObject : Type.
Variable createClient : option string -> option string -> option ClientObject.
Variable env : SupabaseClient.Env.

Lemma initSupabase_client (m m' : SupabaseClient.Module_ ClientObject)
  (c : ClientObject) :
  SupabaseClient.initSupabase ClientObject createClient env m = (Some c, m') ->
  SupabaseClient.client m' = Some c.
Proof.
  unfold SupabaseClient.initSupabase.
  destruct (SupabaseClient.client m) as [ c0 | ] eqn:Hc.
  - now intros [= <- <-].
  - destruct (createClient _ _) as [ c1 | ]; [ | discriminate ].
    now intros [= <- <-].
Qed.

(** [initSupabase()] returns a client when the module has one or
    [createClient] returns one. *)
Lemma initSupabase_returns (m : SupabaseClient.Module_ ClientObject) :
  fst (SupabaseClient.initSupabase ClientObject createClient env m) <> None
  <-> SupabaseClient.client m <> None
      \/ createClient (SupabaseClient.REACT_APP_SUPABASE_URL env)
                      (SupabaseClient.REACT_APP_SUPABASE_ANON_KEY env) <> None.
Proof.
  unfold SupabaseClient.initSupabase.
  destruct (SupabaseClient.client m) as [ c0 | ]; cbn [fst].
  - split; [ left; discriminate | discriminate ].
  - destruct (createClient _ _) as [ c1 | ]; cbn [fst].
    + split; [ right; discriminate | discriminate ].
    + split; [ contradiction | intros [ H | H ]; contradiction ].
Qed.

Lemma handleLogin_success (u p : string) (T : Z) (st : Client.AppState)
  (m : SupabaseClient.Module_ ClientObject) :
  u <> ""%string -> p <> ""%string ->
  Client.handleLogin (Some u) (Some p) ClientObject createClient env T u p st m
  = ({| Client.authUser := Some u;
        Client.storage := {| Client.bugauth_user := Some u; Client.bugauth_ts := Some T |};
        Client.supabase :=
          match fst (SupabaseClient.initSupabase ClientObject createClient env m) with
          | Some _ => true
          | None => Client.supabase st
          end;
        Client.loginError := None |},
     snd (SupabaseClient.initSupabase ClientObject createClient env m)).
Proof.
  intros Hu Hp. unfold Client.handleLogin.
  rewrite (truthyStr_nonempty u Hu), (truthyStr_nonempty p Hp).
  unfold Client.sameString. rewrite !String.eqb_refl. cbn [negb orb andb].
  destruct (SupabaseClient.initSupabase ClientObject createClient env m)
    as [ [ c | ] m' ] eqn:Hinit; cbn [fst snd]; [ | reflexivity ].
  unfold SupabaseClient.getSupabase. now rewrite (initSupabase_client m m' c Hinit).
Qed.

End Login.

Lemma initAuthUser_alive (u : string) (T now : Z) :
  u <> ""%string -> T <> 0 -> now - T <= Client.SESSION_MS ->
  let s := {| Client.bugauth_user := Some u; Client.bugauth_ts := Some T |} in
  Client.initAuthUser now s = (Some u, s).
Proof.
  intros Hu HT Hle s. subst s.
  unfold Client.initAuthUser, Client.storedTs, Client.truthyStr.
  cbn [Client.bugauth_user Client.bugauth_ts].
  replace (u =? "")%string with false by (symmetry; now apply String.eqb_neq).
  replace (T =? 0) with false by (symmetry; now apply Z.eqb_neq).
  replace (Client.SESSION_MS <? now - T) with false
    by (symmetry; apply Z.ltb_ge; lia).
  reflexivity.
Qed.

Lemma initAuthUser_expired (s : Client.LocalStorage) (now : Z) :
  Client.SESSION_MS < now - Client.storedTs s ->
  Client.initAuthUser now s = (None, Client.clearedStorage).
Proof.
  intros Hlt. unfold Client.initAuthUser.
  replace (Client.SESSION_MS <? now - Client.storedTs s) with true
    by (symmetry; now apply Z.ltb_lt).
  now rewrite !orb_true_r.
Qed.

Lemma autoLogoutEffect_alive (st : Client.AppState) (u : string) (now : Z) :
  Client.authUser st = Some u ->
  now - Client.storedTs (Client.storage st) < Client.SESSION_MS ->
  Client.autoLogoutEffect now st
  = (st, Some (Client.SESSION_MS - (now - Client.storedTs (Client.storage st)))).
Proof.
  intros Hu Hlt. unfold Client.autoLogoutEffect. rewrite Hu.
  replace (Client.SESSION_MS - (now - Client.storedTs (Client.storage st)) <=? 0)
    with false by (symmetry; apply Z.leb_gt; lia).
  reflexivity.
Qed.

Lemma autoLogoutEffect_expired (st : Client.AppState) (u : string) (now : Z) :
  Client.authUser st = Some u ->
  Client.SESSION_MS <= now - Client.storedTs (Client.storage st) ->
  Client.autoLogoutEffect now st = (Client.handleLogout st, None).
Proof.
  intros Hu Hle. unfold Client.autoLogoutEffect. rewrite Hu.
  replace (Client.SESSION_MS - (now - Client.storedTs (Client.storage st)) <=? 0)
    with true by (symmetry; apply Z.leb_le; lia).
  reflexivity.
Qed.

(** The only guard of the client's operations is the store client: what
    they do is the same in two states that agree on it. *)
Lemma operations_ignore_session (st1 st2 : Client.AppState) :
  Client.supabase st1 = Client.supabase st2 ->
  forall (g i : string) (t : Z) (f : Client.BugForm) (confirmed : bool)
         (selectedId : option string) (e : ClientViews.EditForm)
         (bugs : list Client.BugRecord),
    Client.addBug g t f st1 = Client.addBug g t f st2
    /\ Client.markCompleted i t st1 = Client.markCompleted i t st2
    /\ Client.clearAll confirmed st1 = Client.clearAll confirmed st2
    /\ Client.reload st1 = Client.reload st2
    /\ ClientViews.updateBug selectedId e st1 = ClientViews.updateBug selectedId e st2
    /\ ClientViews.deleteBug i confirmed bugs st1
       = ClientViews.deleteBug i confirmed bugs st2.
Proof.
  intros Hs g i t f confirmed selectedId e bugs.
  unfold Client.addBug, Client.markCompleted, Client.clearAll, Client.reload,
    ClientViews.updateBug, ClientViews.deleteBug.
  rewrite Hs. repeat split.
Qed.

Lemma operations_without_client (st : Client.AppState) :
  Client.supabase st = false ->
  forall (g i : string) (t : Z) (f : Client.BugForm) (confirmed : bool)
         (selectedId : option string) (e : ClientViews.EditForm)
         (bugs : list Client.BugRecord),
    (Client.addBug g t f st = Client.Failed "Niet ingelogd"
     \/ Client.addBug g t f st = Client.Skipped)
    /\ Client.markCompleted i t st = Client.Failed "Niet ingelogd"
    /\ Client.clearAll confirmed st = Client.Failed "Niet ingelogd"
    /\ Client.reload st = Client.Skipped
    /\ (ClientViews.updateBug selectedId e st = ClientViews.EditFailed "Niet ingelogd"
        \/ ClientViews.updateBug selectedId e st
           = ClientViews.EditFailed "Omschrijving verplicht"
        \/ ClientViews.updateBug selectedId e st = ClientViews.EditSkipped)
    /\ ClientViews.deleteBug i confirmed bugs st = ClientViews.EditFailed "Niet ingelogd".
Proof.
  intros Hs g i t f confirmed selectedId e bugs.
  unfold Client.addBug, Client.markCompleted, Client.clearAll, Client.reload,
    ClientViews.updateBug, ClientViews.deleteBug.
  rewrite Hs. cbn [negb].
  split; [ destruct (trim (Client.form_description f) =? "")%string; auto | ].
  repeat (split; [ reflexivity | ]).
  split; [ | reflexivity ].
  destruct (negb (Client.truthyStr selectedId)); [ auto | ].
  destruct (trim (ClientViews.editDescription e) =? "")%string; auto.
Qed.

Lemma operations_with_client (st : Client.AppState) :
  Client.supabase st = true ->
  forall (g i : string) (t : Z) (f : Client.BugForm) (e : ClientViews.EditForm)
         (bugs : list Client.BugRecord) (bug : Client.BugRecord),
    Client.markCompleted i t st = Client.Sent (Client.UpdateCompletedAt i t)
    /\ Client.clearAll true st = Client.Sent Client.DeleteWhereNotReference
    /\ Client.reload st = Client.Sent Client.SelectAll
    /\ (trim (Client.form_description f) <> ""%string ->
        exists row, Client.addBug g t f st = Client.Sent (Client.InsertRow row))
    /\ (i <> ""%string -> trim (ClientViews.editDescription e) <> ""%string ->
        exists changes,
          ClientViews.updateBug (Some i) e st
          = ClientViews.EditSent (ClientViews.UpdateRow i changes))
    /\ (find (fun b => (Client.id b =? i)%string) bugs = Some bug ->
        Client.reference bug = false ->
        ClientViews.deleteBug i true bugs st
        = ClientViews.EditSent (ClientViews.DeleteById i)).
Proof.
  intros Hs g i t f e bugs bug.
  unfold Client.addBug, Client.markCompleted, Client.clearAll, Client.reload,
    ClientViews.updateBug, ClientViews.deleteBug.
  rewrite Hs. cbn [negb].
  repeat (split; [ reflexivity | ]).
  split; [ | split ].
  - intros Hd. destruct (String.eqb_spec (trim (Client.form_description f)) "");
      [ contradiction | eexists; reflexivity ].
  - intros Hi Hd. rewrite (truthyStr_nonempty i Hi). cbn [negb].
    destruct (String.eqb_spec (trim (ClientViews.editDescription e)) "");
      [ contradiction | eexists; reflexivity ].
  - intros -> ->. reflexivity.
Qed.

(** C8 (amended).  Backend: a request to a bug route (list, read, create,
    update, complete, delete, bulk delete) is answered 401 Unauthorized and
    does not reach the record store when it has no [Authorization] header,
    a header that does not start with "Bearer ", or a bearer token that
    does not verify; with a bearer token that verifies it reaches its
    handler.  The login route signs its token for 8 hours: by the expiry
    rule of the token library, a request carrying the token issued at time
    T reaches its handler while the clock's second is below the second of T
    plus 8 hours, and is answered 401 from then on.  Client: after a
    successful credential check at time T the user is logged in, and the
    store client is set when it was set before or [createClient] returns
    one.  The local session lasts [SESSION_MS] = 5 minutes: the session
    checks (on mount, and the auto-logout effect with its timer) keep it at
    T + 5 min - 1 ms, and at T + 5 min + 1 ms they clear it and leave only
    the login form.  The operations of the client do not look at the
    session: what they do depends on the state only through the store
    client; without it they send nothing ("Niet ingelogd"), and with it
    they send their call, the two forms and the delete under their own
    checks of the input (a description that is not blank; a bug of the
    list that is not a reference bug, and the confirmation). *)
Theorem session_gate
  (jwtSign : JsValue -> string -> string -> Z -> string)
  (jwtVerify : string -> string -> Z -> bool) (cfg : Server.Config)
  (StringToNumber : string -> JsNum) (accepts : Server.BugRow -> bool)
  (uuid : string) (now : Z) (req : Server.Request) (db : Server.Supabase)
  (ClientObject : Type)
  (createClient : option string -> option string -> option ClientObject)
  (env : SupabaseClient.Env)
  (u p : string) (T : Z) (st0 : Client.AppState)
  (m0 : SupabaseClient.Module_ ClientObject) :
  Server.jwtEightHours jwtSign jwtVerify ->
  Server.isBugRoute req = true ->
  Server.APP_USERNAME cfg = Some u -> Server.APP_PASSWORD cfg = Some p ->
  u <> ""%string -> p <> ""%string -> 0 < T ->
  let token := jwtSign (JString u) (Server.JWT_SECRET cfg) "8h"%string T in
  let answer := fun h : option string =>
    Server.api jwtSign jwtVerify cfg StringToNumber accepts uuid now
               (Invariants.withHeader req h) db in
  let handled := Server.bugRoutes StringToNumber accepts uuid now req db in
  let denied := (Server.errorJson 401 "unauthorized", db) in
  let st :=
    fst (Client.handleLogin (Some u) (Some p) ClientObject createClient env T u p st0 m0) in
  let early := T + Client.SESSION_MS - 1 in
  let late := T + Client.SESSION_MS + 1 in
  Server.login jwtSign cfg T (Invariants.credentials (JString u) (JString p))
  = Server.json 200 (Server.TokenJson token (8 * 3600))
  /\ answer None = denied
  /\ (forall h, String.prefix "Bearer " h = false -> answer (Some h) = denied)
  /\ (forall t,
        answer (Some ("Bearer " ++ t)%string)
        = if jwtVerify t (Server.JWT_SECRET cfg) now then handled else denied)
  /\ answer (Some ("Bearer " ++ token)%string)
     = (if now / 1000 <? T / 1000 + 8 * 3600 then handled else denied)
  /\ Client.SESSION_MS = 300000
  /\ Client.authUser st = Some u
  /\ Client.storage st
     = {| Client.bugauth_user := Some u; Client.bugauth_ts := Some T |}
  /\ Client.render st = Client.MainScreen
  /\ (Client.supabase st = true
      <-> Client.supabase st0 = true
          \/ SupabaseClient.client m0 <> None
          \/ createClient (SupabaseClient.REACT_APP_SUPABASE_URL env)
                          (SupabaseClient.REACT_APP_SUPABASE_ANON_KEY env) <> None)
  /\ Client.initAuthUser early (Client.storage st) = (Some u, Client.storage st)
  /\ Client.autoLogoutEffect early st = (st, Some 1)
  /\ Client.initAuthUser late (Client.storage st) = (None, Client.clearedStorage)
  /\ Client.autoLogoutEffect late st = (Client.handleLogout st, None)
  /\ Client.authUser (Client.handleLogout st) = None
  /\ Client.storage (Client.handleLogout st) = Client.clearedStorage
  /\ Client.render (Client.handleLogout st) = Client.LoginForm
  /\ (forall st1 st2 : Client.AppState,
        Client.supabase st1 = Client.supabase st2 ->
        forall (g i : string) (t : Z) (f : Client.BugForm) (confirmed : bool)
               (selectedId : option string) (e : ClientViews.EditForm)
               (bugs : list Client.BugRecord),
          Client.addBug g t f st1 = Client.addBug g t f st2
          /\ Client.markCompleted i t st1 = Client.markCompleted i t st2
          /\ Client.clearAll confirmed st1 = Client.clearAll confirmed st2
          /\ Client.reload st1 = Client.reload st2
          /\ ClientViews.updateBug selectedId e st1
             = ClientViews.updateBug selectedId e st2
          /\ ClientViews.deleteBug i confirmed bugs st1
             = ClientViews.deleteBug i confirmed bugs st2)
  /\ (forall st' : Client.AppState,
        Client.supabase st' = false ->
        forall (g i : string) (t : Z) (f : Client.BugForm) (confirmed : bool)
               (selectedId : option string) (e : ClientViews.EditForm)
               (bugs : list Client.BugRecord),
          (Client.addBug g t f st' = Client.Failed "Niet ingelogd"
           \/ Client.addBug g t f st' = Client.Skipped)
          /\ Client.markCompleted i t st' = Client.Failed "Niet ingelogd"
          /\ Client.clearAll confirmed st' = Client.Failed "Niet ingelogd"
          /\ Client.reload st' = Client.Skipped
          /\ (ClientViews.updateBug selectedId e st'
              = ClientViews.EditFailed "Niet ingelogd"
              \/ ClientViews.updateBug selectedId e st'
                 = ClientViews.EditFailed "Omschrijving verplicht"
              \/ ClientViews.updateBug selectedId e st' = ClientViews.EditSkipped)
          /\ ClientViews.deleteBug i confirmed bugs st'
             = ClientViews.EditFailed "Niet ingelogd")
  /\ (forall st' : Client.AppState,
        Client.supabase st' = true ->
        forall (g i : string) (t : Z) (f : Client.BugForm) (e : ClientViews.EditForm)
               (bugs : list Client.BugRecord) (bug : Client.BugRecord),
          Client.markCompleted i t st' = Client.Sent (Client.UpdateCompletedAt i t)
          /\ Client.clearAll true st' = Client.Sent Client.DeleteWhereNotReference
          /\ Client.reload st' = Client.Sent Client.SelectAll
          /\ (trim (Client.form_description f) <> ""%string ->
              exists row, Client.addBug g t f st' = Client.Sent (Client.InsertRow row))
          /\ (i <> ""%string -> trim (ClientViews.editDescription e) <> ""%string ->
              exists changes,
                ClientViews.updateBug (Some i) e st'
                = ClientViews.EditSent (ClientViews.UpdateRow i changes))
          /\ (find (fun b => (Client.id b =? i)%string) bugs = Some bug ->
              Client.reference bug = false ->
              ClientViews.deleteBug i true bugs st'
              = ClientViews.EditSent (ClientViews.DeleteById i))).
Proof.
  intros Hjwt Hroute Hcu Hcp Hu Hp HT token answer handled denied st early late.
  assert (Hanswer : forall h,
             answer h
             = if Server.bearerValid jwtVerify cfg now (Invariants.withHeader req h)
               then handled else denied).
  { intros h. subst answer handled denied.
    now apply api_with_header. }
  split.
  { subst token. rewrite (AuthFacts.login_accepts jwtSign cfg T).
    - reflexivity.
    - unfold Server.EXPECT_USER. now rewrite Hcu.
    - unfold Server.EXPECT_PASS. now rewrite Hcp. }
  split; [ rewrite Hanswer; now rewrite bearerValid_no_header | ].
  split.
  { intros h Hh. rewrite Hanswer.
    now rewrite (bearerValid_other_scheme jwtVerify cfg now
                   (Invariants.withHeader req (Some h)) h eq_refl Hh). }
  assert (Hbearer : forall t,
             answer (Some ("Bearer " ++ t)%string)
             = if jwtVerify t (Server.JWT_SECRET cfg) now then handled else denied).
  { intros t. rewrite Hanswer.
    now rewrite (bearerValid_token jwtVerify cfg now
                   (Invariants.withHeader req (Some ("Bearer " ++ t)%string)) t eq_refl). }
  split; [ exact Hbearer | ].
  split.
  { rewrite Hbearer. subst token. rewrite Hjwt by lia. reflexivity. }
  subst st early late.
  rewrite (handleLogin_success ClientObject createClient env u p T st0 m0 Hu Hp).
  cbn [fst].
  split; [ reflexivity | ].
  split; [ reflexivity | ].
  split; [ reflexivity | ].
  split; [ reflexivity | ].
  split.
  { cbn [Client.supabase].
    pose proof (initSupabase_returns ClientObject createClient env m0) as Hret.
    destruct (fst (SupabaseClient.initSupabase ClientObject createClient env m0))
      as [ c | ].
    - split; [ intros _; right; apply Hret; discriminate | reflexivity ].
    - split; [ auto | ].
      intros [ H | H ]; [ exact H | ].
      exfalso. apply Hret in H. now apply H. }
  split; [ apply initAuthUser_alive; auto; lia | ].
  split.
  { rewrite autoLogoutEffect_alive with (u := u);
      unfold Client.storedTs; cbn [Client.storage Client.bugauth_ts Client.authUser];
      try reflexivity; try lia.
    do 2 f_equal. lia. }
  split.
  { apply initAuthUser_expired.
    unfold Client.storedTs; cbn [Client.storage Client.bugauth_ts]. lia. }
  split.
  { apply autoLogoutEffect_expired with (u := u); [ reflexivity | ].
    unfold Client.storedTs; cbn [Client.storage Client.bugauth_ts]. lia. }
  split; [ reflexivity | ].
  split; [ reflexivity | ].
  split; [ reflexivity | ].
  split; [ exact operations_ignore_session | ].
  split; [ exact operations_without_client | exact operations_with_client ].
Qed.

Lemma session_gate_witness :
  let cfg := Server.mkConfig (Some "s3cret"%string) (Some "admin"%string) (Some "pw"%string) in
  let req := Server.mkRequest Server.DELETE ["bugs"; "a"]%string None Server.Body.empty in
  let db := Some [Demo.bug "a" 1 false] in
  let env := SupabaseClient.mkEnv (Some "https://db.example"%string) (Some "anon"%string) in
  let st := fst (Client.handleLogin (Some "admin"%string) (Some "pw"%string)
                   (string * string) Demo.createClient env 1000 "admin" "pw"
                   (Client.mount 1000 Client.clearedStorage) SupabaseClient.initial) in
  let answer := fun (now : Z) (h : option string) =>
    Server.api Demo.timedSign Demo.timedVerify cfg Demo.decimalToNumber Demo.rangeChecked
               "u" now (Invariants.withHeader req h) db in
  answer 2000 None = (Server.errorJson 401 "unauthorized", db)
  /\ answer 2000 (Some "Bearer 1.s3cret"%string)
     = (Server.Reply 204 [] Server.NoBody, Some [])
  /\ Client.supabase st = true
  /\ Client.autoLogoutEffect (1000 + Client.SESSION_MS - 1) st = (st, Some 1)
  /\ Client.autoLogoutEffect (1000 + Client.SESSION_MS + 1) st
     = (Client.handleLogout st, None).
Proof.
  intros cfg req db env st answer.
  assert (Hu : "admin"%string <> ""%string) by discriminate.
  assert (Hp : "pw"%string <> ""%string) by discriminate.
  assert (HT : 0 < 1000) by reflexivity.
  destruct (session_gate Demo.timedSign Demo.timedVerify cfg Demo.decimalToNumber
              Demo.rangeChecked "u" 2000 req db (string * string) Demo.createClient env
              "admin" "pw" 1000 (Client.mount 1000 Client.clearedStorage)
              SupabaseClient.initial timed_tokens_expire eq_refl eq_refl eq_refl
              Hu Hp HT)
    as (_ & Hnone & _ & _ & Htoken & _ & _ & _ & _ & Hclient & _ & Hearly & _ & Hlate & _).
  split; [ exact Hnone | ].
  split; [ exact Htoken | ].
  split; [ apply Hclient; right; right; discriminate | ].
  split; [ exact Hearly | exact Hlate ].
Defined.

(** C8, as stated, fails at T + 5 min + 1 ms, with T = 1500.  Backend: the
    token issued by the login at T is sent with a delete at T + 5 min + 1
    ms; the request is not answered Unauthorized but reaches its handler,
    and the record is deleted.  Client: after the login at T the main
    screen is shown and the logout timer is armed for T + 5 min; a timer
    does not run early and can run late, and an operation that runs at
    T + 5 min + 1 ms before it is not refused: its only guard is the store
    client, so the call goes to the record store. *)
Lemma session_outlives_five_minutes :
  let cfg := Server.mkConfig (Some "s3cret"%string) (Some "admin"%string) (Some "pw"%string) in
  let T := 1500 in
  let late := T + Client.SESSION_MS + 1 in
  let db := Some [Demo.bug "a" 1 false] in
  let req := Server.mkRequest Server.DELETE ["bugs"; "a"]%string
                              (Some "Bearer 1.s3cret"%string) Server.Body.empty in
  let env := SupabaseClient.mkEnv (Some "https://db.example"%string) (Some "anon"%string) in
  let st := fst (Client.handleLogin (Some "admin"%string) (Some "pw"%string)
                   (string * string) Demo.createClient env T "admin" "pw"
                   (Client.mount T Client.clearedStorage) SupabaseClient.initial) in
  let form := Client.mkBugForm "" "late entry" "" 3 3 "" false in
  let row := Client.mkBugRow "g" None "late entry" None 3 3 None None late false in
  Server.login Demo.timedSign cfg T
               (Invariants.credentials (JString "admin") (JString "pw"))
  = Server.json 200 (Server.TokenJson "1.s3cret" 28800)
  /\ Server.api Demo.timedSign Demo.timedVerify cfg Demo.decimalToNumber Demo.rangeChecked
                "u" late req db
     = (Server.Reply 204 [] Server.NoBody, Some [])
  /\ Client.render st = Client.MainScreen
  /\ Client.autoLogoutEffect T st = (st, Some Client.SESSION_MS)
  /\ Client.markCompleted "a" late st = Client.Sent (Client.UpdateCompletedAt "a" late)
  /\ Client.addBug "g" late form st = Client.Sent (Client.InsertRow row).
Proof. vm_compute. repeat split. Qed.

(** After a page load within the session the user is still logged in, but
    the store client is unset until the next login: operations fail. *)
Example operation_after_reload_fails :
  let env := SupabaseClient.mkEnv (Some "https://db.example"%string) (Some "anon"%string) in
  let st := fst (Client.handleLogin (Some "admin"%string) (Some "pw"%string)
                   (string * string) Demo.createClient env 1000 "admin" "pw"
                   (Client.mount 1000 Client.clearedStorage) SupabaseClient.initial) in
  let reloaded := Client.mount 61000 (Client.storage st) in
  Client.authUser reloaded = Some "admin"%string
  /\ Client.render reloaded = Client.MainScreen
  /\ Client.markCompleted "a" 61000 reloaded = Client.Failed "Niet ingelogd".
Proof. vm_compute. repeat split. Qed.

(** A login that passes the credential check while the store client cannot
    be created: the user is logged in and the operations fail. *)
Example login_without_store_client :
  let env := SupabaseClient.mkEnv None None in
  let logged := Client.handleLogin (Some "admin"%string) (Some "pw"%string)
                  (string * string) Demo.createClient env 1000 "admin" "pw"
                  (Client.mount 1000 Client.clearedStorage) SupabaseClient.initial in
  Client.authUser (fst logged) = Some "admin"%string
  /\ Client.render (fst logged) = Client.MainScreen
  /\ Client.supabase (fst logged) = false
  /\ SupabaseClient.client (snd logged) = None
  /\ Client.markCompleted "a" 2000 (fst logged) = Client.Failed "Niet ingelogd".
Proof. vm_compute. repeat split. Qed.

(** A token is good from the second it is issued in until 8 hours after
    that second: issued at 1500 ms, it is refused at 1500 ms + 8 h - 1 ms. *)
Example token_expires_by_the_second :
  let cfg := Server.mkConfig (Some "s3cret"%string) (Some "admin"%string) (Some "pw"%string) in
  let req := Server.mkRequest Server.GET ["bugs"]%string
                              (Some "Bearer 1.s3cret"%string) Server.Body.empty in
  Demo.timedSign (JString "admin") "s3cret" "8h" 1500 = "1.s3cret"%string
  /\ Server.api Demo.timedSign Demo.timedVerify cfg Demo.decimalToNumber Demo.rangeChecked
                "u" (1500 + 8 * 3600 * 1000 - 1) req (Some [])
     = (Server.errorJson 401 "unauthorized", Some [])
  /\ Server.api Demo.timedSign Demo.timedVerify cfg Demo.decimalToNumber Demo.rangeChecked
                "u" (1000 + 8 * 3600 * 1000 - 1) req (Some [])
     = (Server.json 200 (Server.BugsJson []), Some []).
Proof. vm_compute. repeat split. Qed.

End SessionFacts.

(** ** Lookups after a write *)

Module FrameFacts.
Import Js Server StoreFacts Invariants.

Lemma filter_hasId_app (j : string) (t : Table) (r : BugRow) :
  filter (hasId j) (t ++ [r])
  = if hasId j r then filter (hasId j) t ++ [r] else filter (hasId j) t.
Proof.
  rewrite filter_app. simpl. destruct (hasId j r); [ reflexivity | apply app_nil_r ].
Qed.

Lemma getBug_after_insert_other (j : string) (t : Table) (r : BugRow) :
  id r <> j -> getBug j (Some (t ++ [r])) = getBug j (Some t).
Proof.
  intros Hne. unfold getBug. rewrite filter_hasId_app.
  now replace (hasId j r) with false by (symmetry; now apply hasId_false).
Qed.

Lemma getBug_after_insert_new (t : Table) (r : BugRow) :
  ~ In (id r) (map id t) -> getBug (id r) (Some (t ++ [r])) = Some r.
Proof.
  intros Hfresh. unfold getBug. rewrite filter_hasId_app.
  replace (hasId (id r) r) with true by (symmetry; now apply hasId_true).
  now rewrite filter_hasId_absent.
Qed.

Lemma filter_hasId_updated_other (i j : string) (c : Changes) (t : Table) :
  i <> j ->
  filter (hasId j) (map (fun x => if hasId i x then applyChanges c x else x) t)
  = filter (hasId j) t.
Proof.
  intros Hne. induction t as [ | r t IH ]; simpl; [ reflexivity | ].
  destruct (hasId i r) eqn:Ei.
  - rewrite hasId_applyChanges.
    replace (hasId j r) with false; [ exact IH | ].
    symmetry. apply hasId_false. apply hasId_true in Ei. congruence.
  - now rewrite IH.
Qed.

Lemma getBug_after_update_other (i j : string) (c : Changes) (t : Table) :
  i <> j ->
  getBug j (Some (map (fun x => if hasId i x then applyChanges c x else x) t))
  = getBug j (Some t).
Proof.
  intros Hne. unfold getBug. now rewrite filter_hasId_updated_other.
Qed.

Lemma filter_hasId_deleted (i j : string) (t : Table) :
  filter (hasId j) (filter (fun r => negb (hasId i r)) t)
  = if (i =? j)%string then [] else filter (hasId j) t.
Proof.
  induction t as [ | r t IH ]; simpl; [ now destruct (i =? j)%string | ].
  destruct (hasId i r) eqn:Ei; simpl.
  - rewrite IH. destruct (String.eqb_spec i j) as [ <- | Hne ]; [ reflexivity | ].
    replace (hasId j r) with false; [ reflexivity | ].
    symmetry. apply hasId_false. apply hasId_true in Ei. congruence.
  - rewrite IH. destruct (String.eqb_spec i j) as [ <- | Hne ].
    + now rewrite Ei.
    + reflexivity.
Qed.

Lemma getBug_after_delete_other (i j : string) (t : Table) :
  i <> j ->
  getBug j (Some (filter (fun r => negb (hasId i r)) t)) = getBug j (Some t).
Proof.
  intros Hne. unfold getBug. rewrite filter_hasId_deleted.
  now replace (i =? j)%string with false by (symmetry; now apply String.eqb_neq).
Qed.

Lemma getBug_after_delete_self (i : string) (t : Table) :
  getBug i (Some (filter (fun r => negb (hasId i r)) t)) = None.
Proof.
  unfold getBug. rewrite filter_hasId_deleted. now rewrite String.eqb_refl.
Qed.

Lemma filter_filter_comm {A : Type} (f g : A -> bool) (l : list A) :
  filter f (filter g l) = filter g (filter f l).
Proof.
  induction l as [ | x l IH ]; simpl; [ reflexivity | ].
  destruct (f x) eqn:Ef, (g x) eqn:Eg; simpl; rewrite ?Ef, ?Eg, IH; reflexivity.
Qed.

Lemma getBug_after_bulk_delete (i : string) (t : Table) (b : BugRow) :
  getBug i (Some t) = Some b -> reference b = true ->
  getBug i (Some (filter reference t)) = Some b.
Proof.
  intros Hget Href.
  destruct (getBug_found _ _ _ Hget) as (t' & [= <-] & Hf & _).
  unfold getBug. rewrite filter_filter_comm, Hf. simpl. now rewrite Href.
Qed.

(** What a successful delete did. *)
Lemma deleteBugById_done (i : string) (db db' : Supabase) :
  deleteBugById i db = (Reply 204 [] NoBody, db') ->
  exists bug,
    getBug i db = Some bug /\ reference bug = false
    /\ db' = Some (filter (fun r => negb (hasId i r)) (rows db)).
Proof.
  unfold deleteBugById.
  destruct (getBug i db) as [ bug | ] eqn:Hget; [ | discriminate ].
  destruct (reference bug) eqn:Href; [ discriminate | ].
  destruct db as [ t | ]; [ | discriminate ].
  simpl. intros [= <-]. exists bug. auto.
Qed.

Lemma deleteBugById_open (i : string) (db : Supabase) (bug : BugRow) :
  getBug i db = Some bug -> reference bug = false ->
  deleteBugById i db
  = (Reply 204 [] NoBody, Some (filter (fun r => negb (hasId i r)) (rows db))).
Proof.
  intros Hget Href. unfold deleteBugById. rewrite Hget, Href.
  destruct (getBug_found _ _ _ Hget) as (t & -> & _). reflexivity.
Qed.

End FrameFacts.

(** ** Reading back what the routes wrote *)

Module RouteFacts.
Import Js Server StoreFacts CreateFacts UpdateFacts Invariants FrameFacts.

Lemma getBug_rows (j : string) (db : Supabase) :
  getBug j db = getBug j (Some (rows db)).
Proof. now destruct db. Qed.

Lemma rows_nonempty_configured (db : Supabase) (l : list BugRow) (r : BugRow) :
  rows db = l ++ [r] -> db = Some (l ++ [r]).
Proof.
  destruct db as [ t | ]; simpl; [ now intros -> | ].
  intros H. now destruct l.
Qed.

(** What a successful update did. *)
Lemma putBug_done (StringToNumber : string -> JsNum) (accepts : BugRow -> bool)
  (i : string) (b : Body.t) (db db' : Supabase) (row : BugRow) :
  putBug StringToNumber accepts i b db = (json 200 (BugJson row), db') ->
  exists existing updated,
    getBug i db = Some existing
    /\ updatedFields StringToNumber b existing = Some updated
    /\ row = applyChanges updated existing
    /\ db' = Some (map (fun x => if hasId i x then applyChanges updated x else x)
                       (rows db))
    /\ getBug i db' = Some row.
Proof.
  intros H.
  destruct (putBug_cases StringToNumber accepts i b db)
    as [ [_ Hnot] | (existing & updated & Hget & Hupd & _ & Hput) ].
  - exfalso. apply (Hnot row). now rewrite H.
  - rewrite Hput in H. injection H as <- <-.
    exists existing, updated. repeat (split; [ easy | ]).
    destruct (getBug_found _ _ _ Hget) as (t & -> & Hf & _).
    unfold getBug. simpl. now rewrite filter_hasId_updated, Hf.
Qed.

(** X1.  A record that [POST /api/bugs] created under an id not yet in the
    table is returned by [GET /api/bugs/:id] exactly as the create
    answered it, and the lookup of every other id is what it was. *)
Theorem created_record_is_found (StringToNumber : string -> JsNum)
  (accepts : BugRow -> bool) (uuid : string) (now : Z) (b : Body.t)
  (db db' : Supabase) (row : BugRow) :
  postBugs StringToNumber accepts uuid now b db = (json 201 (BugJson row), db') ->
  ~ In uuid (ids db) ->
  getBugById uuid db' = (json 200 (BugJson row), db')
  /\ (forall j, j <> uuid -> getBug j db' = getBug j db)
  /\ rows db' = rows db ++ [row].
Proof.
  intros Hres Hfresh.
  destruct (postBugs_created StringToNumber accepts uuid now b db db' row Hres)
    as (d & _ & Hrow & Hrows).
  assert (Hid : id row = uuid) by (now rewrite Hrow).
  pose proof (rows_nonempty_configured db' (rows db) row Hrows) as ->.
  split; [ | split; [ | reflexivity ] ].
  - unfold getBugById. rewrite <- Hid.
    rewrite getBug_after_insert_new; [ reflexivity | now rewrite Hid ].
  - intros j Hj. rewrite (getBug_rows j db).
    apply getBug_after_insert_other. congruence.
Qed.

Lemma created_record_is_found_witness :
  let db := Some [Demo.bug "a" 1 false] in
  let b := Demo.withDescription (JString "second") in
  let res := postBugs Demo.decimalToNumber Demo.acceptAll "b" 2 b db in
  getBugById "b" (snd res)
  = (json 200 (BugJson (newBug Demo.decimalToNumber "b" 2 b "second")), snd res)
  /\ getBug "a" (snd res) = Some (Demo.bug "a" 1 false).
Proof.
  intros db b res.
  assert (Hfresh : ~ In "b"%string (ids db))
    by (simpl; intros [ H | [] ]; discriminate H).
  destruct (created_record_is_found Demo.decimalToNumber Demo.acceptAll "b" 2 b db
              (snd res) (newBug Demo.decimalToNumber "b" 2 b "second") eq_refl Hfresh)
    as (Hfound & Hother & _).
  split; [ exact Hfound | ].
  rewrite Hother; [ reflexivity | discriminate ].
Defined.

(** X2.  After [DELETE /api/bugs/:id] answered 204, the record is gone:
    reading it answers 404, the table holds exactly the rows of the other
    ids, in their order, and the lookup of every other id is what it was. *)
Theorem deleted_record_is_gone (i : string) (db db' : Supabase) :
  deleteBugById i db = (Reply 204 [] NoBody, db') ->
  getBugById i db' = (errorJson 404 "bug not found", db')
  /\ rows db' = filter (fun r => negb (hasId i r)) (rows db)
  /\ (forall r, In r (rows db') <-> In r (rows db) /\ id r <> i)
  /\ (forall j, j <> i -> getBug j db' = getBug j db).
Proof.
  intros Hres.
  destruct (deleteBugById_done i db db' Hres) as (bug & Hget & Href & ->).
  split; [ | split; [ reflexivity | split ] ].
  - unfold getBugById. now rewrite getBug_after_delete_self.
  - intros r. simpl. rewrite filter_In, negb_true_iff, hasId_false. tauto.
  - intros j Hj. rewrite (getBug_rows j db).
    apply getBug_after_delete_other. congruence.
Qed.

Lemma deleted_record_is_gone_witness :
  let db := Some [Demo.bug "a" 1 false; Demo.bug "b" 2 false] in
  getBugById "a" (snd (deleteBugById "a" db))
  = (errorJson 404 "bug not found", Some [Demo.bug "b" 2 false])
  /\ getBug "b" (snd (deleteBugById "a" db)) = Some (Demo.bug "b" 2 false).
Proof.
  intros db.
  destruct (deleted_record_is_gone "a" db (snd (deleteBugById "a" db)) eq_refl)
    as (Hgone & _ & _ & Hother).
  split; [ exact Hgone | ].
  rewrite Hother; [ reflexivity | discriminate ].
Defined.

(** X3.  A successful [PUT /api/bugs/:id] answers with the record that is
    then stored under the id; its id and its [createdAt] are those of the
    record before, and the table keeps its number of rows. *)
Theorem update_keeps_identity (StringToNumber : string -> JsNum)
  (accepts : BugRow -> bool) (i : string) (b : Body.t) (db db' : Supabase)
  (row : BugRow) :
  putBug StringToNumber accepts i b db = (json 200 (BugJson row), db') ->
  exists existing,
    getBug i db = Some existing
    /\ id row = i /\ id row = id existing
    /\ createdAt row = createdAt existing
    /\ getBugById i db' = (json 200 (BugJson row), db')
    /\ List.length (rows db') = List.length (rows db).
Proof.
  intros Hres.
  destruct (putBug_done StringToNumber accepts i b db db' row Hres)
    as (existing & updated & Hget & _ & -> & -> & Hget').
  exists existing. split; [ exact Hget | ].
  destruct (getBug_found _ _ _ Hget) as (_ & _ & _ & _ & Hid).
  split; [ exact Hid | ]. split; [ reflexivity | ]. split; [ reflexivity | ].
  split.
  - unfold getBugById. now rewrite Hget'.
  - simpl. apply length_map.
Qed.

Lemma update_keeps_identity_witness :
  let db := Some [Demo.bug "a" 1 false; Demo.bug "b" 2 false] in
  let res := putBug Demo.decimalToNumber Demo.acceptAll "b"
               (Demo.withDescription (JString " edited ")) db in
  exists existing,
    getBug "b" db = Some existing
    /\ getBugById "b" (snd res) = (fst res, snd res)
    /\ List.length (rows (snd res)) = 2%nat.
Proof.
  intros db res.
  destruct (update_keeps_identity Demo.decimalToNumber Demo.acceptAll "b"
              (Demo.withDescription (JString " edited ")) db (snd res)
              (applyChanges
                 {| setTicket := None; setDescription := Some "edited"%string;
                    setJiraLink := None; setImpact := None; setLikelihood := None;
                    setLabel := None; setReference := None; setCompletedAt := None |}
                 (Demo.bug "b" 2 false))
              eq_refl)
    as (existing & Hget & _ & _ & _ & Hfound & Hlen).
  exists existing. split; [ exact Hget | ]. split; [ exact Hfound | exact Hlen ].
Defined.

Lemma updatedFields_all (StringToNumber : string -> JsNum) (b : Body.t)
  (existing : BugRow) (updated : Changes) :
  updatedFields StringToNumber b existing = Some updated ->
  applyChanges updated existing
  = {| id := id existing;
       ticket := match Body.ticket b with
                 | JString t => orNull (trim t)
                 | _ => ticketKept (ticket existing)
                 end;
       description := if truthy (Body.description b)
                      then match Body.description b with
                           | JString d => trim d
                           | _ => description existing
                           end
                      else description existing;
       jiraLink := match Body.jiraLink b with
                   | JUndefined => jiraLink existing
                   | v => orNullV v
                   end;
       impact := match Body.impact b with
                 | JUndefined => impact existing
                 | v => ToNumber StringToNumber v
                 end;
       likelihood := match Body.likelihood b with
                     | JUndefined => likelihood existing
                     | v => ToNumber StringToNumber v
                     end;
       label := match Body.label b with
                | JUndefined => label existing
                | v => labelOrNull v
                end;
       completedAt := match Body.completedAt b with
                      | JNumber ts => Some ts
                      | JUndefined => completedAt existing
                      | _ => None
                      end;
       createdAt := createdAt existing;
       reference := match Body.reference b with
                    | JUndefined => reference existing
                    | v => truthy v
                    end |}.
Proof.
  unfold updatedFields.
  destruct (truthy (Body.description b)) eqn:Ht.
  - destruct (Body.description b) as [ | | x | z | d ]; simpl; try discriminate.
    intros [= <-]. unfold applyChanges. simpl. f_equal.
    destruct (Body.ticket b); try reflexivity; now destruct (ticket existing).
  - simpl. intros [= <-]. unfold applyChanges. simpl. f_equal.
    destruct (Body.ticket b); try reflexivity; now destruct (ticket existing).
Qed.

Lemma map_update_same (i : string) (c : Changes) (t : Table) (existing : BugRow) :
  filter (hasId i) t = [existing] -> applyChanges c existing = existing ->
  map (fun x => if hasId i x then applyChanges c x else x) t = t.
Proof.
  intros Hf Hsame. rewrite <- (map_id t) at 2. apply map_ext_in.
  intros x Hx. destruct (hasId i x) eqn:Hid; [ | reflexivity ].
  now rewrite (filter_hasId_only i t existing x Hf Hx Hid).
Qed.

(** X4.  In a successful update every field the body omits keeps its stored
    value: a missing (or falsy) description, and a missing link, impact,
    likelihood, label, reference or [completedAt]; a ticket that is not
    sent as a string is kept too, except that a stored empty ticket becomes
    absent.  So an update with an empty body, of a record whose ticket is
    absent or non-empty, answers with the record as it was and leaves the
    store as it was. *)
Theorem update_keeps_omitted_fields (StringToNumber : string -> JsNum)
  (accepts : BugRow -> bool) (i : string) (b : Body.t) (db db' : Supabase)
  (row existing : BugRow) :
  getBug i db = Some existing ->
  putBug StringToNumber accepts i b db = (json 200 (BugJson row), db') ->
  (truthy (Body.description b) = false -> description row = description existing)
  /\ (Body.jiraLink b = JUndefined -> jiraLink row = jiraLink existing)
  /\ (Body.impact b = JUndefined -> impact row = impact existing)
  /\ (Body.likelihood b = JUndefined -> likelihood row = likelihood existing)
  /\ (Body.label b = JUndefined -> label row = label existing)
  /\ (Body.reference b = JUndefined -> reference row = reference existing)
  /\ (Body.completedAt b = JUndefined -> completedAt row = completedAt existing)
  /\ (isString (Body.ticket b) = false -> ticket row = ticketKept (ticket existing))
  /\ (b = Body.empty -> ticketStored (ticket existing) = true ->
      row = existing /\ db' = db).
Proof.
  intros Hget Hres.
  destruct (putBug_done StringToNumber accepts i b db db' row Hres)
    as (e & updated & Hget' & Hupd & Hrow & Hdb & _).
  rewrite Hget in Hget'. injection Hget' as <-.
  pose proof (updatedFields_all StringToNumber b existing updated Hupd) as Hall.
  rewrite <- Hrow in Hall.
  assert (Hempty : b = Body.empty -> ticketStored (ticket existing) = true ->
                   row = existing).
  { intros -> Hticket. rewrite Hall. simpl.
    destruct existing as [ ? tk ? ? ? ? ? ? ? ? ]. simpl in *. f_equal.
    destruct tk as [ s | ]; [ | reflexivity ]. simpl. unfold orNull.
    apply negb_true_iff in Hticket. now rewrite Hticket. }
  do 7 (split; [ rewrite Hall; simpl; now intros -> | ]).
  split; [ rewrite Hall; simpl; now destruct (Body.ticket b) | ].
  intros Hb Hticket. specialize (Hempty Hb Hticket).
  split; [ exact Hempty | ].
  destruct (getBug_found _ _ _ Hget) as (t & -> & Hf & _).
  rewrite Hdb. simpl. apply f_equal. apply map_update_same with (existing := existing).
  - exact Hf.
  - now rewrite <- Hrow.
Qed.

Lemma update_keeps_omitted_fields_witness :
  let db := Some [Demo.bug "a" 1 false; Demo.bug "b" 2 true] in
  putBug Demo.decimalToNumber Demo.acceptAll "b" Body.empty db
  = (json 200 (BugJson (Demo.bug "b" 2 true)), db).
Proof.
  intros db.
  destruct (update_keeps_omitted_fields Demo.decimalToNumber Demo.acceptAll "b"
              Body.empty db
              (snd (putBug Demo.decimalToNumber Demo.acceptAll "b" Body.empty db))
              (Demo.bug "b" 2 true) (Demo.bug "b" 2 true) eq_refl eq_refl)
    as (_ & _ & _ & _ & _ & _ & _ & _ & Hnoop).
  destruct (Hnoop eq_refl eq_refl) as [_ Hdb].
  rewrite <- Hdb at 2. reflexivity.
Defined.

Lemma labelPasses_check (v : JsValue) :
  truthy v && negb (includes ALLOWED_LABELS v) = negb (labelPasses v).
Proof.
  unfold labelPasses. now destruct (truthy v), (includes ALLOWED_LABELS v).
Qed.

(** X5.  The answers of [PUT /api/bugs/:id], in the order the handler
    decides them: a label that is not allowed is a 400 and a [completedAt]
    that is neither absent, null nor a number is a 400, both before the
    record is looked up (so also for an unknown id); then an unknown id is
    a 404; then a description that is truthy but not a string makes [trim]
    throw: the handler's promise rejects without a response of its own, and
    the client gets the error handler's 500 'internal error' where the
    framework forwards the rejection and no response where it does not;
    then the write is answered 200, or 500 when the table refuses it.
    Every outcome but the 200 leaves the store as it was. *)
Theorem update_answers (StringToNumber : string -> JsNum)
  (accepts : BugRow -> bool) (i : string) (b : Body.t) (db : Supabase) :
  (labelPasses (Body.label b) = false ->
   putBug StringToNumber accepts i b db = (errorJson 400 "invalid label", db))
  /\ (labelPasses (Body.label b) = true ->
      completedAtPasses (Body.completedAt b) = false ->
      putBug StringToNumber accepts i b db = (errorJson 400 "invalid completedAt", db))
  /\ (labelPasses (Body.label b) = true ->
      completedAtPasses (Body.completedAt b) = true ->
      getBug i db = None ->
      putBug StringToNumber accepts i b db = (errorJson 404 "not found", db))
  /\ (forall existing,
        labelPasses (Body.label b) = true ->
        completedAtPasses (Body.completedAt b) = true ->
        getBug i db = Some existing ->
        truthy (Body.description b) = true -> isString (Body.description b) = false ->
        putBug StringToNumber accepts i b db = (Rejected, db)
        /\ delivered true (fst (putBug StringToNumber accepts i b db))
           = Some (errorJson 500 "internal error")
        /\ delivered false (fst (putBug StringToNumber accepts i b db)) = None)
  /\ (forall existing updated,
        labelPasses (Body.label b) = true ->
        completedAtPasses (Body.completedAt b) = true ->
        getBug i db = Some existing ->
        updatedFields StringToNumber b existing = Some updated ->
        putBug StringToNumber accepts i b db
        = if accepts (applyChanges updated existing)
          then (json 200 (BugJson (applyChanges updated existing)),
                Some (map (fun x => if hasId i x then applyChanges updated x else x)
                          (rows db)))
          else (errorJson 500 "update failed", db))
  /\ ((forall row, fst (putBug StringToNumber accepts i b db) <> json 200 (BugJson row)) ->
      snd (putBug StringToNumber accepts i b db) = db).
Proof.
  unfold putBug. rewrite labelPasses_check.
  split; [ now intros -> | ].
  split; [ intros -> Hc; simpl; destruct (Body.completedAt b); try discriminate;
           reflexivity | ].
  split; [ intros -> Hc ->; simpl; destruct (Body.completedAt b); try discriminate;
           reflexivity | ].
  split.
  { intros existing -> Hc -> Ht Hs. simpl.
    assert (Hupd : updatedFields StringToNumber b existing = None).
    { unfold updatedFields. rewrite Ht.
      destruct (Body.description b); try discriminate; reflexivity. }
    rewrite Hupd. destruct (Body.completedAt b); try discriminate; repeat split. }
  split.
  { intros existing updated -> Hc Hget Hupd. simpl. rewrite Hget, Hupd.
    destruct (accepts (applyChanges updated existing)) eqn:Hacc.
    - destruct (updateBug_result accepts i updated db existing Hget Hacc) as (-> & _).
      destruct (Body.completedAt b); try discriminate; reflexivity.
    - rewrite (updateBug_refused accepts i updated db existing Hget Hacc).
      destruct (Body.completedAt b); try discriminate; reflexivity. }
  intros Hnot.
  destruct (putBug_cases StringToNumber accepts i b db)
    as [ [Hsame _] | (e & u & _ & _ & _ & Hput) ].
  - unfold putBug in Hsame. rewrite labelPasses_check in Hsame. exact Hsame.
  - exfalso. unfold putBug in Hput. rewrite labelPasses_check in Hput.
    apply (Hnot (applyChanges u e)). now rewrite Hput.
Qed.

End RouteFacts.

(** ** One record at a time, and the reference flag *)

Module ProtectionFacts.
Import Js Server StoreFacts LifecycleFacts CreateFacts UpdateFacts Invariants
       FrameFacts RouteFacts.

(** X6.  A request that addresses one record (update, complete, delete)
    leaves the lookup of every other id as it was, whatever it answers. *)
Theorem single_record_requests_frame (StringToNumber : string -> JsNum)
  (accepts : BugRow -> bool) (op : Op) (i j : string) (db : Supabase) :
  target op = Some i -> j <> i ->
  getBug j (snd (handle StringToNumber accepts op db)) = getBug j db.
Proof.
  intros Htarget Hne.
  destruct op as [ uuid now b | k b | k now | k | ]; simpl in Htarget;
    try discriminate; injection Htarget as ->; simpl.
  - destruct (putBug_cases StringToNumber accepts i b db)
      as [ [-> _] | (e & u & _ & _ & _ & ->) ]; [ reflexivity | ].
    simpl. rewrite (getBug_rows j db).
    apply getBug_after_update_other. congruence.
  - rewrite (getBug_rows j (snd _)), (getBug_rows j db).
    destruct (CompletedAtFacts.completeBug_rows accepts i now db) as [ -> | -> ];
      [ reflexivity | ].
    apply getBug_after_update_other. congruence.
  - rewrite (getBug_rows j (snd _)), (getBug_rows j db).
    destruct (CompletedAtFacts.deleteBugById_rows i db) as [ -> | -> ];
      [ reflexivity | ].
    apply getBug_after_delete_other. congruence.
Qed.

Lemma single_record_requests_frame_witness :
  let db := Some [Demo.bug "a" 1 false; Demo.bug "b" 2 false] in
  getBug "a" (snd (handle Demo.decimalToNumber Demo.acceptAll (OpComplete "b" 50) db))
  = Some (Demo.bug "a" 1 false)
  /\ getBug "a" (snd (handle Demo.decimalToNumber Demo.acceptAll (OpDelete "b") db))
     = Some (Demo.bug "a" 1 false).
Proof.
  intros db.
  assert (Hne : "a"%string <> "b"%string) by discriminate.
  split.
  - rewrite (single_record_requests_frame Demo.decimalToNumber Demo.acceptAll
               (OpComplete "b" 50) "b" "a" db eq_refl Hne).
    reflexivity.
  - rewrite (single_record_requests_frame Demo.decimalToNumber Demo.acceptAll
               (OpDelete "b") "b" "a" db eq_refl Hne).
    reflexivity.
Defined.

(** X7.  The protection of a record follows the reference flag written by
    the last successful update, and an update may write it either way:
    after an update that sent a truthy [reference], completing and deleting
    the record answer 403; after one that sent a falsy [reference] (other
    than leaving it out), deleting the record succeeds, also when the
    record was a reference record before. *)
Theorem reference_flag_follows_update (StringToNumber : string -> JsNum)
  (accepts : BugRow -> bool) (i : string) (b : Body.t) (db db' : Supabase)
  (row : BugRow) (now : Z) :
  putBug StringToNumber accepts i b db = (json 200 (BugJson row), db') ->
  Body.reference b <> JUndefined ->
  reference row = truthy (Body.reference b)
  /\ (truthy (Body.reference b) = true ->
      completeBug accepts i now db'
      = (errorJson 403 "reference bug cannot be completed", db')
      /\ deleteBugById i db'
         = (errorJson 403 "reference bug cannot be deleted", db'))
  /\ (truthy (Body.reference b) = false ->
      deleteBugById i db'
      = (Reply 204 [] NoBody, Some (filter (fun r => negb (hasId i r)) (rows db')))).
Proof.
  intros Hres Hsent.
  destruct (putBug_done StringToNumber accepts i b db db' row Hres)
    as (existing & updated & Hget & Hupd & Hrow & _ & Hget').
  assert (Href : reference row = truthy (Body.reference b)).
  { rewrite Hrow, (updatedFields_all StringToNumber b existing updated Hupd). simpl.
    now destruct (Body.reference b). }
  split; [ exact Href | ]. split.
  - intros Ht. rewrite Ht in Href. split.
    + now apply completeBug_reference with (bug := row).
    + now apply deleteBugById_reference with (bug := row).
  - intros Hf. rewrite Hf in Href.
    now apply deleteBugById_open with (bug := row).
Qed.

Lemma reference_flag_follows_update_witness :
  let db := Some [Demo.bug "r" 1 true] in
  let b := Body.mk JUndefined JUndefined JUndefined JUndefined JUndefined
                   JUndefined (JBool false) JUndefined JUndefined JUndefined in
  deleteBugById "r" db = (errorJson 403 "reference bug cannot be deleted", db)
  /\ deleteBugById "r" (snd (putBug Demo.decimalToNumber Demo.acceptAll "r" b db))
     = (Reply 204 [] NoBody, Some []).
Proof.
  intros db b. split; [ reflexivity | ].
  assert (Hsent : Body.reference b <> JUndefined) by discriminate.
  destruct (reference_flag_follows_update Demo.decimalToNumber Demo.acceptAll "r" b db
              (snd (putBug Demo.decimalToNumber Demo.acceptAll "r" b db))
              (Demo.bug "r" 1 false) 0 eq_refl Hsent)
    as (_ & _ & Hdelete).
  rewrite (Hdelete eq_refl). reflexivity.
Defined.

Lemma filter_all {A : Type} (f : A -> bool) (l : list A) :
  filter f (filter f l) = filter f l.
Proof.
  induction l as [ | x l IH ]; simpl; [ reflexivity | ].
  destruct (f x) eqn:E; simpl; rewrite ?E, IH; reflexivity.
Qed.

Lemma filter_same_length {A : Type} (f : A -> bool) (l : list A) :
  List.length (filter f l) = List.length l -> filter f l = l.
Proof.
  induction l as [ | x l IH ]; simpl; [ reflexivity | ].
  destruct (f x); simpl; intros H.
  - f_equal. apply IH. lia.
  - pose proof (filter_length_le f l). lia.
Qed.

(** X8.  After a bulk delete, whatever it answered, only reference records
    are left, and a second bulk delete answers 403 and changes nothing. *)
Theorem bulk_delete_twice (db : Supabase) :
  let db1 := snd (deleteAllBugs db) in
  Forall (fun r => reference r = true) (rows db1)
  /\ deleteAllBugs db1
     = (errorJson 403 "all bugs are reference bugs; deletion aborted", db1).
Proof.
  intros db1. subst db1.
  assert (Hall : filter reference (rows (snd (deleteAllBugs db)))
                 = rows (snd (deleteAllBugs db))).
  { destruct (Nat.eq_dec (List.length (filter reference (rows db)))
                         (List.length (rows db))) as [ Heq | Hne ].
    - rewrite (deleteAllBugs_forbidden db Heq). simpl.
      now apply filter_same_length.
    - rewrite (deleteAllBugs_deletes db Hne). simpl. apply filter_all. }
  split.
  - rewrite <- Hall. apply Forall_forall. intros r Hr.
    apply filter_In in Hr. tauto.
  - apply deleteAllBugs_forbidden. now rewrite Hall.
Qed.

End ProtectionFacts.

(** ** Invariants over sequences of requests *)

Module SequenceFacts.
Import Js Server StoreFacts LifecycleFacts CreateFacts UpdateFacts Invariants
       FrameFacts RouteFacts.

Section Steps.

Variable StringToNumber : string -> JsNum.
Variable accepts : BugRow -> bool.

(** The rows after a create, with what the request passed. *)
Lemma postBugs_stored (uuid : string) (now : Z) (b : Body.t) (db : Supabase) :
  rows (snd (postBugs StringToNumber accepts uuid now b db)) = rows db
  \/ exists d,
       labelPasses (Body.label b) = true
       /\ rows (snd (postBugs StringToNumber accepts uuid now b db))
          = rows db ++ [newBug StringToNumber uuid now b d].
Proof.
  destruct (descriptionPasses (Body.description b) && labelPasses (Body.label b)) eqn:E.
  - destruct (postBugs_passes StringToNumber accepts uuid now b db E) as (d & _ & ->).
    apply andb_true_iff in E. destruct E as [_ Hl].
    unfold createBug. destruct db as [ t | ]; [ | now left ].
    destruct (accepts (newBug StringToNumber uuid now b d)); [ | now left ].
    right. exists d. auto.
  - destruct (postBugs_rejects StringToNumber accepts uuid now b db E) as (msg & ->).
    now left.
Qed.

(** The rows after an update, with what the request passed. *)
Lemma putBug_stored (i : string) (b : Body.t) (db : Supabase) :
  rows (snd (putBug StringToNumber accepts i b db)) = rows db
  \/ exists existing updated,
       getBug i db = Some existing
       /\ updatedFields StringToNumber b existing = Some updated
       /\ labelPasses (Body.label b) = true
       /\ completedAtPasses (Body.completedAt b) = true
       /\ rows (snd (putBug StringToNumber accepts i b db))
          = map (fun x => if hasId i x then applyChanges updated x else x) (rows db).
Proof.
  destruct (putBug_cases StringToNumber accepts i b db)
    as [ [-> _] | (e & u & Hget & Hupd & Hc & Hput) ]; [ now left | ].
  right. exists e, u. rewrite Hput. simpl.
  split; [ exact Hget | ]. split; [ exact Hupd | ].
  split; [ | split; [ | reflexivity ] ].
  - destruct (labelPasses (Body.label b)) eqn:Hl; [ reflexivity | ].
    unfold putBug in Hput. rewrite labelPasses_check, Hl in Hput. discriminate.
  - now destruct (Body.completedAt b).
Qed.

Lemma labelOrNull_stored (v : JsValue) :
  labelPasses v = true -> labelStored (labelOrNull v) = true.
Proof.
  unfold labelPasses, labelOrNull.
  destruct (truthy v); simpl; [ | reflexivity ].
  destruct v; simpl; try discriminate. auto.
Qed.

Lemma orNull_stored (s : string) : ticketStored (orNull s) = true.
Proof. unfold orNull. destruct (s =? "")%string eqn:E; simpl; [ | rewrite E ]; reflexivity. Qed.

Lemma orNullV_stored (v : JsValue) : linkStored (orNullV v) = true.
Proof.
  unfold orNullV. destruct (truthy v) eqn:E; [ | reflexivity ].
  destruct v; simpl in *; auto.
Qed.

Lemma newBug_normalised (uuid : string) (now : Z) (b : Body.t) (d : string) :
  labelPasses (Body.label b) = true ->
  rowNormalised (newBug StringToNumber uuid now b d) = true.
Proof.
  intros Hl. unfold rowNormalised, newBug. simpl.
  now rewrite labelOrNull_stored, orNull_stored, orNullV_stored.
Qed.

Lemma updated_normalised (b : Body.t) (existing : BugRow) (updated : Changes) :
  updatedFields StringToNumber b existing = Some updated ->
  labelPasses (Body.label b) = true ->
  rowNormalised existing = true ->
  rowNormalised (applyChanges updated existing) = true.
Proof.
  intros Hupd Hl Hex.
  rewrite (updatedFields_all StringToNumber b existing updated Hupd).
  unfold rowNormalised in *. simpl.
  apply andb_true_iff in Hex. destruct Hex as [Hex Hlink].
  apply andb_true_iff in Hex. destruct Hex as [Hlabel Hticket].
  repeat (apply andb_true_iff; split).
  - destruct (Body.label b) eqn:E; try exact Hlabel;
      rewrite <- E; apply labelOrNull_stored; now rewrite E.
  - destruct (Body.ticket b); try apply orNull_stored;
      destruct (ticket existing); simpl; try reflexivity; apply orNull_stored.
  - destruct (Body.jiraLink b) eqn:E; try exact Hlink;
      rewrite <- E; apply orNullV_stored.
Qed.

Lemma handle_keeps_normalised (op : Op) (db : Supabase) :
  Forall (fun r => rowNormalised r = true) (rows db) ->
  Forall (fun r => rowNormalised r = true)
         (rows (snd (handle StringToNumber accepts op db))).
Proof.
  intros Hdb.
  destruct op as [ uuid now b | j b | j now | j | ]; simpl.
  - destruct (postBugs_stored uuid now b db) as [ -> | (d & Hl & ->) ];
      [ exact Hdb | ].
    apply Forall_app. split; [ exact Hdb | ].
    constructor; [ now apply newBug_normalised | constructor ].
  - destruct (putBug_stored j b db)
      as [ -> | (e & u & Hget & Hupd & Hl & _ & ->) ]; [ exact Hdb | ].
    apply Forall_map. rewrite Forall_forall in Hdb |- *.
    intros x Hx. destruct (hasId j x) eqn:Hj; [ | now apply Hdb ].
    destruct (getBug_found _ _ _ Hget) as (t & -> & Hf & Hin & _).
    rewrite (filter_hasId_only j t e x Hf Hx Hj).
    apply updated_normalised with (b := b); auto.
  - destruct (CompletedAtFacts.completeBug_rows accepts j now db) as [ -> | -> ];
      [ exact Hdb | ].
    apply Forall_map. rewrite Forall_forall in Hdb |- *.
    intros x Hx. destruct (hasId j x); [ | now apply Hdb ].
    exact (Hdb x Hx).
  - destruct (CompletedAtFacts.deleteBugById_rows j db) as [ -> | -> ];
      [ exact Hdb | ].
    now apply CompletedAtFacts.Forall_filter_keeps.
  - destruct (CompletedAtFacts.deleteAllBugs_rows db) as [ -> | -> ];
      [ exact Hdb | ].
    now apply CompletedAtFacts.Forall_filter_keeps.
Qed.

(** The identities after one request: those before, and that of a create. *)
Lemma handle_stamps (op : Op) (db : Supabase) (st : string * Z) :
  In st (map stamp (rows (snd (handle StringToNumber accepts op db)))) ->
  In st (map stamp (rows db))
  \/ exists b, op = OpCreate (fst st) (snd st) b.
Proof.
  destruct op as [ uuid now b | j b | j now | j | ]; simpl.
  - destruct (postBugs_stored uuid now b db) as [ -> | (d & _ & ->) ];
      [ now left | ].
    rewrite map_app, in_app_iff. simpl.
    intros [ H | [ <- | [] ] ]; [ now left | ].
    right. exists b. reflexivity.
  - destruct (putBug_stored j b db) as [ -> | (e & u & _ & _ & _ & _ & ->) ];
      [ now left | ].
    rewrite map_map. intros H. left.
    erewrite map_ext; [ exact H | ].
    intros x. simpl. now destruct (hasId j x).
  - destruct (CompletedAtFacts.completeBug_rows accepts j now db) as [ -> | -> ];
      [ now left | ].
    rewrite map_map. intros H. left.
    erewrite map_ext; [ exact H | ].
    intros x. simpl. now destruct (hasId j x).
  - destruct (CompletedAtFacts.deleteBugById_rows j db) as [ -> | -> ];
      [ now left | ].
    intros H. left. apply in_map_iff in H. destruct H as (x & <- & Hx).
    apply filter_In in Hx. apply in_map. tauto.
  - destruct (CompletedAtFacts.deleteAllBugs_rows db) as [ -> | -> ];
      [ now left | ].
    intros H. left. apply in_map_iff in H. destruct H as (x & <- & Hx).
    apply filter_In in Hx. apply in_map. tauto.
Qed.

End Steps.

(** X9.  Every stored record keeps its optional text columns in normal
    form through any sequence of requests: the label is absent or one of
    the six allowed labels, the ticket is absent or a non-empty string, the
    link is null or a truthy value.  In particular this holds for every
    table the handlers filled from empty. *)
Theorem stored_text_is_normalised (StringToNumber : string -> JsNum)
  (accepts : BugRow -> bool) (ops : list Op) (db : Supabase) :
  Forall (fun r => rowNormalised r = true) (rows db) ->
  Forall (fun r => rowNormalised r = true)
         (rows (run StringToNumber accepts ops db)).
Proof.
  revert db. induction ops as [ | op ops IH ]; intros db Hdb; simpl;
    [ exact Hdb | ].
  apply IH. now apply handle_keeps_normalised.
Qed.

Lemma stored_text_is_normalised_witness :
  let create :=
    OpCreate "u" 1
      (Body.mk (JString "  ") (JString "x") (JString "") JUndefined JUndefined
               (JString "TSO") JUndefined JUndefined JUndefined JUndefined) in
  let edit :=
    OpUpdate "u"
      (Body.mk (JString " T-1 ") JUndefined JUndefined JUndefined JUndefined
               (JString "") JUndefined JUndefined JUndefined JUndefined) in
  Forall (fun r => rowNormalised r = true)
         (rows (run Demo.decimalToNumber Demo.acceptAll [create; edit] (Some []))).
Proof.
  intros create edit.
  apply (stored_text_is_normalised Demo.decimalToNumber Demo.acceptAll
           [create; edit] (Some [])).
  constructor.
Defined.

Lemma run_stamps (StringToNumber : string -> JsNum) (accepts : BugRow -> bool)
  (ops : list Op) (db : Supabase) (st : string * Z) :
  In st (map stamp (rows (run StringToNumber accepts ops db))) ->
  In st (map stamp (rows db))
  \/ exists b, In (OpCreate (fst st) (snd st) b) ops.
Proof.
  revert db. induction ops as [ | op ops IH ]; intros db Hin; simpl in *;
    [ now left | ].
  destruct (IH _ Hin) as [ Hbefore | (b & Hb) ].
  - destruct (handle_stamps StringToNumber accepts op db st Hbefore)
      as [ H | (b & ->) ]; [ now left | ].
    right. exists b. now left.
  - right. exists b. now right.
Qed.

(** X10.  The id and [createdAt] of a record are set once, by the create:
    after any sequence of requests, every stored record carries the id and
    creation time of a record that was stored at the start, or those of a
    create of the sequence. *)
Theorem createdAt_set_once (StringToNumber : string -> JsNum)
  (accepts : BugRow -> bool) (ops : list Op) (db : Supabase) (r : BugRow) :
  In r (rows (run StringToNumber accepts ops db)) ->
  In (stamp r) (map stamp (rows db))
  \/ exists b, In (OpCreate (id r) (createdAt r) b) ops.
Proof.
  intros Hin. apply (in_map stamp) in Hin.
  exact (run_stamps StringToNumber accepts ops db (stamp r) Hin).
Qed.

Lemma createdAt_set_once_witness :
  let db := Some [Demo.bug "a" 1 false] in
  let ops := [ OpUpdate "a" (Demo.withDescription (JString "edited"));
               OpComplete "a" 500 ] in
  let r := completedAtTime 500
             (applyChanges
                {| setTicket := None; setDescription := Some "edited"%string;
                   setJiraLink := None; setImpact := None; setLikelihood := None;
                   setLabel := None; setReference := None; setCompletedAt := None |}
                (Demo.bug "a" 1 false)) in
  In (stamp r) (map stamp (rows db))
  \/ exists b, In (OpCreate (id r) (createdAt r) b) ops.
Proof.
  intros db ops r.
  apply (createdAt_set_once Demo.decimalToNumber Demo.acceptAll ops db r).
  simpl. left. reflexivity.
Defined.

Lemma single_record_requests_frame_aux (StringToNumber : string -> JsNum)
  (accepts : BugRow -> bool) (j i : string) (b : Body.t) (db : Supabase) :
  j <> i ->
  getBug i (snd (putBug StringToNumber accepts j b db)) = getBug i db.
Proof.
  intros Hne.
  destruct (putBug_cases StringToNumber accepts j b db)
    as [ [-> _] | (e & u & _ & _ & _ & ->) ]; [ reflexivity | ].
  simpl. rewrite (getBug_rows i db). now apply getBug_after_update_other.
Qed.

Lemma handle_keeps_reference_record (StringToNumber : string -> JsNum)
  (accepts : BugRow -> bool) (i : string) (bug : BugRow) (op : Op) (db : Supabase) :
  getBug i db = Some bug -> reference bug = true ->
  updatesId i op = false -> createsId i op = false ->
  getBug i (snd (handle StringToNumber accepts op db)) = Some bug.
Proof.
  intros Hget Href Hupd Hcre.
  destruct op as [ uuid now b | j b | j now | j | ]; simpl in *.
  - rewrite (getBug_rows i (snd _)).
    destruct (postBugs_stored StringToNumber accepts uuid now b db)
      as [ -> | (d & _ & ->) ]; [ now rewrite <- getBug_rows | ].
    rewrite getBug_after_insert_other; [ now rewrite <- getBug_rows | ].
    simpl. now apply String.eqb_neq.
  - apply String.eqb_neq in Hupd.
    rewrite (single_record_requests_frame_aux StringToNumber accepts); auto.
  - destruct (String.eqb_spec j i) as [ -> | Hne ].
    + now rewrite (completeBug_reference accepts i now db bug Hget Href).
    + rewrite (getBug_rows i (snd _)).
      destruct (CompletedAtFacts.completeBug_rows accepts j now db) as [ -> | -> ];
        [ now rewrite <- getBug_rows | ].
      unfold completedAtTime.
      rewrite getBug_after_update_other; [ now rewrite <- getBug_rows | exact Hne ].
  - destruct (String.eqb_spec j i) as [ -> | Hne ].
    + now rewrite (deleteBugById_reference i db bug Hget Href).
    + rewrite (getBug_rows i (snd _)).
      destruct (CompletedAtFacts.deleteBugById_rows j db) as [ -> | -> ];
        [ now rewrite <- getBug_rows | ].
      rewrite getBug_after_delete_other; [ now rewrite <- getBug_rows | exact Hne ].
  - rewrite (getBug_rows i (snd _)).
    destruct (CompletedAtFacts.deleteAllBugs_rows db) as [ -> | -> ];
      [ now rewrite <- getBug_rows | ].
    apply getBug_after_bulk_delete; [ now rewrite <- getBug_rows | exact Href ].
Qed.

(** X11.  A reference record is permanent short of an edit: through any
    sequence of creates (of other ids), completions, deletions, bulk
    deletions and updates of other records, it stays in the store exactly
    as it was and can be read under its id. *)
Theorem reference_record_is_permanent (StringToNumber : string -> JsNum)
  (accepts : BugRow -> bool) (i : string) (bug : BugRow) (ops : list Op)
  (db : Supabase) :
  getBug i db = Some bug -> reference bug = true ->
  Forall (fun op => updatesId i op = false /\ createsId i op = false) ops ->
  getBug i (run StringToNumber accepts ops db) = Some bug
  /\ getBugById i (run StringToNumber accepts ops db)
     = (json 200 (BugJson bug), run StringToNumber accepts ops db).
Proof.
  intros Hget Href Hops.
  assert (H : getBug i (run StringToNumber accepts ops db) = Some bug).
  { revert db Hget. induction Hops as [ | op ops [Hu Hc] _ IH ]; intros db Hget;
      simpl; [ exact Hget | ].
    apply IH. now apply handle_keeps_reference_record. }
  split; [ exact H | ]. unfold getBugById. now rewrite H.
Qed.

Lemma reference_record_is_permanent_witness :
  let db := Some [Demo.bug "a" 1 false; Demo.bug "r" 2 true] in
  let ops := [ OpComplete "r" 10; OpDelete "r"; OpDeleteAll;
               OpCreate "n" 20 (Demo.withDescription (JString "new"));
               OpUpdate "n" (Demo.withDescription (JString "newer")) ] in
  getBug "r" (run Demo.decimalToNumber Demo.acceptAll ops db) = Some (Demo.bug "r" 2 true).
Proof.
  intros db ops.
  apply (reference_record_is_permanent Demo.decimalToNumber Demo.acceptAll "r"
           (Demo.bug "r" 2 true) ops db); [ reflexivity | reflexivity | ].
  repeat constructor.
Defined.

Lemma NoDup_filter_prefix (p : BugRow -> bool) (l : list BugRow) (m : list string) :
  NoDup (map id l ++ m) -> NoDup (map id (filter p l) ++ m).
Proof.
  induction l as [ | x l IH ]; simpl; [ auto | ].
  intros Hnd. inversion Hnd as [ | ? ? Hnotin Hrest ]; subst.
  destruct (p x); simpl; [ | now apply IH ].
  constructor; [ | now apply IH ].
  intros Hin. apply Hnotin. apply in_app_iff in Hin. apply in_app_iff.
  destruct Hin as [ Hin | Hin ]; [ left | now right ].
  apply in_map_iff in Hin. destruct Hin as (y & Hy & Hin).
  apply filter_In in Hin. apply in_map_iff. exists y. tauto.
Qed.

Lemma ids_after_update (i : string) (c : Changes) (l : list BugRow) :
  map id (map (fun x => if hasId i x then applyChanges c x else x) l) = map id l.
Proof.
  rewrite map_map. apply map_ext. intros x. now destruct (hasId i x).
Qed.

(** One request keeps the ids distinct, from each other and from the ids
    still to be generated. *)
Lemma handle_keeps_ids_distinct (StringToNumber : string -> JsNum)
  (accepts : BugRow -> bool) (op : Op) (ops : list Op) (db : Supabase) :
  NoDup (ids db ++ createdIds (op :: ops)) ->
  NoDup (ids (snd (handle StringToNumber accepts op db)) ++ createdIds ops).
Proof.
  unfold ids.
  destruct op as [ uuid now b | j b | j now | j | ]; simpl; intros Hnd.
  - destruct (postBugs_stored StringToNumber accepts uuid now b db)
      as [ -> | (d & _ & ->) ].
    + now apply NoDup_remove_1 in Hnd.
    + rewrite map_app. simpl. now rewrite <- app_assoc.
  - destruct (putBug_stored StringToNumber accepts j b db)
      as [ -> | (e & u & _ & _ & _ & _ & ->) ]; [ exact Hnd | ].
    now rewrite ids_after_update.
  - destruct (CompletedAtFacts.completeBug_rows accepts j now db) as [ -> | -> ];
      [ exact Hnd | ].
    unfold completedAtTime. now rewrite ids_after_update.
  - destruct (CompletedAtFacts.deleteBugById_rows j db) as [ -> | -> ];
      [ exact Hnd | ].
    now apply NoDup_filter_prefix.
  - destruct (CompletedAtFacts.deleteAllBugs_rows db) as [ -> | -> ];
      [ exact Hnd | ].
    now apply NoDup_filter_prefix.
Qed.

(** X12.  When the ids of the table are distinct and the ids generated for
    the creates are new and distinct, the ids stay distinct through any
    sequence of requests, and every stored record can be read back under
    its id. *)
Theorem records_stay_retrievable (StringToNumber : string -> JsNum)
  (accepts : BugRow -> bool) (ops : list Op) (db : Supabase) :
  NoDup (ids db ++ createdIds ops) ->
  NoDup (ids (run StringToNumber accepts ops db))
  /\ Forall (fun r => getBugById (id r) (run StringToNumber accepts ops db)
                      = (json 200 (BugJson r), run StringToNumber accepts ops db))
            (rows (run StringToNumber accepts ops db)).
Proof.
  intros Hnd.
  assert (H : NoDup (ids (run StringToNumber accepts ops db))).
  { revert db Hnd. induction ops as [ | op ops IH ]; intros db Hnd; simpl.
    - simpl in Hnd. now rewrite app_nil_r in Hnd.
    - apply IH. now apply handle_keeps_ids_distinct. }
  split; [ exact H | ].
  apply Forall_forall. intros r Hr. unfold getBugById.
  pose proof (getBug_stored _ r Hr H) as Hfound. unfold Table in Hfound.
  now rewrite getBug_rows, Hfound.
Qed.

Lemma records_stay_retrievable_witness :
  let db := Some [Demo.bug "a" 1 false; Demo.bug "b" 2 true] in
  let ops := [ OpCreate "c" 3 (Demo.withDescription (JString "third"));
               OpDelete "a";
               OpCreate "d" 4 (Demo.withDescription (JString "fourth"));
               OpComplete "c" 9 ] in
  NoDup (ids (run Demo.decimalToNumber Demo.acceptAll ops db))
  /\ ids (run Demo.decimalToNumber Demo.acceptAll ops db) = ["b"; "c"; "d"]%string.
Proof.
  intros db ops.
  assert (Hnd : NoDup (ids db ++ createdIds ops)).
  { simpl. repeat constructor; simpl; intuition discriminate. }
  destruct (records_stay_retrievable Demo.decimalToNumber Demo.acceptAll ops db Hnd)
    as (H & _).
  split; [ exact H | reflexivity ].
Defined.

End SequenceFacts.

(** ** The list route and requests without a token *)

Module ApiFacts.
Import Js Server StoreFacts Invariants.

Lemma insertByCreatedAt_sortInsert (r : BugRow) (l : list BugRow) :
  insertByCreatedAt r l
  = Client.sortInsert (fun a b => createdAt a - createdAt b) r l.
Proof.
  induction l as [ | x l IH ]; simpl; [ reflexivity | ].
  rewrite IH.
  destruct (Z.leb_spec (createdAt r) (createdAt x)),
           (Z.leb_spec (createdAt r - createdAt x) 0); try lia; reflexivity.
Qed.

Lemma orderByCreatedAt_arraySort (l : list BugRow) :
  orderByCreatedAt l = Client.arraySort (fun a b => createdAt a - createdAt b) l.
Proof.
  induction l as [ | r l IH ]; simpl; [ reflexivity | ].
  now rewrite insertByCreatedAt_sortInsert, IH.
Qed.

(** X13.  [GET /api/bugs] always answers 200 and leaves the store as it
    is.  Its list holds every stored record exactly once, by ascending
    creation time (oldest first); it is empty when the store client is not
    configured, where reading a single record answers 404. *)
Theorem list_route_orders_by_creation (db : Supabase) :
  exists bugs,
    getBugs db = (json 200 (BugsJson bugs), db)
    /\ Permutation (rows db) bugs
    /\ StronglySorted (fun a b => createdAt a <= createdAt b) bugs
    /\ (db = None -> bugs = []
        /\ forall i, getBugById i db = (errorJson 404 "bug not found", db)).
Proof.
  exists (listBugs db). split; [ reflexivity | ].
  destruct db as [ t | ]; simpl.
  - rewrite orderByCreatedAt_arraySort.
    assert (Hkey : forall a b : BugRow,
               createdAt a - createdAt b = 1 * (createdAt a - createdAt b))
      by (intros; lia).
    split; [ apply ViewFacts.arraySort_perm | ].
    split; [ | discriminate ].
    pose proof (ViewFacts.arraySort_sorted createdAt
                  (fun a b => createdAt a - createdAt b) 1 (or_introl eq_refl)
                  Hkey t) as H.
    eapply StronglySorted_ind
      with (P := StronglySorted (fun a b => createdAt a <= createdAt b));
      [ constructor | | exact H ].
    intros a l _ IH Hall. constructor; [ exact IH | ].
    eapply Forall_impl; [ | exact Hall ].
    intros b Hb. unfold Client.precedes in Hb. lia.
  - repeat split; constructor.
Qed.


Section Gate.

Variable jwtSign : JsValue -> string -> string -> Z -> string.
Variable jwtVerify : string -> string -> Z -> bool.
Variable cfg : Config.
Variable StringToNumber : string -> JsNum.
Variable accepts : BugRow -> bool.



End Gate.



End ApiFacts.

(** ** Colours, tabs, label filters and the countdown *)

Module ClientViewFacts.
Import Js Client ClientViews.

(** X15.  The colour of a matrix cell is decided by the risk category of
    its score, and the category by the colour: two scores get the same
    colour exactly when they get the same category (green for Laag, yellow
    for Gemiddeld, orange for Hoog, red for Kritiek). *)
Theorem cell_colour_follows_category (s1 s2 : Z) :
  (Risk.cellColor s1 = Risk.cellColor s2 <-> Risk.riskCategory s1 = Risk.riskCategory s2)
  /\ (Risk.cellColor s1 = "#d1fae5"%string <-> Risk.riskCategory s1 = "Laag"%string)
  /\ (Risk.cellColor s1 = "#fef9c3"%string <-> Risk.riskCategory s1 = "Gemiddeld"%string)
  /\ (Risk.cellColor s1 = "#ffedd5"%string <-> Risk.riskCategory s1 = "Hoog"%string)
  /\ (Risk.cellColor s1 = "#fee2e2"%string <-> Risk.riskCategory s1 = "Kritiek"%string).
Proof.
  unfold Risk.cellColor, Risk.riskCategory.
  destruct (s1 <=? 4), (s1 <=? 8), (s1 <=? 12), (s2 <=? 4), (s2 <=? 8), (s2 <=? 12);
    repeat split; intros H; try reflexivity; discriminate H.
Qed.

Lemma status_tabs_exclusive (b : BugRecord) :
  statusOk TabOpen b = negb (statusOk TabCompleted b).
Proof. reflexivity. Qed.

Lemma open_completed_perm (bugs : list BugRecord) :
  Permutation bugs
    (filter (fun b => negb (isCompleted b)) bugs ++ filter isCompleted bugs).
Proof.
  induction bugs as [ | b l IH ]; simpl; [ constructor | ].
  destruct (isCompleted b); simpl.
  - now apply Permutation_cons_app.
  - now apply perm_skip.
Qed.

(** X16.  The two tabs split the bugs: every bug is shown under exactly one
    of Open and Completed (label filters aside), the two badge counts add
    up to the number of bugs, and a bug whose [completedAt] is the
    timestamp 0 counts as open. *)
Theorem status_tabs_partition (bugs : list BugRecord) :
  Permutation bugs (displayedBugs bugs TabOpen [] ++ displayedBugs bugs TabCompleted [])
  /\ (openCount bugs + completedCount bugs = List.length bugs)%nat
  /\ List.length (displayedBugs bugs TabOpen []) = openCount bugs
  /\ List.length (displayedBugs bugs TabCompleted []) = completedCount bugs
  /\ (forall b, In b bugs ->
        (In b (displayedBugs bugs TabOpen []) /\ ~ In b (displayedBugs bugs TabCompleted []))
        \/ (In b (displayedBugs bugs TabCompleted []) /\ ~ In b (displayedBugs bugs TabOpen [])))
  /\ (forall b, In b bugs -> completedAt b = Some 0 -> In b (displayedBugs bugs TabOpen [])).
Proof.
  assert (Hopen : displayedBugs bugs TabOpen [] = filter (fun b => negb (isCompleted b)) bugs).
  { unfold displayedBugs. apply filter_ext. intros b. simpl. apply andb_true_r. }
  assert (Hdone : displayedBugs bugs TabCompleted [] = filter isCompleted bugs).
  { unfold displayedBugs. apply filter_ext. intros b. simpl. apply andb_true_r. }
  rewrite Hopen, Hdone. unfold openCount, completedCount.
  split; [ apply open_completed_perm | ].
  pose proof (open_completed_perm bugs) as Hperm.
  split; [ rewrite <- length_app; symmetry; now apply Permutation_length | ].
  split; [ reflexivity | ]. split; [ reflexivity | ].
  split.
  - intros b Hb. destruct (isCompleted b) eqn:E; [ right | left ]; split;
      rewrite filter_In; try tauto; rewrite E; simpl; intuition discriminate.
  - intros b Hb Hz. apply filter_In. split; [ exact Hb | ].
    unfold isCompleted. now rewrite Hz.
Qed.

Lemma toggle_in (l : string) (prev : list string) (x : string) :
  In x (toggleLabelFilter l prev)
  <-> (x <> l /\ In x prev) \/ (x = l /\ ~ In l prev).
Proof.
  unfold toggleLabelFilter.
  destruct (existsb (String.eqb l) prev) eqn:E.
  - apply existsb_exists in E. destruct E as (y & Hy & Heq).
    apply String.eqb_eq in Heq. subst y.
    rewrite filter_In, negb_true_iff, String.eqb_neq. tauto.
  - assert (Hnot : ~ In l prev).
    { intros Hin. assert (existsb (String.eqb l) prev = true)
        by (apply existsb_exists; exists l; split; [ exact Hin | apply String.eqb_refl ]).
      congruence. }
    rewrite in_app_iff. simpl.
    destruct (string_dec x l) as [ -> | Hne ]; [ tauto | ].
    split; [ intros [ H | [ H | [] ] ]; [ tauto | congruence ] | tauto ].
Qed.

(** X17.  Toggling a label filter removes the label when it is selected
    (every occurrence) and appends it when it is not; the other labels
    stay, a selection without repeats stays without repeats, and toggling
    the same label twice gives back the same set of labels (the very same
    list when the label was not selected). *)
Theorem toggle_label_filter (l : string) (prev : list string) :
  (forall x, In x (toggleLabelFilter l prev)
             <-> (x <> l /\ In x prev) \/ (x = l /\ ~ In l prev))
  /\ (NoDup prev -> NoDup (toggleLabelFilter l prev))
  /\ (forall x, In x (toggleLabelFilter l (toggleLabelFilter l prev)) <-> In x prev)
  /\ (~ In l prev -> toggleLabelFilter l (toggleLabelFilter l prev) = prev).
Proof.
  split; [ apply toggle_in | ].
  split; [ | split ].
  - intros Hnd. unfold toggleLabelFilter.
    destruct (existsb (String.eqb l) prev) eqn:E.
    + now apply NoDup_filter.
    + apply NoDup_app; [ exact Hnd | repeat constructor; auto | ].
      intros x Hx [ Heq | [] ]. subst x.
      assert (existsb (String.eqb l) prev = true)
        by (apply existsb_exists; exists l; split; [ exact Hx | apply String.eqb_refl ]).
      congruence.
  - intros x. rewrite toggle_in. rewrite !toggle_in.
    destruct (string_dec x l) as [ -> | Hne ]; [ | tauto ].
    destruct (in_dec string_dec l prev); tauto.
  - intros Hnot. unfold toggleLabelFilter at 2.
    replace (existsb (String.eqb l) prev) with false.
    + unfold toggleLabelFilter.
      replace (existsb (String.eqb l) (prev ++ [l])) with true.
      * rewrite filter_app. simpl. rewrite String.eqb_refl. simpl.
        rewrite app_nil_r. apply forallb_filter_id. apply forallb_forall.
        intros x Hx. apply negb_true_iff, String.eqb_neq. congruence.
      * symmetry. apply existsb_exists. exists l.
        split; [ apply in_app_iff; right; now left | apply String.eqb_refl ].
    + symmetry. apply not_true_is_false. intros E.
      apply existsb_exists in E. destruct E as (y & Hy & Heq).
      apply String.eqb_eq in Heq. now subst y.
Qed.

Lemma minutes_seconds (r : Z) :
  0 < r ->
  0 <= (r / 1000) mod 60 <= 59
  /\ 0 <= r / 60000
  /\ (r / 60000) * 60 + (r / 1000) mod 60 = r / 1000.
Proof.
  intros Hr.
  assert (H60 : r / 60000 = r / 1000 / 60)
    by (change 60000 with (1000 * 60); rewrite Z.div_div; lia).
  pose proof (Z.mod_pos_bound (r / 1000) 60 ltac:(lia)) as Hmod.
  pose proof (Z.div_mod (r / 1000) 60 ltac:(lia)) as Hdm.
  pose proof (Z.div_pos r 60000 ltac:(lia) ltac:(lia)) as Hpos.
  lia.
Qed.

(** X18.  The session countdown shows nothing exactly when no login time is
    stored or the five minutes are over; otherwise it shows the remaining
    time as minutes and seconds: the seconds lie between 0 and 59, minutes
    and seconds add up to the whole seconds that remain, and unless the
    clock is behind the login time the display is at most 5:00.  For a
    logged-in user with a stored login time it shows nothing exactly when
    the auto-logout effect logs out. *)
Theorem countdown_shows_remaining_time (now : Z) (s : LocalStorage) :
  (SessionCountdown now s = None
   <-> storedTs s = 0 \/ SESSION_MS <= now - storedTs s)
  /\ (forall minutes seconds,
        SessionCountdown now s = Some (minutes, seconds) ->
        0 <= seconds <= 59 /\ 0 <= minutes
        /\ minutes * 60 + seconds = (SESSION_MS - (now - storedTs s)) / 1000
        /\ (storedTs s <= now -> minutes <= 5 /\ (minutes = 5 -> seconds = 0)))
  /\ (forall st u,
        authUser st = Some u -> u <> ""%string -> storage st = s ->
        storedTs s <> 0 ->
        (SessionCountdown now s = None
         <-> autoLogoutEffect now st = (handleLogout st, None))).
Proof.
  assert (Hnone : SessionCountdown now s = None
                  <-> storedTs s = 0 \/ SESSION_MS <= now - storedTs s).
  { unfold SessionCountdown, countdownRemaining.
    destruct (Z.eqb_spec (storedTs s) 0) as [ E | E ]; [ simpl; tauto | ].
    destruct (Z.ltb_spec 0 (SESSION_MS - (now - storedTs s))) as [ Hlt | Hge ].
    - destruct (Z.leb_spec (SESSION_MS - (now - storedTs s)) 0); [ lia | ].
      split; [ discriminate | lia ].
    - simpl. split; [ lia | reflexivity ]. }
  split; [ exact Hnone | ]. split.
  - intros minutes seconds. unfold SessionCountdown, countdownRemaining.
    destruct (Z.eqb_spec (storedTs s) 0) as [ E | E ]; [ discriminate | ].
    destruct (Z.ltb_spec 0 (SESSION_MS - (now - storedTs s))) as [ Hlt | Hge ];
      [ | discriminate ].
    destruct (Z.leb_spec (SESSION_MS - (now - storedTs s)) 0); [ lia | ].
    destruct (minutes_seconds (SESSION_MS - (now - storedTs s)) Hlt) as (Hs & Hm & Hsum).
    assert (Hdiv : storedTs s <= now -> (SESSION_MS - (now - storedTs s)) / 1000 <= 300).
    { intros Hclock. apply Z.div_le_upper_bound; [ lia | ]. unfold SESSION_MS. lia. }
    revert Hs Hm Hsum Hdiv.
    generalize ((SESSION_MS - (now - storedTs s)) / 1000 mod 60).
    generalize ((SESSION_MS - (now - storedTs s)) / 60000).
    generalize ((SESSION_MS - (now - storedTs s)) / 1000).
    intros q m sec Hs Hm Hsum Hdiv [= <- <-]. lia.
  - intros st u Hu _ Hst Hts. rewrite Hnone. subst s.
    unfold autoLogoutEffect. rewrite Hu.
    destruct (Z.leb_spec (SESSION_MS - (now - storedTs (storage st))) 0).
    + split; [ reflexivity | lia ].
    + split; [ lia | ].
      intros Heff. exfalso. apply (f_equal fst) in Heff. apply (f_equal authUser) in Heff.
      simpl in Heff. congruence.
Qed.

Lemma mount_cases (now : Z) (s : LocalStorage) :
  (exists u, bugauth_user s = Some u /\ u <> ""%string /\ storedTs s <> 0
             /\ now - storedTs s <= SESSION_MS
             /\ mount now s = {| authUser := Some u; storage := s; supabase := false;
                                 loginError := None |})
  \/ ((forall u, ~ (bugauth_user s = Some u /\ u <> ""%string /\ storedTs s <> 0
                    /\ now - storedTs s <= SESSION_MS))
      /\ mount now s = {| authUser := None; storage := clearedStorage;
                          supabase := false; loginError := None |}).
Proof.
  unfold mount, initAuthUser, truthyStr.
  destruct (bugauth_user s) as [ u | ] eqn:Hu.
  - destruct (String.eqb_spec u "") as [ -> | Hne ].
    + right. split; [ | reflexivity ].
      intros u (H & Hne & _). injection H as <-. now apply Hne.
    + destruct (Z.eqb_spec (storedTs s) 0) as [ E | E ].
      * right. split; [ | reflexivity ]. intros v (_ & _ & H & _). contradiction.
      * destruct (Z.ltb_spec SESSION_MS (now - storedTs s)) as [ Hlt | Hge ].
        -- right. split; [ | reflexivity ]. intros v (_ & _ & _ & H). lia.
        -- left. exists u. cbn [negb orb]. auto.
  - right. split; [ | reflexivity ]. intros u (H & _). discriminate.
Qed.

(** X19.  What a page load leaves, once the [authUser] initialiser and the
    auto-logout effect have run: the user is logged in exactly when a
    non-empty user and a login time are stored and less than five minutes
    have passed since then (at exactly five minutes the initialiser keeps
    the session and the effect ends it); a session that is not restored is
    removed from local storage; and in every case the store client is
    unset, so completing and clearing fail with "Niet ingelogd" and a
    reload does nothing until the next login. *)
Theorem page_load_session (now : Z) (s : LocalStorage) :
  let st := fst (autoLogoutEffect now (mount now s)) in
  (forall u, authUser st = Some u
             <-> bugauth_user s = Some u /\ u <> ""%string /\ storedTs s <> 0
                 /\ now - storedTs s < SESSION_MS)
  /\ (authUser st = None -> storage st = clearedStorage)
  /\ supabase st = false
  /\ (forall i t confirmed,
        markCompleted i t st = Failed "Niet ingelogd"
        /\ clearAll confirmed st = Failed "Niet ingelogd"
        /\ reload st = Skipped)
  /\ (forall u, bugauth_user s = Some u -> u <> ""%string -> storedTs s <> 0 ->
        now - storedTs s = SESSION_MS ->
        authUser (mount now s) = Some u /\ authUser st = None).
Proof.
  intros st.
  assert (Hcases :
    (exists u, bugauth_user s = Some u /\ u <> ""%string /\ storedTs s <> 0
               /\ now - storedTs s < SESSION_MS
               /\ authUser (mount now s) = Some u
               /\ st = {| authUser := Some u; storage := s; supabase := false;
                          loginError := None |})
    \/ ((forall u, ~ (bugauth_user s = Some u /\ u <> ""%string /\ storedTs s <> 0
                      /\ now - storedTs s < SESSION_MS))
        /\ st = {| authUser := None; storage := clearedStorage; supabase := false;
                   loginError := None |}
        /\ (forall u, bugauth_user s = Some u -> u <> ""%string -> storedTs s <> 0 ->
              now - storedTs s = SESSION_MS -> authUser (mount now s) = Some u))).
  { subst st.
    destruct (mount_cases now s) as [ (u & Hu & Hne & Hts & Hle & ->) | (Hnot & ->) ].
    - unfold autoLogoutEffect. cbn [authUser storage].
      destruct (Z.leb_spec (SESSION_MS - (now - storedTs s)) 0) as [ Hend | Hleft ].
      + right. split; [ | split; [ reflexivity | ] ].
        * intros v (_ & _ & _ & H). lia.
        * intros v Hv _ _ _. congruence.
      + left. exists u. cbn [fst]. repeat split; auto. lia.
    - right. split; [ | split; [ reflexivity | ] ].
      + intros v (Hv & Hne & Hts & Hlt). apply (Hnot v). repeat split; auto. lia.
      + intros v Hv Hne Hts Heq. exfalso. apply (Hnot v). repeat split; auto. lia. }
  split; [ | split; [ | split; [ | split ] ] ].
  - intros u. destruct Hcases as [ (v & Hv & Hne & Hts & Hlt & _ & ->)
                                 | (Hnot & -> & _) ]; cbn [authUser].
    + rewrite Hv. split.
      * intros [= <-]. auto.
      * now intros ([= <-] & _).
    + split; [ discriminate | ]. intros H. exfalso. exact (Hnot u H).
  - destruct Hcases as [ (v & _ & _ & _ & _ & _ & ->) | (_ & -> & _) ];
      cbn [authUser storage]; [ discriminate | reflexivity ].
  - destruct Hcases as [ (v & _ & _ & _ & _ & _ & ->) | (_ & -> & _) ]; reflexivity.
  - intros i t c.
    destruct Hcases as [ (v & _ & _ & _ & _ & _ & ->) | (_ & -> & _) ];
      repeat split; reflexivity.
  - intros u Hu Hne Hts Heq.
    destruct Hcases as [ (v & _ & _ & _ & Hlt & _) | (_ & -> & Hmount) ];
      [ lia | ].
    split; [ now apply Hmount | reflexivity ].
Qed.

Section Login.

Variable EXPECT_USER EXPECT_PASS : option string.
Variable ClientObject : Type.
Variable createClient : option string -> option string -> option ClientObject.
Variable env : SupabaseClient.Env.

Lemma initSupabase_throws (m : SupabaseClient.Module_ ClientObject) :
  fst (SupabaseClient.initSupabase ClientObject createClient env m) = None ->
  SupabaseClient.client (snd (SupabaseClient.initSupabase ClientObject createClient env m))
  = None.
Proof.
  unfold SupabaseClient.initSupabase.
  destruct (SupabaseClient.client m) as [ c | ]; [ discriminate | ].
  destruct (createClient _ _) as [ c | ]; [ discriminate | reflexivity ].
Qed.

Lemma handleLogin_cases (now : Z) (u p : string) (st : AppState)
  (m : SupabaseClient.Module_ ClientObject) :
  (EXPECT_USER = Some u /\ EXPECT_PASS = Some p /\ u <> ""%string /\ p <> ""%string
   /\ handleLogin EXPECT_USER EXPECT_PASS ClientObject createClient env now u p st m
      = ({| authUser := Some u;
            storage := {| bugauth_user := Some u; bugauth_ts := Some now |};
            supabase :=
              match fst (SupabaseClient.initSupabase ClientObject createClient env m) with
              | Some _ => true
              | None => supabase st
              end;
            loginError := None |},
         snd (SupabaseClient.initSupabase ClientObject createClient env m)))
  \/ (~ (EXPECT_USER = Some u /\ EXPECT_PASS = Some p /\ u <> ""%string
         /\ p <> ""%string)
      /\ exists msg,
           handleLogin EXPECT_USER EXPECT_PASS ClientObject createClient env now u p st m
           = ({| authUser := authUser st; storage := storage st;
                 supabase := supabase st; loginError := Some msg |}, m)
           /\ (EXPECT_USER = None \/ EXPECT_PASS = None ->
               msg = "Auth niet geconfigureerd"%string)).
Proof.
  destruct EXPECT_USER as [ eu | ] eqn:Heu.
  - destruct (String.eqb_spec eu "") as [ -> | Hne ].
    + right. split; [ intros (Heq & _ & Hu & _); congruence | ].
      eexists. split; [ reflexivity | reflexivity ].
    + destruct EXPECT_PASS as [ ep | ] eqn:Hep.
      * destruct (String.eqb_spec ep "") as [ -> | Hnp ].
        -- right. split; [ intros (_ & Heq & _ & Hp); congruence | ].
           unfold handleLogin, truthyStr.
           destruct (String.eqb_spec eu ""); [ contradiction | ].
           eexists. split; [ reflexivity | reflexivity ].
        -- destruct (String.eqb_spec u eu) as [ -> | Hu ].
           ++ destruct (String.eqb_spec p ep) as [ -> | Hp ].
              ** left. repeat split; auto.
                 now apply SessionFacts.handleLogin_success.
              ** right. split; [ intros (_ & Heq & _); congruence | ].
                 unfold handleLogin, truthyStr, sameString.
                 destruct (String.eqb_spec eu ""); [ contradiction | ].
                 destruct (String.eqb_spec ep ""); [ contradiction | ].
                 destruct (String.eqb_spec p ep); [ contradiction | ].
                 rewrite andb_false_r.
                 eexists. split; [ reflexivity | ].
                 intros [ H | H ]; discriminate.
           ++ right. split; [ intros (Heq & _); congruence | ].
              unfold handleLogin, truthyStr, sameString.
              destruct (String.eqb_spec eu ""); [ contradiction | ].
              destruct (String.eqb_spec ep ""); [ contradiction | ].
              destruct (String.eqb_spec u eu); [ contradiction | ].
              eexists. split; [ reflexivity | ].
              intros [ H | H ]; discriminate.
      * right. split; [ intros (_ & Heq & _); discriminate | ].
        unfold handleLogin, truthyStr.
        destruct (String.eqb_spec eu ""); [ contradiction | ].
        eexists. split; [ reflexivity | reflexivity ].
  - right. split; [ intros (Heq & _); discriminate | ].
    eexists. split; [ reflexivity | reflexivity ].
Qed.

End Login.

(** X20.  The client's login passes exactly when both expected values are
    configured and non-empty and the entered user and password equal them.
    It then records the user and the time, clears the error and calls
    [initSupabase]: the store client is set when it was set before or
    [initSupabase] returns one; when [initSupabase] throws ([createClient]
    does, on a missing URL or key) the user is logged in all the same and
    the store client stays as it was.  In every other case the user, the
    stored session, the store client and the module stay as they were and
    an error is set; with a missing expected value the error is "Auth niet
    geconfigureerd". *)
Theorem client_login_needs_configuration (EXPECT_USER EXPECT_PASS : option string)
  (ClientObject : Type)
  (createClient : option string -> option string -> option ClientObject)
  (env : SupabaseClient.Env) (now : Z) (u p : string) (st : AppState)
  (m : SupabaseClient.Module_ ClientObject) :
  let logged :=
    handleLogin EXPECT_USER EXPECT_PASS ClientObject createClient env now u p st m in
  let st' := fst logged in
  let init := SupabaseClient.initSupabase ClientObject createClient env m in
  (loginError st' = None
   <-> EXPECT_USER = Some u /\ EXPECT_PASS = Some p /\ u <> ""%string /\ p <> ""%string)
  /\ (loginError st' = None ->
      authUser st' = Some u
      /\ storage st' = {| bugauth_user := Some u; bugauth_ts := Some now |}
      /\ snd logged = snd init
      /\ (supabase st' = true <-> supabase st = true \/ fst init <> None)
      /\ (fst init = None ->
          supabase st' = supabase st /\ SupabaseClient.client (snd logged) = None))
  /\ (loginError st' <> None ->
      authUser st' = authUser st /\ storage st' = storage st
      /\ supabase st' = supabase st /\ snd logged = m)
  /\ (EXPECT_USER = None \/ EXPECT_PASS = None ->
      loginError st' = Some "Auth niet geconfigureerd"%string).
Proof.
  intros logged st' init. subst logged st' init.
  destruct (handleLogin_cases EXPECT_USER EXPECT_PASS ClientObject createClient env
              now u p st m)
    as [ (Hu & Hp & Hne & Hnp & ->) | (Hnot & msg & -> & Hmsg) ];
    cbn [fst snd loginError authUser storage supabase].
  - split; [ split; auto | ].
    split.
    { intros _. repeat (split; [ reflexivity | ]).
      split.
      - destruct (fst (SupabaseClient.initSupabase ClientObject createClient env m))
          as [ c | ].
        + split; [ intros _; right; discriminate | reflexivity ].
        + split; [ auto | intros [ H | H ]; [ exact H | contradiction ] ].
      - intros Hnone. rewrite Hnone. split; [ reflexivity | ].
        now apply initSupabase_throws. }
    split; [ intros H; now exfalso | ].
    intros [ H | H ]; congruence.
  - split; [ split; [ discriminate | intros H; now exfalso ] | ].
    split; [ discriminate | ].
    split; [ auto | ].
    intros H. now rewrite (Hmsg H).
Qed.

End ClientViewFacts.

(** ** The forms and the delete button *)

Module FormFacts.
Import Js Client ClientViews.




(** X22.  The client sends the delete of a bug exactly when the store
    client is set, the local list holds a bug with that id, the first such
    bug is not a reference bug, and the user confirms; it is always the
    delete of the requested id.  For a reference bug the user gets the
    alert and is not asked to confirm, whatever they would have answered. *)
Theorem client_delete_guards (i : string) (confirmed : bool) (bugs : list BugRecord)
  (st : AppState) :
  (deleteBug i confirmed bugs st = EditSent (DeleteById i)
   <-> supabase st = true /\ confirmed = true
       /\ exists bug, find (fun b => (id b =? i)%string) bugs = Some bug
                      /\ reference bug = false)
  /\ (forall call, deleteBug i confirmed bugs st = EditSent call ->
        call = DeleteById i
        /\ exists bug, In bug bugs /\ id bug = i /\ reference bug = false)
  /\ (forall bug, supabase st = true ->
        find (fun b => (id b =? i)%string) bugs = Some bug -> reference bug = true ->
        deleteBug i confirmed bugs st
        = EditFailed "Referentie bug kan niet worden verwijderd.")
  /\ ((forall b, In b bugs -> id b <> i) -> supabase st = true ->
      deleteBug i confirmed bugs st = EditSkipped).
Proof.
  unfold deleteBug.
  destruct (supabase st); cbn [negb].
  - destruct (find (fun b => (id b =? i)%string) bugs) as [ bug | ] eqn:Hfind.
    + pose proof (find_some _ _ Hfind) as (Hin & Hid).
      apply String.eqb_eq in Hid.
      destruct (reference bug) eqn:Href.
      * split; [ split; [ discriminate | ] | split; [ discriminate | split ] ].
        -- intros (_ & _ & b & [= <-] & H). congruence.
        -- intros b _ _ _. reflexivity.
        -- intros Hno. exfalso. exact (Hno bug Hin Hid).
      * destruct confirmed; cbn [negb].
        -- split; [ split; [ intros _ | reflexivity ] | split; [ | split ] ].
           ++ repeat split. exists bug. auto.
           ++ intros call [= <-]. split; [ reflexivity | ]. exists bug. auto.
           ++ intros b _ [= <-] H. congruence.
           ++ intros Hno. exfalso. exact (Hno bug Hin Hid).
        -- split; [ split; [ discriminate | intros (_ & H & _); discriminate ]
                  | split; [ discriminate | split ] ].
           ++ intros b _ [= <-] H. congruence.
           ++ intros Hno. exfalso. exact (Hno bug Hin Hid).
    + split; [ split; [ discriminate | intros (_ & _ & b & H & _); discriminate ]
             | split; [ discriminate | split ] ].
      * intros b _ H. discriminate.
      * reflexivity.
  - split; [ split; [ discriminate | intros (H & _); discriminate ]
           | split; [ discriminate | split ] ].
    + intros b H. discriminate.
    + intros _ H. discriminate.
Qed.

End FormFacts.

(** ** The local list and the table *)

Module LocalListFacts.
Import Js Client ClientViews.

Lemma deleteBug_sent (i : string) (confirmed : bool) (bugs : list BugRecord)
  (st : AppState) (call : EditCall) :
  deleteBug i confirmed bugs st = EditSent call ->
  exists bug, In bug bugs /\ id bug = i /\ reference bug = false.
Proof.
  unfold deleteBug. destruct (supabase st); cbn [negb]; [ | discriminate ].
  destruct (find (fun b => (id b =? i)%string) bugs) as [ bug | ] eqn:Hfind;
    [ | discriminate ].
  apply find_some in Hfind. destruct Hfind as (Hin & Hid).
  apply String.eqb_eq in Hid.
  destruct (reference bug) eqn:Href; [ discriminate | ].
  intros _. exists bug. auto.
Qed.

Lemma filter_map_rows (p : BugRecord -> bool) (rows : list BugRow) :
  filter p (map mapRowToBug rows) = map mapRowToBug (filter (fun r => p (mapRowToBug r)) rows).
Proof.
  induction rows as [ | r rows IH ]; [ reflexivity | ].
  cbn [map filter]. rewrite IH. now destruct (p (mapRowToBug r)).
Qed.

Lemma filter_single_eq (i : string) (rows : list BugRow) (r x : BugRow) :
  filter (hasRowId i) rows = [r] -> In x rows -> hasRowId i x = true -> x = r.
Proof.
  intros Hf Hin Hx.
  assert (H : In x (filter (hasRowId i) rows)) by (apply filter_In; auto).
  rewrite Hf in H. destruct H as [ H | [] ]. now symmetry.
Qed.

Section Table.

Variable tableAccepts : BugRow -> bool.

Lemma updateSingle_list (i : string) (f : BugRow -> BugRow) (rows rows' : list BugRow)
  (d : BugRow) :
  updateSingle tableAccepts i f rows = Some (rows', d) ->
  map (fun b => if (id b =? i)%string then mapRowToBug d else b) (map mapRowToBug rows)
  = map mapRowToBug rows'.
Proof.
  unfold updateSingle.
  destruct (filter (hasRowId i) rows) as [ | r [ | r' rest ] ] eqn:Hf; try discriminate.
  destruct (tableAccepts (f r)); [ | discriminate ].
  intros [= <- <-]. rewrite !map_map. apply map_ext_in.
  intros x Hx. change (id (mapRowToBug x)) with (row_id x).
  change (row_id x =? i)%string with (hasRowId i x).
  destruct (hasRowId i x) eqn:Hid; [ | reflexivity ].
  now rewrite (filter_single_eq i rows r x Hf Hx Hid).
Qed.

Lemma updateSingle_ids (i : string) (f : BugRow -> BugRow) (rows rows' : list BugRow)
  (d : BugRow) :
  updateSingle tableAccepts i f rows = Some (rows', d) ->
  (forall r, row_id (f r) = row_id r) ->
  map row_id rows' = map row_id rows.
Proof.
  intros Hu Hf. revert Hu. unfold updateSingle.
  destruct (filter (hasRowId i) rows) as [ | r [ | r' rest ] ]; try discriminate.
  destruct (tableAccepts (f r)); [ | discriminate ].
  intros [= <- <-]. rewrite map_map. apply map_ext.
  intros x. destruct (hasRowId i x); [ apply Hf | reflexivity ].
Qed.

Lemma afterCall_list (m : Mutation) (rows : list BugRow) :
  snd (afterCall tableAccepts m (rows, loaded rows))
  = loaded (fst (afterCall tableAccepts m (rows, loaded rows))).
Proof.
  unfold afterCall, loaded. cbn [fst snd].
  destruct m as [ row | i ts | i c | i | ]; cbn [tableAfter].
  - destruct (tableAccepts row && negb (existsb (hasRowId (row_id row)) rows));
      [ | reflexivity ].
    cbn [fst snd bugsAfter]. now rewrite map_app.
  - destruct (updateSingle tableAccepts i (withCompletedAt ts) rows)
      as [ [ rows' d ] | ] eqn:Hu; cbn [option_map fst snd bugsAfter]; [ | reflexivity ].
    exact (updateSingle_list _ _ _ _ _ Hu).
  - destruct (updateSingle tableAccepts i (applyBugChanges c) rows)
      as [ [ rows' d ] | ] eqn:Hu; cbn [option_map fst snd bugsAfter]; [ | reflexivity ].
    exact (updateSingle_list _ _ _ _ _ Hu).
  - cbn [fst snd bugsAfter]. now rewrite filter_map_rows.
  - cbn [fst snd bugsAfter]. now rewrite filter_map_rows.
Qed.

Lemma NoDup_map_filter (p : BugRow -> bool) (rows : list BugRow) :
  NoDup (map row_id rows) -> NoDup (map row_id (filter p rows)).
Proof.
  induction rows as [ | r rows IH ]; [ auto | ].
  cbn [map filter]. intros H. inversion H as [ | ? ? Hnotin Hnd ]; subst.
  destruct (p r); [ | auto ].
  cbn [map]. constructor; [ | auto ].
  intros Hin. apply Hnotin. apply in_map_iff in Hin. destruct Hin as (x & Hx & Hin).
  apply in_map_iff. exists x. split; [ exact Hx | ].
  apply filter_In in Hin. tauto.
Qed.

Lemma afterCall_ids (m : Mutation) (s : list BugRow * list BugRecord) :
  NoDup (map row_id (fst s)) -> NoDup (map row_id (fst (afterCall tableAccepts m s))).
Proof.
  destruct s as [ rows bugs ]. unfold afterCall. cbn [fst].
  intros Hnd. destruct m as [ row | i ts | i c | i | ]; cbn [tableAfter].
  - destruct (tableAccepts row); cbn [andb]; [ | exact Hnd ].
    destruct (existsb (hasRowId (row_id row)) rows) eqn:Hex; cbn [negb fst];
      [ exact Hnd | ].
    rewrite map_app. cbn [map].
    apply NoDup_app; [ exact Hnd | constructor; [ intros [] | constructor ] | ].
    intros x Hx [ Heq | [] ]. subst x.
    apply in_map_iff in Hx. destruct Hx as (r & Hr & Hin).
    assert (existsb (hasRowId (row_id row)) rows = true).
    { apply existsb_exists. exists r. split; [ exact Hin | ].
      unfold hasRowId. rewrite Hr. apply String.eqb_refl. }
    congruence.
  - destruct (updateSingle tableAccepts i (withCompletedAt ts) rows)
      as [ [ rows' d ] | ] eqn:Hu; cbn [option_map fst]; [ | exact Hnd ].
    rewrite (updateSingle_ids _ _ _ _ _ Hu) by reflexivity. exact Hnd.
  - destruct (updateSingle tableAccepts i (applyBugChanges c) rows)
      as [ [ rows' d ] | ] eqn:Hu; cbn [option_map fst]; [ | exact Hnd ].
    rewrite (updateSingle_ids _ _ _ _ _ Hu) by reflexivity. exact Hnd.
  - cbn [fst]. now apply NoDup_map_filter.
  - cbn [fst]. now apply NoDup_map_filter.
Qed.

Lemma afterCalls_list (ms : list Mutation) (rows : list BugRow) :
  snd (afterCalls tableAccepts ms (rows, loaded rows))
  = loaded (fst (afterCalls tableAccepts ms (rows, loaded rows))).
Proof.
  revert rows. induction ms as [ | m ms IH ]; intros rows; [ reflexivity | ].
  unfold afterCalls in *. cbn [fold_left].
  pose proof (afterCall_list m rows) as H.
  destruct (afterCall tableAccepts m (rows, loaded rows)) as [ rows' bugs' ].
  cbn [fst snd] in H. subst bugs'. apply IH.
Qed.

Lemma afterCalls_ids (ms : list Mutation) (s : list BugRow * list BugRecord) :
  NoDup (map row_id (fst s)) -> NoDup (map row_id (fst (afterCalls tableAccepts ms s))).
Proof.
  revert s. induction ms as [ | m ms IH ]; intros s Hnd; [ exact Hnd | ].
  unfold afterCalls in *. cbn [fold_left]. apply IH. now apply afterCall_ids.
Qed.

End Table.

(** X23.  Starting from a loaded list, the local list of bugs follows the
    table through any sequence of the client's calls (insert, complete,
    update, delete, clear all), refused ones included: it stays the list of
    the table's rows, each mapped by [mapRowToBug].  Ids that were distinct
    stay distinct, and a delete the client then sends is for a row that is
    in the table and is not a reference row. *)
Theorem local_list_follows_table (tableAccepts : BugRow -> bool) (ms : list Mutation)
  (rows : list BugRow) :
  let s := afterCalls tableAccepts ms (rows, loaded rows) in
  snd s = map mapRowToBug (fst s)
  /\ (NoDup (map row_id rows) -> NoDup (map id (snd s)))
  /\ (forall i confirmed st call,
        deleteBug i confirmed (snd s) st = EditSent call ->
        exists r, In r (fst s) /\ row_id r = i /\ row_reference r = false).
Proof.
  intros s. subst s.
  pose proof (afterCalls_list tableAccepts ms rows) as Hlist.
  pose proof (afterCalls_ids tableAccepts ms (rows, loaded rows)) as Hids.
  destruct (afterCalls tableAccepts ms (rows, loaded rows)) as [ rows' bugs' ].
  cbn [fst snd] in *. subst bugs'. unfold loaded.
  split; [ reflexivity | split ].
  - intros Hnd. rewrite map_map.
    change (map (fun x => id (mapRowToBug x)) rows') with (map row_id rows'). auto.
  - intros i confirmed st call Hsent.
    apply deleteBug_sent in Hsent. destruct Hsent as (bug & Hin & Hid & Href).
    apply in_map_iff in Hin. destruct Hin as (r & <- & Hin).
    exists r. auto.
Qed.

End LocalListFacts.

(** ** The cells of the matrix *)

Module MatrixFacts.
Import Js Client ClientViews.

Lemma digits_dashFree (d : Decimal.uint) : dashFree (NilEmpty.string_of_uint d) = true.
Proof. induction d; simpl; auto. Qed.

Lemma uint_shape (d : Decimal.uint) :
  d <> Decimal.Nil ->
  exists c r, NilZero.string_of_uint d = String c r /\ dashFree r = true.
Proof.
  intros Hd. destruct d; [ contradiction | .. ]; simpl;
    eexists; eexists; (split; [ reflexivity | apply digits_dashFree ]).
Qed.

Lemma uint_dashFree (d : Decimal.uint) :
  d <> Decimal.Nil -> dashFree (NilZero.string_of_uint d) = true.
Proof.
  intros Hd. destruct d; [ contradiction | .. ];
    unfold NilZero.string_of_uint; cbv beta iota; apply digits_dashFree.
Qed.

Lemma numberToString_shape (z : Z) :
  exists c r, numberToString z = String c r /\ dashFree r = true.
Proof.
  unfold numberToString. destruct z as [ | p | p ]; simpl.
  - exists "0"%char, ""%string. auto.
  - apply uint_shape, Unsigned.to_uint_nonnil.
  - exists "-"%char, (NilZero.string_of_uint (Pos.to_uint p)). split; [ reflexivity | ].
    apply uint_dashFree, Unsigned.to_uint_nonnil.
Qed.

Lemma numberToString_inj (a b : Z) : numberToString a = numberToString b -> a = b.
Proof.
  unfold numberToString. intros H.
  assert (Hnz : forall z, Z.to_int z <> Decimal.Pos Decimal.Nil
                          /\ Z.to_int z <> Decimal.Neg Decimal.Nil).
  { intros [ | p | p ]; simpl; split; try discriminate;
      intros [= E]; exact (Unsigned.to_uint_nonnil p E). }
  apply to_int_inj.
  pose proof (NilZero.isi (Z.to_int a) (proj1 (Hnz a)) (proj2 (Hnz a))) as Ha.
  pose proof (NilZero.isi (Z.to_int b) (proj1 (Hnz b)) (proj2 (Hnz b))) as Hb.
  rewrite H in Ha. congruence.
Qed.

Lemma first_dash (r r' b b' : string) :
  dashFree r = true -> dashFree r' = true ->
  (r ++ String "-" b = r' ++ String "-" b')%string -> r = r' /\ b = b'.
Proof.
  revert r'. induction r as [ | c r IH ]; intros [ | c' r' ]; simpl.
  - intros _ _ [= ->]. auto.
  - intros _ H [= <- _]. discriminate.
  - intros H _ [= -> _]. discriminate.
  - intros H H' [= <- E].
    apply andb_true_iff in H, H'. destruct H as [ _ H ], H' as [ _ H' ].
    destruct (IH r' H H' E) as [ -> -> ]. auto.
Qed.

Lemma cellKeyOf_inj (i l i' l' : Z) :
  cellKeyOf i l = cellKeyOf i' l' -> i = i' /\ l = l'.
Proof.
  unfold cellKeyOf. intros H.
  destruct (numberToString_shape i) as (c & r & Hi & Hr).
  destruct (numberToString_shape i') as (c' & r' & Hi' & Hr').
  pose proof H as H0. rewrite Hi, Hi' in H0. simpl in H0.
  injection H0 as Hc Hrest.
  destruct (first_dash _ _ _ _ Hr Hr' Hrest) as [ Er El ].
  split; apply numberToString_inj; congruence.
Qed.

Lemma cellKeyOf_eqb (i l i' l' : Z) :
  (cellKeyOf i l =? cellKeyOf i' l')%string = (i =? i') && (l =? l').
Proof.
  destruct (String.eqb_spec (cellKeyOf i l) (cellKeyOf i' l')) as [ E | E ].
  - apply cellKeyOf_inj in E. destruct E as [ -> -> ]. now rewrite !Z.eqb_refl.
  - symmetry. apply not_true_is_false. intros H. apply andb_true_iff in H.
    destruct H as [ H1 H2 ]. apply Z.eqb_eq in H1, H2. subst. now apply E.
Qed.

Lemma bugsInCell_pushAt (k key : string) (b : BugRecord) (map : CellMap) :
  bugsInCell (pushAt k b map) key
  = if (k =? key)%string then bugsInCell map key ++ [b] else bugsInCell map key.
Proof.
  induction map as [ | [ k0 v ] rest IH ]; cbn [pushAt bugsInCell].
  - now destruct (k =? key)%string.
  - destruct (String.eqb_spec k0 k) as [ -> | Hk ]; cbn [bugsInCell].
    + now destruct (k =? key)%string.
    + destruct (String.eqb_spec k0 key) as [ -> | Hkey ]; [ | exact IH ].
      destruct (String.eqb_spec k key) as [ -> | _ ]; [ contradiction | reflexivity ].
Qed.

Lemma bugsInCell_fold (key : string) (l : list BugRecord) (map : CellMap) :
  bugsInCell (fold_left (fun m b => pushAt (cellKey b) b m) l map) key
  = bugsInCell map key ++ filter (fun b => (cellKey b =? key)%string) l.
Proof.
  revert map. induction l as [ | b l IH ]; intros map; cbn [fold_left filter].
  - now rewrite app_nil_r.
  - rewrite IH, bugsInCell_pushAt.
    destruct (cellKey b =? key)%string; [ now rewrite <- app_assoc | reflexivity ].
Qed.

Lemma matrixCell_filter (displayed : list BugRecord) (xi yi : Z) :
  matrixCell displayed xi yi
  = ((xi + 1) * (yi + 1),
     filter (fun b => (impact b =? xi + 1) && (likelihood b =? yi + 1)) displayed).
Proof.
  unfold matrixCell, groupedBugs. rewrite bugsInCell_fold. cbn [bugsInCell app].
  f_equal. apply filter_ext. intros b. unfold cellKey. apply cellKeyOf_eqb.
Qed.

(** X24.  The matrix cell in column xi and row yi shows exactly the
    displayed bugs with impact xi+1 and likelihood yi+1, in the order they
    are displayed; its score, which picks the colour and the category, is
    the score of every bug in it.  So a displayed bug is in at most one
    cell; with both ratings from 1 to 5 it is in the cell of its ratings,
    and with a rating outside 1 to 5 it is in none of the 25 cells. *)
Theorem matrix_cell_shows_its_bugs (displayed : list BugRecord) :
  (forall xi yi,
      matrixCell displayed xi yi
      = ((xi + 1) * (yi + 1),
         filter (fun b => (impact b =? xi + 1) && (likelihood b =? yi + 1)) displayed))
  /\ (forall xi yi b, In b (snd (matrixCell displayed xi yi)) ->
        In b displayed /\ score b = fst (matrixCell displayed xi yi))
  /\ (forall xi yi xi' yi' b,
        In b (snd (matrixCell displayed xi yi)) ->
        In b (snd (matrixCell displayed xi' yi')) -> xi = xi' /\ yi = yi')
  /\ (forall b, In b displayed -> 1 <= impact b <= 5 -> 1 <= likelihood b <= 5 ->
        0 <= impact b - 1 < 5 /\ 0 <= likelihood b - 1 < 5
        /\ In b (snd (matrixCell displayed (impact b - 1) (likelihood b - 1))))
  /\ (forall b xi yi, 0 <= xi < 5 -> 0 <= yi < 5 ->
        ~ (1 <= impact b <= 5 /\ 1 <= likelihood b <= 5) ->
        ~ In b (snd (matrixCell displayed xi yi))).
Proof.
  assert (Hin : forall xi yi b, In b (snd (matrixCell displayed xi yi)) <->
                  In b displayed /\ impact b = xi + 1 /\ likelihood b = yi + 1).
  { intros xi yi b. rewrite matrixCell_filter. cbn [snd].
    rewrite filter_In, andb_true_iff, !Z.eqb_eq. tauto. }
  split; [ exact (matrixCell_filter displayed) | ].
  split; [ | split; [ | split ] ].
  - intros xi yi b Hb. apply Hin in Hb. destruct Hb as (Hd & Hi & Hl).
    split; [ exact Hd | ]. rewrite matrixCell_filter. cbn [fst].
    unfold score. now rewrite Hi, Hl.
  - intros xi yi xi' yi' b H H'. apply Hin in H, H'. lia.
  - intros b Hb Hi Hl. split; [ lia | ]. split; [ lia | ].
    apply Hin. split; [ exact Hb | lia ].
  - intros b xi yi Hx Hy Hout Hb. apply Hin in Hb. lia.
Qed.

End MatrixFacts.

(** ** Sorting, ascending and repeated *)

Module SortFacts.
Import Js Client ClientViews.

Lemma arraySort_of_sorted {A : Type} (cmp : A -> A -> Z) (l : list A) :
  StronglySorted (precedes cmp) l -> arraySort cmp l = l.
Proof.
  induction 1 as [ | a l Hsorted IH Hall ]; [ reflexivity | ].
  cbn [arraySort]. rewrite IH.
  destruct l as [ | y rest ]; [ reflexivity | ].
  cbn [sortInsert]. inversion Hall as [ | ? ? Hy _ ]; subst.
  unfold precedes in Hy. now destruct (Z.leb_spec (cmp a y) 0); [ | lia ].
Qed.

(** X25.  Sorting the displayed bugs by score in ascending order
    rearranges them into a sequence whose impact x likelihood values never
    decrease, with bugs of equal score in the order they had; without a
    sort field the list is shown as it is.  In either direction, sorting a
    list that is already sorted leaves it unchanged. *)
Theorem sort_ascending_and_repeat (displayed : list BugRecord) :
  let sorted := sortedBugs displayed SortScore Asc in
  Permutation displayed sorted
  /\ StronglySorted (fun a b => impact a * likelihood a <= impact b * likelihood b) sorted
  /\ (forall k, filter (fun b => impact b * likelihood b =? k) sorted
                = filter (fun b => impact b * likelihood b =? k) displayed)
  /\ (forall d, sortedBugs displayed SortNone d = displayed)
  /\ (forall f d, sortedBugs (sortedBugs displayed f d) f d = sortedBugs displayed f d).
Proof.
  intros sorted. subst sorted.
  split; [ apply ViewFacts.sortedBugs_perm | ].
  split; [ exact (ViewFacts.sortedBugs_asc_sorted displayed) | ].
  split; [ intros k; exact (ViewFacts.sortedBugs_stable displayed SortScore Asc k) | ].
  split; [ reflexivity | ].
  intros [ | ] d; [ reflexivity | ]. unfold sortedBugs.
  apply arraySort_of_sorted.
  apply ViewFacts.arraySort_sorted
    with (key := score) (sign := match d with Asc => 1 | Desc => -1 end).
  - apply ViewFacts.sortDir_sign.
  - apply ViewFacts.compareScore_key.
Qed.

End SortFacts.

(** ** The store client singleton *)

Module SingletonFacts.
Import SupabaseClient.

Section Singleton.

Variable ClientObject : Type.
Variable createClient : option string -> option string -> option ClientObject.

Lemma calls_once_set (cs : list Call) (c : ClientObject) (n : nat) :
  calls ClientObject createClient cs {| client := Some c; created := n |}
  = (map (fun _ => Returned (Some c)) cs, {| client := Some c; created := n |}).
Proof.
  induction cs as [ | [ env | ] cs IH ]; [ reflexivity | | ];
    cbn [calls call initSupabase getSupabase client]; now rewrite IH.
Qed.

(** Failed attempts leave the module as freshly loaded, up to the count of
    [createClient] calls. *)
Lemma calls_unset (cs : list Call) (n : nat) :
  calls ClientObject createClient cs {| client := None; created := n |}
  = (fst (calls ClientObject createClient cs initial),
     {| client := client (snd (calls ClientObject createClient cs initial));
        created := n + created (snd (calls ClientObject createClient cs initial)) |}).
Proof.
  revert n. induction cs as [ | [ env | ] cs IH ]; intros n.
  - cbn [calls fst snd initial client created]. now rewrite Nat.add_0_r.
  - unfold initial. cbn [calls call initSupabase client created].
    destruct (createClient (REACT_APP_SUPABASE_URL env) (REACT_APP_SUPABASE_ANON_KEY env))
      as [ c | ].
    + rewrite !calls_once_set. cbn [fst snd client created].
      now rewrite Nat.add_1_r.
    + rewrite (IH (S n)), (IH 1%nat). cbn [fst snd client created].
      do 2 f_equal. lia.
  - unfold initial. cbn [calls call getSupabase client].
    rewrite (IH n). fold (@initial ClientObject).
    destruct (calls ClientObject createClient cs initial) as [ os m ].
    reflexivity.
Qed.

Lemma calls_state (cs : list Call) :
  client (snd (calls ClientObject createClient cs initial))
  = firstCreated ClientObject createClient cs
  /\ created (snd (calls ClientObject createClient cs initial))
     = attempts ClientObject createClient cs.
Proof.
  induction cs as [ | [ env | ] cs IH ]; [ split; reflexivity | | ].
  - unfold initial. cbn [calls call initSupabase client created firstCreated attempts].
    destruct (createClient (REACT_APP_SUPABASE_URL env) (REACT_APP_SUPABASE_ANON_KEY env))
      as [ c | ].
    + rewrite calls_once_set. split; reflexivity.
    + rewrite (calls_unset cs 1). cbn [snd client created].
      destruct IH as [ -> -> ]. split; reflexivity.
  - unfold initial. cbn [calls call getSupabase client firstCreated attempts].
    fold (@initial ClientObject).
    destruct (calls ClientObject createClient cs initial) as [ os m ].
    exact IH.
Qed.

Lemma calls_outcomes (cs : list Call) (o : Outcome ClientObject) :
  In o (fst (calls ClientObject createClient cs initial)) ->
  match o with
  | Returned None => True
  | Returned (Some c) => firstCreated ClientObject createClient cs = Some c
  | Thrown =>
      exists env, In (CallInit env) cs
                  /\ createClient (REACT_APP_SUPABASE_URL env)
                                  (REACT_APP_SUPABASE_ANON_KEY env) = None
  end.
Proof.
  induction cs as [ | [ env | ] cs IH ]; [ intros [] | | ].
  - unfold initial. cbn [calls call initSupabase client created firstCreated].
    destruct (createClient (REACT_APP_SUPABASE_URL env) (REACT_APP_SUPABASE_ANON_KEY env))
      as [ c | ] eqn:Hc.
    + rewrite calls_once_set. cbn [fst].
      intros [ <- | Hin ]; [ reflexivity | ].
      apply in_map_iff in Hin. now destruct Hin as (x & <- & _).
    + rewrite (calls_unset cs 1). cbn [fst].
      intros [ <- | Hin ].
      * exists env. split; [ now left | exact Hc ].
      * specialize (IH Hin). destruct o as [ [ c | ] | ]; auto.
        destruct IH as (env' & Hin' & Hnone). exists env'. split; [ now right | auto ].
  - unfold initial. cbn [calls call getSupabase client firstCreated].
    fold (@initial ClientObject).
    destruct (calls ClientObject createClient cs initial) as [ os m ].
    cbn [fst] in *. intros [ <- | Hin ]; [ exact I | ].
    specialize (IH Hin). destruct o as [ [ c | ] | ]; auto.
    destruct IH as (env' & Hin' & Hnone). exists env'. split; [ now right | auto ].
Qed.

End Singleton.

(** X26.  The store client is a singleton that is made by the first
    [initSupabase] for which [createClient] returns a client.  Over any
    sequence of [initSupabase] and [getSupabase] calls on a freshly loaded
    module: every call from that [initSupabase] on returns the client made
    then, whatever the environment of a later [initSupabase], and
    [createClient] is not called again; before it, every [getSupabase]
    returns null, and every [initSupabase] calls [createClient], throws
    with it, and leaves the module without a client, so that the next
    [initSupabase] tries again. *)
Theorem store_client_created_once (ClientObject : Type)
  (createClient : option string -> option string -> option ClientObject)
  (cs : list Call) :
  let run := calls ClientObject createClient cs initial in
  client (snd run) = firstCreated ClientObject createClient cs
  /\ created (snd run) = attempts ClientObject createClient cs
  /\ (forall c, In (Returned (Some c)) (fst run) ->
        firstCreated ClientObject createClient cs = Some c)
  /\ (In Thrown (fst run) ->
      exists env, In (CallInit env) cs
                  /\ createClient (REACT_APP_SUPABASE_URL env)
                                  (REACT_APP_SUPABASE_ANON_KEY env) = None)
  /\ (forall env rest c,
        createClient (REACT_APP_SUPABASE_URL env) (REACT_APP_SUPABASE_ANON_KEY env)
        = Some c ->
        calls ClientObject createClient (CallInit env :: rest) initial
        = (map (fun _ => Returned (Some c)) (CallInit env :: rest),
           {| client := Some c; created := 1 |}))
  /\ (forall env rest,
        createClient (REACT_APP_SUPABASE_URL env) (REACT_APP_SUPABASE_ANON_KEY env)
        = None ->
        let next := calls ClientObject createClient rest initial in
        calls ClientObject createClient (CallInit env :: rest) initial
        = (Thrown :: fst next,
           {| client := client (snd next); created := S (created (snd next)) |}))
  /\ (forall rest,
        let next := calls ClientObject createClient rest initial in
        calls ClientObject createClient (CallGet :: rest) initial
        = (Returned None :: fst next, snd next)).
Proof.
  intros run. subst run.
  destruct (calls_state ClientObject createClient cs) as [ Hclient Hcreated ].
  split; [ exact Hclient | ]. split; [ exact Hcreated | ].
  split; [ intros c Hin;
           exact (calls_outcomes ClientObject createClient cs (Returned (Some c)) Hin) | ].
  split; [ intros Hin; exact (calls_outcomes ClientObject createClient cs Thrown Hin) | ].
  split; [ | split ].
  - intros env rest c Hc.
    unfold initial. cbn [calls call initSupabase client created]. rewrite Hc.
    rewrite calls_once_set. reflexivity.
  - intros env rest Hc next. subst next.
    unfold initial at 1. cbn [calls call initSupabase client created]. rewrite Hc.
    rewrite (calls_unset ClientObject createClient rest 1). reflexivity.
  - intros rest next. subst next.
    unfold initial at 1. cbn [calls call getSupabase client].
    fold (@initial ClientObject).
    now destruct (calls ClientObject createClient rest initial) as [ os m ].
Qed.

(** With a library that throws on a missing URL or key: two failed
    attempts, then the client is made, once. *)
Example client_made_after_failed_attempts :
  let missing := mkEnv None (Some "anon"%string) in
  let present := mkEnv (Some "https://db.example"%string) (Some "anon"%string) in
  let other := mkEnv (Some "https://other.example"%string) (Some "anon"%string) in
  let made := Some ("https://db.example", "anon")%string in
  calls (string * string) Demo.createClient
        [CallGet; CallInit missing; CallInit missing; CallGet; CallInit present;
         CallInit other; CallGet] initial
  = ([Returned None; Thrown; Thrown; Returned None; Returned made; Returned made;
      Returned made],
     {| client := made; created := 3 |}).
Proof. reflexivity. Qed.

End SingletonFacts.

(** ** The edit form *)

Module EditFacts.
Import Js Client ClientViews.

Lemma find_loaded (i : string) (rows : list BugRow) :
  find (fun b => (id b =? i)%string) (loaded rows)
  = option_map mapRowToBug (find (hasRowId i) rows).
Proof.
  unfold loaded. induction rows as [ | r rows IH ]; [ reflexivity | ].
  cbn [map find]. change (id (mapRowToBug r)) with (row_id r).
  change (row_id r =? i)%string with (hasRowId i r).
  now destruct (hasRowId i r).
Qed.

Lemma optional_round_trip (s : option string) :
  trimmedOpt s = true ->
  orUndefined (orNull (trim (orEmpty (orUndefined s)))) = orUndefined s.
Proof.
  destruct s as [ v | ]; [ | reflexivity ].
  cbn [trimmedOpt orUndefined]. unfold trimmed. intros Ht. apply String.eqb_eq in Ht.
  unfold orNull at 2. destruct (String.eqb_spec v "") as [ -> | Hv ]; [ reflexivity | ].
  cbn [orEmpty]. rewrite Ht. unfold orNull.
  destruct (String.eqb_spec v ""); [ contradiction | ].
  cbn [orUndefined]. unfold orNull. now destruct (String.eqb_spec v "").
Qed.

(** X27.  Opening a bug in the edit form and saving it unchanged keeps the
    bug as it is.  For a selected row of the loaded list whose description
    is non-empty and whose texts have no white space around them, the edit
    effect fills the form from the bug, [updateBug] sends an update of
    that id, and the row with these changes applied is shown as the same
    bug as before. *)
Theorem edit_without_change_keeps_bug (rows : list BugRow) (r : BugRow) (i : string)
  (f : EditForm) (st : AppState) :
  supabase st = true ->
  i <> ""%string ->
  find (hasRowId i) rows = Some r ->
  row_description r <> ""%string ->
  trimmed (row_description r) = true ->
  trimmedOpt (row_ticket r) = true ->
  trimmedOpt (jira_link r) = true ->
  trimmedOpt (row_label r) = true ->
  exists c,
    updateBug (Some i) (loadEditForm (Some i) (loaded rows) f) st
    = EditSent (UpdateRow i c)
    /\ new_description c = row_description r
    /\ mapRowToBug (applyBugChanges c r) = mapRowToBug r.
Proof.
  intros Hsup Hi Hfind Hne Hd Ht Hj Hl.
  unfold loadEditForm. rewrite find_loaded, Hfind. cbn [option_map].
  destruct (String.eqb_spec i "") as [ | _ ]; [ contradiction | ].
  unfold updateBug, truthyStr.
  destruct (String.eqb_spec i "") as [ | _ ]; [ contradiction | ].
  cbn [negb editDescription editTicket editJiraLink editLabel editImpact
       editLikelihood editReference].
  change (description (mapRowToBug r)) with (row_description r).
  unfold trimmed in Hd. apply String.eqb_eq in Hd. rewrite Hd.
  destruct (String.eqb_spec (row_description r) "") as [ | _ ]; [ contradiction | ].
  rewrite Hsup. cbn [negb].
  eexists. split; [ reflexivity | ]. split; [ reflexivity | ].
  unfold mapRowToBug, applyBugChanges.
  cbn [row_id row_ticket row_description jira_link row_impact row_likelihood row_label
       completed_at created_at row_reference new_ticket new_description new_jira_link
       new_impact new_likelihood new_label new_reference
       ticket jiraLink label impact likelihood reference].
  rewrite !optional_round_trip by assumption. reflexivity.
Qed.

Lemma edit_without_change_keeps_bug_witness :
  let r := {| row_id := "b1"; row_ticket := Some "T-1"%string;
              row_description := "Betaling mislukt"; jira_link := None;
              row_impact := 4; row_likelihood := 2; row_label := Some "TSO"%string;
              completed_at := None; created_at := 1000; row_reference := false |} in
  let st := {| authUser := Some "anna"%string;
               storage := {| bugauth_user := Some "anna"%string; bugauth_ts := Some 900 |};
               supabase := true; loginError := None |} in
  let f := {| editTicket := "x"; editDescription := ""; editJiraLink := "";
              editImpact := 1; editLikelihood := 1; editLabel := "";
              editReference := true |} in
  exists c,
    updateBug (Some "b1"%string) (loadEditForm (Some "b1"%string) (loaded [r]) f) st
    = EditSent (UpdateRow "b1" c)
    /\ new_description c = row_description r
    /\ mapRowToBug (applyBugChanges c r) = mapRowToBug r.
Proof.
  cbv zeta.
  apply (edit_without_change_keeps_bug _ _ "b1"%string); try reflexivity; discriminate.
Defined.

End EditFacts.
